(** * pysim6502: a shallow embedding of the bus, the Apple 1 bus and the CPU

    The Python simulator keeps all of its state in three mutable objects:
    a [Bus] (64K of memory with per-address permissions and an interrupt
    slot), its Apple 1 subclass [SystemBus] (keyboard and display
    registers on top of the bus) and a [CPU] that talks to whichever bus it
    was handed.  Methods mutate these objects in place and may raise
    [SimError]; here every method is a function from the object's state to
    an outcome paired with the state the object is left in, so that the
    state at the moment an exception escapes stays observable. *)

From Stdlib Require Import ZArith String Ascii List Bool Lia.
From stdpp Require Import base list.

Import ListNotations.
Local Open Scope string_scope.
Local Open Scope Z_scope.

(** ** Exceptions and the state-and-exception monad *)

(** [SimError] carries its message ([sim_error.py]).  [IndexError],
    [TypeError] and [ValueError] are the host exceptions Python raises for
    a list index out of range, for [None] used where an integer is needed
    and for a negative argument of [time.sleep]. *)
Inductive exn : Type :=
| SimError (message : string)
| IndexError
| TypeError
| ValueError.

Inductive result (A : Type) : Type :=
| Ok (value : A)
| Raise (e : exn).
Arguments Ok {A} value.
Arguments Raise {A} e.

(** A method of an object with state [S] that returns an [A]. *)
Definition M (S A : Type) : Type := S -> result A * S.

Definition ret {S A} (v : A) : M S A := fun st => (Ok v, st).

Definition raise {S A} (e : exn) : M S A := fun st => (Raise e, st).

Definition bind {S A B} (m : M S A) (k : A -> M S B) : M S B :=
  fun st =>
    match m st with
    | (Ok v, st') => k v st'
    | (Raise e, st') => (Raise e, st')
    end.

Definition gets {S A} (f : S -> A) : M S A := fun st => (Ok (f st), st).

Definition modify {S} (f : S -> S) : M S unit := fun st => (Ok tt, f st).

(** [time.sleep]: the time that passes is not part of the state, but a
    negative argument raises.  Every delay the sources assign is a whole
    number of microseconds divided by a million ([0], [0.005],
    [2/1000000], and [int(...) / 1000000] in the driver); the delays are
    kept in microseconds. *)
Definition sleep {S} (microseconds : Z) : M S unit :=
  if microseconds <? 0 then raise ValueError else ret tt.

Declare Scope method_scope.
Delimit Scope method_scope with method.
Notation "'let*' x ':=' m 'in' k" := (bind m (fun x => k))
  (at level 10, x name, m at level 100, k at level 200) : method_scope.
Notation "m ;; k" := (bind m (fun _ => k))
  (at level 100, k at level 200, right associativity) : method_scope.
Local Open Scope method_scope.

(** Python truthiness of an integer ([if self.d:], [0x80 if self.n else 0]). *)
Definition truthy (v : Z) : bool := negb (v =? 0).

(** Python's [int(b)] on a boolean. *)
Definition int (b : bool) : Z := if b then 1 else 0.

(** ** Formatting integers the way the f-strings do *)

Definition hex_digit (d : Z) : ascii :=
  match d with
  | 0 => "0" | 1 => "1" | 2 => "2" | 3 => "3"
  | 4 => "4" | 5 => "5" | 6 => "6" | 7 => "7"
  | 8 => "8" | 9 => "9" | 10 => "A" | 11 => "B"
  | 12 => "C" | 13 => "D" | 14 => "E" | _ => "F"
  end%char.

(** Digits of a non-negative [v], most significant first, pushed in front
    of [acc]; [fuel] bounds the number of digits. *)
Fixpoint hex_digits (fuel : nat) (v : Z) (acc : string) : string :=
  match fuel with
  | O => acc
  | S fuel' =>
      let acc' := String (hex_digit (v mod 16)) acc in
      if v / 16 =? 0 then acc' else hex_digits fuel' (v / 16) acc'
  end.

Definition to_hex (v : Z) : string :=
  hex_digits (S (Z.to_nat (Z.log2 v))) v "".

Fixpoint zeros (k : nat) : string :=
  match k with
  | O => ""
  | S k' => String "0"%char (zeros k')
  end.

(** Left padding with zeros up to [width] characters. *)
Definition zfill (width : nat) (digits : string) : string :=
  (zeros (width - String.length digits) ++ digits)%string.

(** [f'{v:0wX}']: upper-case hexadecimal, zero padded to [width]
    characters, the sign (if any) counted in the width. *)
Definition format_X (width : nat) (v : Z) : string :=
  if v <? 0
  then String "-"%char (zfill (width - 1) (to_hex (- v)))
  else zfill width (to_hex v).

(** The four hexadecimal digits of a 16-bit quantity, written out. *)
Definition four_hex (v : Z) : string :=
  String (hex_digit (v / 4096 mod 16))
    (String (hex_digit (v / 256 mod 16))
       (String (hex_digit (v / 16 mod 16))
          (String (hex_digit (v mod 16)) ""))).

(** ** The terminal

    [curses] is an external collaborator.  A window is modelled by the key
    codes that are waiting to be read, the characters that were sent to it
    and the number of refreshes it received. *)
Record Screen : Type := mkScreen {
  pending_keys : list Z;
  shown : list Z;
  refreshes : nat
}.

(** [curses.ERR], returned by a non-blocking [getch] with no key waiting. *)
Definition curses_ERR : Z := -1.

Definition getch (w : Screen) : Z * Screen :=
  match pending_keys w with
  | [] => (curses_ERR, w)
  | k :: rest => (k, mkScreen rest (shown w) (refreshes w))
  end.

(** [addstr(chr(value))] *)
Definition addstr (value : Z) (w : Screen) : Screen :=
  mkScreen (pending_keys w) (shown w ++ [value]) (refreshes w).

Definition refresh (w : Screen) : Screen :=
  mkScreen (pending_keys w) (shown w) (S (refreshes w)).

(** ** bus.py *)

Module Bus.

Definition mem_size : Z := 0x10000.

(** The attributes of a [Bus] object; [delay] is in microseconds.
    [scr_settings] only parametrises the terminal set-up of the driver and
    is left out. *)
Record t : Type := mk {
  mem : list Z;
  is_writeable : list bool;
  is_readable : list bool;
  throw_memory_errors : bool;
  interrupt : option string;
  stdscr : option Screen;
  delay : Z
}.

Definition set_mem (m : list Z) (self : t) : t :=
  mk m (is_writeable self) (is_readable self) (throw_memory_errors self)
     (interrupt self) (stdscr self) (delay self).

Definition set_is_writeable (w : list bool) (self : t) : t :=
  mk (mem self) w (is_readable self) (throw_memory_errors self)
     (interrupt self) (stdscr self) (delay self).

Definition set_is_readable (r : list bool) (self : t) : t :=
  mk (mem self) (is_writeable self) r (throw_memory_errors self)
     (interrupt self) (stdscr self) (delay self).

Definition set_throw_memory_errors (f : bool) (self : t) : t :=
  mk (mem self) (is_writeable self) (is_readable self) f
     (interrupt self) (stdscr self) (delay self).

Definition set_interrupt (tag : option string) (self : t) : t :=
  mk (mem self) (is_writeable self) (is_readable self)
     (throw_memory_errors self) tag (stdscr self) (delay self).

Definition set_stdscr (w : option Screen) (self : t) : t :=
  mk (mem self) (is_writeable self) (is_readable self)
     (throw_memory_errors self) (interrupt self) w (delay self).

Definition set_delay (microseconds : Z) (self : t) : t :=
  mk (mem self) (is_writeable self) (is_readable self)
     (throw_memory_errors self) (interrupt self) (stdscr self) microseconds.

(** [__init__] with [random_state=False]; with [random_state=True] the
    memory holds arbitrary bytes, which is any [initial_mem] of the right
    length in [init_with]. *)
Definition init_with (initial_mem : list Z) (throw : bool) : t :=
  mk initial_mem
     (replicate (Z.to_nat mem_size) true)
     (replicate (Z.to_nat mem_size) true)
     throw None None 0.

Definition init (throw : bool) : t :=
  init_with (replicate (Z.to_nat mem_size) 0) throw.

(** [l[address]] for an index that is known to be non-negative. *)
Definition index {A} (l : list A) (address : Z) : option A :=
  l !! Z.to_nat address.

Definition read (address : Z) : M t Z := fun self =>
  let address := Z.land address 0xFFFF in
  match index (is_readable self) address with
  | None => (Raise IndexError, self)
  | Some true =>
      match index (mem self) address with
      | Some value => (Ok value, self)
      | None => (Raise IndexError, self)
      end
  | Some false =>
      if throw_memory_errors self
      then (Raise (SimError ("Attempt to read from unreadable address $"
                               ++ format_X 4 address)%string), self)
      else (Ok 0, self)
  end.

Definition write (address value : Z) : M t unit := fun self =>
  let address := Z.land address 0xFFFF in
  let value := Z.land value 0xFF in
  match index (is_writeable self) address with
  | None => (Raise IndexError, self)
  | Some true =>
      match index (mem self) address with
      | Some _ => (Ok tt, set_mem (<[Z.to_nat address := value]> (mem self)) self)
      | None => (Raise IndexError, self)
      end
  | Some false =>
      if throw_memory_errors self
      then (Raise (SimError ("Attempt to write value $" ++ format_X 2 value
                               ++ " to unwriteable address $"
                               ++ format_X 4 address)%string), self)
      else (Ok tt, self)
  end.

(** The tail of [read_file]: the bytes of the image are stored from
    [address_start] on, wrapping at 64K, with no permission check. *)
Fixpoint load_bytes (address_start i : Z) (bin_data : list Z) (m : list Z)
  : list Z :=
  match bin_data with
  | [] => m
  | byte :: rest =>
      load_bytes address_start (i + 1) rest
        (<[Z.to_nat (Z.land (address_start + i) 0xFFFF) := byte]> m)
  end.

Definition read_file (bin_data : list Z) (address_start : Z) (self : t) : t :=
  set_mem (load_bytes address_start 0 bin_data (mem self)) self.

End Bus.

(** What the CPU expects of its bus: [read], [write] and the [interrupt]
    attribute.  Python dispatches on the class of the object; here the
    class is the instance. *)
Class BusLike (B : Type) : Type := {
  bus_read : Z -> M B Z;
  bus_write : Z -> Z -> M B unit;
  bus_interrupt : B -> option string;
  bus_set_interrupt : option string -> B -> B
}.

#[export] Instance Bus_BusLike : BusLike Bus.t := {
  bus_read := Bus.read;
  bus_write := Bus.write;
  bus_interrupt := Bus.interrupt;
  bus_set_interrupt := Bus.set_interrupt
}.

(** ** apple1_bus.py *)

Module SystemBus.

(** A [SystemBus] is a [Bus] with two more attributes. *)
Record t : Type := mk {
  base : Bus.t;
  kbd : Z;
  dsp : Z
}.

Definition set_base (b : Bus.t) (self : t) : t := mk b (kbd self) (dsp self).
Definition set_kbd (k : Z) (self : t) : t := mk (base self) k (dsp self).
Definition set_dsp (v : Z) (self : t) : t := mk (base self) (kbd self) v.

Definition interrupt (self : t) : option string := Bus.interrupt (base self).
Definition set_interrupt (tag : option string) (self : t) : t :=
  set_base (Bus.set_interrupt tag (base self)) self.

(** [for i in range(lo, hi): flags[i] = False] on a list that is at
    least [hi] long; [i] is the index of the head of [flags]. *)
Fixpoint clear_range (lo hi i : Z) (flags : list bool) : list bool :=
  match flags with
  | [] => []
  | f :: rest =>
      (if (lo <=? i) && (i <? hi) then false else f)
        :: clear_range lo hi (i + 1) rest
  end.

(** [__init__].  The two ROM images are files of the distribution that
    are not part of the sources; their bytes are the parameters [wozmon]
    and [intbasic]. *)
Definition init_with (initial_mem : list Z) (throw : bool)
    (wozmon intbasic : list Z) : t :=
  let b := Bus.init_with initial_mem throw in
  let b := Bus.set_is_writeable
             (clear_range 0x8000 0x10000 0 (Bus.is_writeable b)) b in
  let b := Bus.set_is_readable
             (clear_range 0x8000 0xE000 0 (Bus.is_readable b)) b in
  let b := Bus.read_file wozmon 0xFF00 b in
  let b := Bus.read_file intbasic 0xE000 b in
  let b := Bus.set_delay 5000 b in
  mk b 0 0.

Definition init (throw : bool) (wozmon intbasic : list Z) : t :=
  init_with (replicate (Z.to_nat Bus.mem_size) 0) throw wozmon intbasic.

(** A method of the parent class run on the object. *)
Definition super {A} (m : M Bus.t A) : M t A := fun self =>
  let (r, b) := m (base self) in (r, set_base b self).

(** [self.stdscr.getch()] where there is a screen, [curses.ERR] otherwise. *)
Definition poll_key (self : t) : Z * t :=
  match Bus.stdscr (base self) with
  | Some w =>
      let (k, w') := getch w in
      (k, set_base (Bus.set_stdscr (Some w') (base self)) self)
  | None => (curses_ERR, self)
  end.

(** [if self.stdscr is not None: self.stdscr.f(...)] *)
Definition on_screen (f : Screen -> Screen) (self : t) : t :=
  match Bus.stdscr (base self) with
  | Some w => set_base (Bus.set_stdscr (Some (f w)) (base self)) self
  | None => self
  end.

Definition read (address : Z) : M t Z := fun self =>
  let address := Z.land address 0xFFFF in
  if address =? 0xD010 then
    (Ok (kbd self), set_kbd 0 self)
  else if address =? 0xD011 then
    let (k, self) := poll_key self in
    if k =? curses_ERR then (Ok 0, self)
    else
      let self := if k =? 18 then set_interrupt (Some "RES") self else self in
      let self := if k =? 5 then set_interrupt (Some "HLT") self else self in
      let k := if (97 <=? k) && (k <=? 122) then k - 32 else k in
      let k := if k =? 10 then 13 else k in
      let k := if k =? 127 then 95 else k in
      (Ok 0x80, set_kbd (Z.lor k 0x80) self)
  else if address =? 0xD012 then
    (Ok 0, self)
  else super (Bus.read address) self.

Definition write (address value : Z) : M t unit := fun self =>
  let address := Z.land address 0xFFFF in
  let value := Z.land value 0xFF in
  if address =? 0xD012 then
    let self := set_dsp value self in
    let value := Z.land value 0x7F in
    let value := if value >? 95 then value - 32 else value in
    (sleep (Bus.delay (base self)) ;;
     fun self =>
       let self :=
         if ((32 <=? value) && (value <=? 95)) || (value =? 13)
         then
           let value := if value =? 13 then 10 else value in
           on_screen (addstr value) self
         else self in
       let self := on_screen refresh self in
       (Ok tt, self)) self
  else if (address =? 0xD011) || (address =? 0xD013) then
    (Ok tt, self)
  else super (Bus.write address value) self.

End SystemBus.

#[export] Instance SystemBus_BusLike : BusLike SystemBus.t := {
  bus_read := SystemBus.read;
  bus_write := SystemBus.write;
  bus_interrupt := SystemBus.interrupt;
  bus_set_interrupt := SystemBus.set_interrupt
}.

(** ** cpu.py *)

Module CPU.

Definition stack_location : Z := 0x0100.
Definition irq_vector : Z := 0xFFFA.
Definition reset_vector : Z := 0xFFFC.
Definition nmi_brk_vector : Z := 0xFFFE.

Definition bin2bcd (n : Z) : Z := Z.land ((n / 10) * 16 + n mod 10) 0xFF.

Definition bcd2bin (n : Z) : Z := (n / 16) * 10 + Z.land n 0x0F.

Section WithBus.

Context {B : Type} {bus_methods : BusLike B}.

(** The attributes of a [CPU] object; the flags are integers, as in the
    source, and [delay] is in microseconds. *)
Record t : Type := mk {
  bus : B;
  a : Z;
  x : Z;
  y : Z;
  pc : Z;
  s : Z;
  c : Z;
  z : Z;
  i : Z;
  d : Z;
  b : Z;
  v : Z;
  n : Z;
  halted : bool;
  breakpoints : list Z;
  last_break : option Z;
  delay : Z
}.

Definition set_bus (new : B) (self : t) : t :=
  mk new (a self) (x self) (y self) (pc self) (s self)
     (c self) (z self) (i self) (d self) (b self) (v self) (n self) (halted self)
     (breakpoints self) (last_break self) (delay self).
Definition set_a (new : Z) (self : t) : t :=
  mk (bus self) new (x self) (y self) (pc self) (s self)
     (c self) (z self) (i self) (d self) (b self) (v self) (n self) (halted self)
     (breakpoints self) (last_break self) (delay self).
Definition set_x (new : Z) (self : t) : t :=
  mk (bus self) (a self) new (y self) (pc self) (s self)
     (c self) (z self) (i self) (d self) (b self) (v self) (n self) (halted self)
     (breakpoints self) (last_break self) (delay self).
Definition set_y (new : Z) (self : t) : t :=
  mk (bus self) (a self) (x self) new (pc self) (s self)
     (c self) (z self) (i self) (d self) (b self) (v self) (n self) (halted self)
     (breakpoints self) (last_break self) (delay self).
Definition set_pc (new : Z) (self : t) : t :=
  mk (bus self) (a self) (x self) (y self) new (s self)
     (c self) (z self) (i self) (d self) (b self) (v self) (n self) (halted self)
     (breakpoints self) (last_break self) (delay self).
Definition set_s (new : Z) (self : t) : t :=
  mk (bus self) (a self) (x self) (y self) (pc self) new
     (c self) (z self) (i self) (d self) (b self) (v self) (n self) (halted self)
     (breakpoints self) (last_break self) (delay self).
Definition set_c (new : Z) (self : t) : t :=
  mk (bus self) (a self) (x self) (y self) (pc self) (s self) new
     (z self) (i self) (d self) (b self) (v self) (n self)
     (halted self) (breakpoints self) (last_break self) (delay self).
Definition set_z (new : Z) (self : t) : t :=
  mk (bus self) (a self) (x self) (y self) (pc self) (s self)
     (c self) new (i self) (d self) (b self) (v self) (n self) (halted self)
     (breakpoints self) (last_break self) (delay self).
Definition set_i (new : Z) (self : t) : t :=
  mk (bus self) (a self) (x self) (y self) (pc self) (s self)
     (c self) (z self) new (d self) (b self) (v self) (n self) (halted self)
     (breakpoints self) (last_break self) (delay self).
Definition set_d (new : Z) (self : t) : t :=
  mk (bus self) (a self) (x self) (y self) (pc self) (s self)
     (c self) (z self) (i self) new (b self) (v self) (n self) (halted self)
     (breakpoints self) (last_break self) (delay self).
Definition set_b (new : Z) (self : t) : t :=
  mk (bus self) (a self) (x self) (y self) (pc self) (s self)
     (c self) (z self) (i self) (d self) new (v self) (n self) (halted self)
     (breakpoints self) (last_break self) (delay self).
Definition set_v (new : Z) (self : t) : t :=
  mk (bus self) (a self) (x self) (y self) (pc self) (s self)
     (c self) (z self) (i self) (d self) (b self) new (n self) (halted self)
     (breakpoints self) (last_break self) (delay self).
Definition set_n (new : Z) (self : t) : t :=
  mk (bus self) (a self) (x self) (y self) (pc self) (s self)
     (c self) (z self) (i self) (d self) (b self) (v self) new (halted self)
     (breakpoints self) (last_break self) (delay self).
Definition set_halted (new : bool) (self : t) : t :=
  mk (bus self) (a self) (x self) (y self) (pc self) (s self)
     (c self) (z self) (i self) (d self) (b self) (v self) (n self) new
     (breakpoints self) (last_break self) (delay self).
Definition set_breakpoints (new : list Z) (self : t) : t :=
  mk (bus self) (a self) (x self) (y self) (pc self) (s self) (c self)
     (z self) (i self) (d self) (b self) (v self) (n self)
     (halted self) new (last_break self) (delay self).
Definition set_last_break (new : option Z) (self : t) : t :=
  mk (bus self) (a self) (x self) (y self) (pc self) (s self)
     (c self) (z self) (i self) (d self) (b self) (v self) (n self) (halted self)
     (breakpoints self) new (delay self).
Definition set_delay (new : Z) (self : t) : t :=
  mk (bus self) (a self) (x self) (y self) (pc self) (s self)
     (c self) (z self) (i self) (d self) (b self) (v self) (n self) (halted self)
     (breakpoints self) (last_break self) new.

(** [initialize_registers] followed by the rest of [__init__]
    ([random_state=False]). *)
Definition init (the_bus : B) : t :=
  mk the_bus 0 0 0 0 0xFF 0 0 0 0 0 0 0 true [] None 2.

(** [self.bus.read(address)] and [self.bus.write(address, value)] *)
Definition read (address : Z) : M t Z := fun self =>
  let (r, bus') := bus_read address (bus self) in (r, set_bus bus' self).

Definition write (address value : Z) : M t unit := fun self =>
  let (r, bus') := bus_write address value (bus self) in (r, set_bus bus' self).

(** The same with the address an operator was handed by its resolver,
    which is [None] in accumulator mode; [None] is no integer. *)
Definition read_at (address : option Z) : M t Z :=
  match address with
  | Some p => read p
  | None => raise TypeError
  end.

Definition write_at (address : option Z) (value : Z) : M t unit :=
  match address with
  | Some p => write p value
  | None => raise TypeError
  end.

Definition get_status_register (self : t) : Z :=
  let sr := if truthy (n self) then 0x80 else 0 in
  let sr := sr + (if truthy (v self) then 0x40 else 0) in
  let sr := sr + (if truthy (b self) then 0x10 else 0) in
  let sr := sr + (if truthy (d self) then 0x08 else 0) in
  let sr := sr + (if truthy (i self) then 0x04 else 0) in
  let sr := sr + (if truthy (z self) then 0x02 else 0) in
  let sr := sr + (if truthy (c self) then 0x01 else 0) in
  sr.

Definition set_status_register (sr : Z) : M t unit :=
  modify (set_n (int (truthy (Z.land sr 0x80)))) ;;
  modify (set_v (int (truthy (Z.land sr 0x40)))) ;;
  modify (set_b (int (truthy (Z.land sr 0x10)))) ;;
  modify (set_d (int (truthy (Z.land sr 0x08)))) ;;
  modify (set_i (int (truthy (Z.land sr 0x04)))) ;;
  modify (set_z (int (truthy (Z.land sr 0x02)))) ;;
  modify (set_c (int (truthy (Z.land sr 0x01)))).

Definition sei : M t unit := modify (set_i 1).

Definition sei_and_set_pc (vector : Z) : M t unit :=
  sei ;;
  let* lsb := read vector in
  let* msb := read (Z.land (vector + 1) 0xFFFF) in
  modify (set_pc (lsb + msb * 0x100)).

Definition reset : M t unit := sei_and_set_pc reset_vector.

Definition inc_pc : M t unit :=
  let* self_pc := gets pc in
  modify (set_pc (Z.land (self_pc + 1) 0xFFFF)).

(** [list.remove]: the first occurrence goes. *)
Fixpoint remove_first (address : Z) (l : list Z) : list Z :=
  match l with
  | [] => []
  | p :: rest => if p =? address then rest else p :: remove_first address rest
  end.

Definition set_breakpoint (address : Z) : M t bool :=
  let address := Z.land address 0xFFFF in
  let* bps := gets breakpoints in
  if bool_decide (address ∈ bps)
  then modify (set_breakpoints (remove_first address bps)) ;; ret false
  else modify (set_breakpoints (bps ++ [address])) ;; ret true.

Definition clear_breakpoints : M t Z :=
  let* bps := gets breakpoints in
  modify (set_breakpoints []) ;;
  ret (Z.of_nat (length bps)).

(** *** Address-resolving methods

    Each returns the address of the operand, or [None] for the
    accumulator.  The diagnostic [print] calls of [indirect],
    [indirect_x] and [indirect_y] write to the host console only. *)

Definition absolute_address : M t Z :=
  let* self_pc := gets pc in
  let* address := read self_pc in
  inc_pc ;;
  let* self_pc := gets pc in
  let* msb := read self_pc in
  let address := address + msb * 0x100 in
  inc_pc ;;
  ret address.

Definition absolute : M t (option Z) :=
  let* address := absolute_address in
  ret (Some address).

Definition absolute_x : M t (option Z) :=
  let* address := absolute_address in
  let* self_x := gets x in
  ret (Some (Z.land (address + self_x) 0xFFFF)).

Definition absolute_y : M t (option Z) :=
  let* address := absolute_address in
  let* self_y := gets y in
  ret (Some (Z.land (address + self_y) 0xFFFF)).

Definition accumulator : M t (option Z) := ret None.

Definition immediate : M t (option Z) :=
  let* address := gets pc in
  inc_pc ;;
  ret (Some address).

Definition indirect : M t (option Z) :=
  let* self_pc := gets pc in
  let* address_location := read self_pc in
  inc_pc ;;
  let* self_pc := gets pc in
  let* msb := read self_pc in
  let address_location := address_location + msb * 0x100 in
  inc_pc ;;
  let* address_lsb := read address_location in
  let address_location :=
    if Z.land address_location 0xFF =? 0xFF
    then address_location - 0xFF
    else address_location + 1 in
  let* address_msb := read address_location in
  ret (Some (address_msb * 0x100 + address_lsb)).

Definition zero_page_address : M t Z :=
  let* self_pc := gets pc in
  let* address := read self_pc in
  inc_pc ;;
  ret address.

Definition zero_page : M t (option Z) :=
  let* address := zero_page_address in
  ret (Some address).

Definition zero_page_x_address : M t Z :=
  let* self_pc := gets pc in
  let* address := read self_pc in
  inc_pc ;;
  let* self_x := gets x in
  ret (Z.land (address + self_x) 0xFF).

Definition zero_page_x : M t (option Z) :=
  let* address := zero_page_x_address in
  ret (Some address).

Definition zero_page_y : M t (option Z) :=
  let* self_pc := gets pc in
  let* address := read self_pc in
  inc_pc ;;
  let* self_y := gets y in
  ret (Some (Z.land (address + self_y) 0xFF)).

Definition indirect_x : M t (option Z) :=
  let* address_location := zero_page_x_address in
  let* msb := read (Z.land (address_location + 1) 0xFF) in
  let* lsb := read address_location in
  ret (Some (msb * 0x100 + lsb)).

Definition indirect_y : M t (option Z) :=
  let* address_location := zero_page_address in
  let* msb := read (Z.land (address_location + 1) 0xFF) in
  let* lsb := read address_location in
  let address := msb * 0x100 + lsb in
  let* self_y := gets y in
  ret (Some (Z.land (address + self_y) 0xFFFF)).

(** *** Helpers of the operator methods *)

Definition set_nz (result : Z) : M t unit :=
  modify (set_z (int (result =? 0))) ;;
  modify (set_n (int (result >=? 0x80))).

Definition branch (take_branch : bool) : M t unit :=
  let* self_pc := gets pc in
  let* displacement := read self_pc in
  inc_pc ;;
  if take_branch then
    let displacement :=
      if displacement >=? 0x80 then - (0x100 - displacement)
      else displacement in
    let* self_pc := gets pc in
    modify (set_pc (Z.land (self_pc + displacement) 0xFFFF))
  else ret tt.

Definition compare (reg_value n : Z) : M t unit :=
  let result := reg_value - n in
  modify (set_c (int (result >=? 0))) ;;
  let result := Z.land result 0xFF in
  set_nz result.

Definition shift_left (value : Z) (carry_fill : bool) : M t Z :=
  let* saved_carry := gets c in
  modify (set_c (int (value >=? 0x80))) ;;
  let value := Z.land (value * 2) 0xFF in
  let value := if carry_fill && truthy saved_carry then value + 1 else value in
  set_nz value ;;
  ret value.

Definition shift_right (value : Z) (carry_fill : bool) : M t Z :=
  let* saved_carry := gets c in
  modify (set_c (Z.land value 1)) ;;
  let value := Z.land (value / 2) 0xFF in
  let value := if carry_fill && truthy saved_carry then value + 0x80 else value in
  set_nz value ;;
  ret value.

Definition pull : M t Z :=
  let* self_s := gets s in
  modify (set_s (Z.land (self_s + 1) 0xFF)) ;;
  let* self_s := gets s in
  read (stack_location + self_s).

Definition push (value : Z) : M t unit :=
  let* self_s := gets s in
  write (stack_location + self_s) value ;;
  modify (set_s (Z.land (self_s - 1) 0xFF)).

(** *** Operator methods *)

Definition adc (address : option Z) : M t unit :=
  let* value := read_at address in
  let* self_a := gets a in
  let* self_c := gets c in
  let* self_d := gets d in
  let* result :=
    (if truthy self_d then
       let result := bcd2bin self_a + bcd2bin value + self_c in
       if result >=? 100
       then modify (set_c 1) ;; ret (result - 100)
       else modify (set_c 0) ;; ret result
     else
       let result := self_a + value + self_c in
       modify (set_c (int (result >? 255))) ;;
       ret (Z.land result 0xFF)) in
  modify (set_v (int (negb (Z.land self_a 0x80 =? Z.land result 0x80)
                      && negb (Z.land value 0x80 =? Z.land result 0x80)))) ;;
  set_nz result ;;
  if truthy self_d
  then modify (set_a (bin2bcd result))
  else modify (set_a result).

Definition aNd (address : option Z) : M t unit :=
  let* value := read_at address in
  let* self_a := gets a in
  modify (set_a (Z.land (Z.land self_a value) 0xFF)) ;;
  let* self_a := gets a in
  set_nz self_a.

(** The body shared by [asl], [lsr], [rol] and [ror], which differ in the
    shift they call. *)
Definition shift_operand (shift : Z -> M t Z) (address : option Z) : M t unit :=
  let* value := match address with
                | None => gets a
                | Some p => read p
                end in
  let* value := shift value in
  match address with
  | None => modify (set_a value)
  | Some p => write p value
  end.

Definition asl (address : option Z) : M t unit :=
  shift_operand (fun value => shift_left value false) address.

Definition bcc : M t unit := let* self_c := gets c in branch (negb (truthy self_c)).
Definition bcs : M t unit := let* self_c := gets c in branch (truthy self_c).
Definition beq : M t unit := let* self_z := gets z in branch (truthy self_z).

Definition bit (address : option Z) : M t unit :=
  let* value := read_at address in
  let* self_a := gets a in
  modify (set_z (int (Z.land value self_a =? 0))) ;;
  modify (set_n (int (value >=? 0x80))) ;;
  modify (set_v (int (Z.land value 0x40 =? 0x40))).

Definition bmi : M t unit := let* self_n := gets n in branch (truthy self_n).
Definition bne : M t unit := let* self_z := gets z in branch (negb (truthy self_z)).
Definition bpl : M t unit := let* self_n := gets n in branch (negb (truthy self_n)).

Definition php : M t unit :=
  let* sr := gets get_status_register in
  push (Z.lor sr 0x30).

Definition interrupt (vector : Z) (set_break_flag : bool) : M t unit :=
  let* self_pc := gets pc in
  push (self_pc / 0x100) ;;
  let* self_pc := gets pc in
  push (Z.land self_pc 0xFF) ;;
  (if set_break_flag then php
   else
     let* sr := gets get_status_register in
     push (Z.land sr 0xCF)) ;;
  sei_and_set_pc vector.

Definition brk : M t unit :=
  inc_pc ;;
  interrupt nmi_brk_vector true.

Definition bvc : M t unit := let* self_v := gets v in branch (negb (truthy self_v)).
Definition bvs : M t unit := let* self_v := gets v in branch (truthy self_v).

Definition clc : M t unit := modify (set_c 0).
Definition cld : M t unit := modify (set_d 0).
Definition cli : M t unit := modify (set_i 0).
Definition clv : M t unit := modify (set_v 0).

Definition cmp (address : option Z) : M t unit :=
  let* self_a := gets a in
  let* value := read_at address in
  compare self_a value.

Definition cpx (address : option Z) : M t unit :=
  let* self_x := gets x in
  let* value := read_at address in
  compare self_x value.

Definition cpy (address : option Z) : M t unit :=
  let* self_y := gets y in
  let* value := read_at address in
  compare self_y value.

Definition dec (address : option Z) : M t unit :=
  let* value := read_at address in
  let value := Z.land (value - 1) 0xFF in
  write_at address value ;;
  set_nz value.

Definition dex : M t unit :=
  let* self_x := gets x in
  modify (set_x (Z.land (self_x - 1) 0xFF)) ;;
  let* self_x := gets x in
  set_nz self_x.

Definition dey : M t unit :=
  let* self_y := gets y in
  modify (set_y (Z.land (self_y - 1) 0xFF)) ;;
  let* self_y := gets y in
  set_nz self_y.

Definition eor (address : option Z) : M t unit :=
  let* value := read_at address in
  let* self_a := gets a in
  modify (set_a (Z.land (Z.lxor self_a value) 0xFF)) ;;
  let* self_a := gets a in
  set_nz self_a.

Definition inc (address : option Z) : M t unit :=
  let* value := read_at address in
  let value := Z.land (value + 1) 0xFF in
  write_at address value ;;
  set_nz value.

Definition inx : M t unit :=
  let* self_x := gets x in
  modify (set_x (Z.land (self_x + 1) 0xFF)) ;;
  let* self_x := gets x in
  set_nz self_x.

Definition iny : M t unit :=
  let* self_y := gets y in
  modify (set_y (Z.land (self_y + 1) 0xFF)) ;;
  let* self_y := gets y in
  set_nz self_y.

(** [jmp] and [jsr] store the address they are handed in [pc]; both are
    only ever paired with resolvers that return an address. *)
Definition jmp (address : option Z) : M t unit :=
  match address with
  | Some p => modify (set_pc p)
  | None => raise TypeError
  end.

Definition jsr (address : option Z) : M t unit :=
  let* self_pc := gets pc in
  let return_address := Z.land (self_pc - 1) 0xFFFF in
  push (return_address / 0x100) ;;
  push (Z.land return_address 0xFF) ;;
  jmp address.

Definition lda (address : option Z) : M t unit :=
  let* value := read_at address in
  modify (set_a value) ;;
  set_nz value.

Definition ldx (address : option Z) : M t unit :=
  let* value := read_at address in
  modify (set_x value) ;;
  set_nz value.

Definition ldy (address : option Z) : M t unit :=
  let* value := read_at address in
  modify (set_y value) ;;
  set_nz value.

Definition lsr (address : option Z) : M t unit :=
  shift_operand (fun value => shift_right value false) address.

Definition nop : M t unit := ret tt.

Definition ora (address : option Z) : M t unit :=
  let* value := read_at address in
  let* self_a := gets a in
  modify (set_a (Z.land (Z.lor self_a value) 0xFF)) ;;
  let* self_a := gets a in
  set_nz self_a.

Definition pha : M t unit :=
  let* self_a := gets a in
  push self_a.

Definition pla : M t unit :=
  let* value := pull in
  modify (set_a value) ;;
  set_nz value.

Definition plp : M t unit :=
  let* sr := pull in
  set_status_register sr.

Definition rol (address : option Z) : M t unit :=
  shift_operand (fun value => shift_left value true) address.

Definition ror (address : option Z) : M t unit :=
  shift_operand (fun value => shift_right value true) address.

Definition rti : M t unit :=
  plp ;;
  let* lsb := pull in
  let* msb := pull in
  modify (set_pc (msb * 0x100 + lsb)).

Definition rts : M t unit :=
  let* lsb := pull in
  let* msb := pull in
  modify (set_pc (msb * 0x100 + lsb)) ;;
  inc_pc.

Definition sbc (address : option Z) : M t unit :=
  let* value := read_at address in
  let* self_a := gets a in
  let* self_c := gets c in
  let* self_d := gets d in
  let overflow result :=
    int (negb (Z.land self_a 0x80 =? Z.land result 0x80)
         && (Z.land value 0x80 =? Z.land result 0x80)) in
  let* result :=
    (if truthy self_d then
       let result := bcd2bin self_a - bcd2bin value + self_c - 1 in
       modify (set_v (overflow result)) ;;
       if result <? 0
       then modify (set_c 0) ;; ret (result + 100)
       else modify (set_c 1) ;; ret result
     else
       let result := self_a - value + self_c - 1 in
       modify (set_c (int (result >=? 0))) ;;
       modify (set_v (overflow result)) ;;
       ret (Z.land result 0xFF)) in
  set_nz result ;;
  if truthy self_d
  then modify (set_a (bin2bcd result))
  else modify (set_a result).

Definition sec : M t unit := modify (set_c 1).
Definition sed : M t unit := modify (set_d 1).

Definition sta (address : option Z) : M t unit :=
  let* self_a := gets a in write_at address self_a.

Definition stx (address : option Z) : M t unit :=
  let* self_x := gets x in write_at address self_x.

Definition sty (address : option Z) : M t unit :=
  let* self_y := gets y in write_at address self_y.

Definition tax : M t unit :=
  let* self_a := gets a in modify (set_x self_a) ;; set_nz self_a.

Definition tay : M t unit :=
  let* self_a := gets a in modify (set_y self_a) ;; set_nz self_a.

Definition tsx : M t unit :=
  let* self_s := gets s in modify (set_x self_s) ;; set_nz self_s.

Definition txa : M t unit :=
  let* self_x := gets x in modify (set_a self_x) ;; set_nz self_x.

Definition txs : M t unit :=
  let* self_x := gets x in modify (set_s self_x).

Definition tya : M t unit :=
  let* self_y := gets y in modify (set_a self_y) ;; set_nz self_y.

(** *** The opcode dictionary

    A value of the dictionary is an operation on its own or an operation
    with the resolver of its operand; every list in the source has two
    elements. *)
Inductive instruction : Type :=
| Implied (operation : M t unit)
| Addressed (operation : option Z -> M t unit) (resolver : M t (option Z)).

Definition opcodes : list (string * instruction) :=
  [ ("00", Implied brk);
    ("01", Addressed ora indirect_x);
    ("05", Addressed ora zero_page);
    ("06", Addressed asl zero_page);
    ("08", Implied php);
    ("09", Addressed ora immediate);
    ("0A", Addressed asl accumulator);
    ("0D", Addressed ora absolute);
    ("0E", Addressed asl absolute);
    ("10", Implied bpl);
    ("11", Addressed ora indirect_y);
    ("15", Addressed ora zero_page_x);
    ("16", Addressed asl zero_page_x);
    ("18", Implied clc);
    ("19", Addressed ora absolute_y);
    ("1D", Addressed ora absolute_x);
    ("1E", Addressed asl absolute_x);
    ("20", Addressed jsr absolute);
    ("21", Addressed aNd indirect);
    ("24", Addressed bit zero_page);
    ("25", Addressed aNd zero_page);
    ("26", Addressed rol zero_page);
    ("28", Implied plp);
    ("29", Addressed aNd immediate);
    ("2A", Addressed rol accumulator);
    ("2C", Addressed bit absolute);
    ("2D", Addressed aNd absolute);
    ("2E", Addressed rol absolute);
    ("30", Implied bmi);
    ("31", Addressed aNd indirect_y);
    ("35", Addressed aNd zero_page_x);
    ("36", Addressed rol zero_page_x);
    ("38", Implied sec);
    ("39", Addressed aNd absolute_y);
    ("3D", Addressed aNd absolute_x);
    ("3E", Addressed rol absolute_x);
    ("40", Implied rti);
    ("41", Addressed eor indirect_x);
    ("45", Addressed eor zero_page);
    ("46", Addressed lsr zero_page);
    ("48", Implied pha);
    ("49", Addressed eor immediate);
    ("4A", Addressed lsr accumulator);
    ("4C", Addressed jmp absolute);
    ("4D", Addressed eor absolute);
    ("4E", Addressed lsr absolute);
    ("50", Implied bvc);
    ("51", Addressed eor indirect_y);
    ("55", Addressed eor zero_page_x);
    ("56", Addressed lsr zero_page_x);
    ("58", Implied cli);
    ("59", Addressed eor absolute_y);
    ("5D", Addressed eor absolute_x);
    ("5E", Addressed lsr absolute_x);
    ("60", Implied rts);
    ("61", Addressed adc indirect_x);
    ("65", Addressed adc zero_page);
    ("66", Addressed ror zero_page);
    ("68", Implied pla);
    ("69", Addressed adc immediate);
    ("6A", Addressed ror accumulator);
    ("6C", Addressed jmp indirect);
    ("6D", Addressed adc absolute);
    ("6E", Addressed ror absolute);
    ("70", Implied bvs);
    ("71", Addressed adc indirect_y);
    ("75", Addressed adc zero_page_x);
    ("76", Addressed ror zero_page_x);
    ("78", Implied sei);
    ("79", Addressed adc absolute_y);
    ("7D", Addressed adc absolute_x);
    ("7E", Addressed ror absolute_x);
    ("81", Addressed sta indirect_x);
    ("84", Addressed sty zero_page);
    ("85", Addressed sta zero_page);
    ("86", Addressed stx zero_page);
    ("88", Implied dey);
    ("8A", Implied txa);
    ("8C", Addressed sty absolute);
    ("8D", Addressed sta absolute);
    ("8E", Addressed stx absolute);
    ("90", Implied bcc);
    ("91", Addressed sta indirect_y);
    ("94", Addressed sty zero_page_x);
    ("95", Addressed sta zero_page_x);
    ("96", Addressed stx zero_page_y);
    ("98", Implied tya);
    ("99", Addressed sta absolute_y);
    ("9A", Implied txs);
    ("9D", Addressed sta absolute_x);
    ("A0", Addressed ldy immediate);
    ("A1", Addressed lda indirect_x);
    ("A2", Addressed ldx immediate);
    ("A4", Addressed ldy zero_page);
    ("A5", Addressed lda zero_page);
    ("A6", Addressed ldx zero_page);
    ("A8", Implied tay);
    ("A9", Addressed lda immediate);
    ("AA", Implied tax);
    ("AC", Addressed ldy absolute);
    ("AD", Addressed lda absolute);
    ("AE", Addressed ldx absolute);
    ("B0", Implied bcs);
    ("B1", Addressed lda indirect_y);
    ("B4", Addressed ldy zero_page_x);
    ("B5", Addressed lda zero_page_x);
    ("B6", Addressed ldx zero_page_y);
    ("B8", Implied clv);
    ("B9", Addressed lda absolute_y);
    ("BA", Implied tsx);
    ("BC", Addressed ldy absolute_x);
    ("BD", Addressed lda absolute_x);
    ("BE", Addressed ldx absolute_y);
    ("C0", Addressed cpy immediate);
    ("C1", Addressed cmp indirect_x);
    ("C4", Addressed cpy zero_page);
    ("C5", Addressed cmp zero_page);
    ("C6", Addressed dec zero_page);
    ("C8", Implied iny);
    ("C9", Addressed cmp immediate);
    ("CA", Implied dex);
    ("CC", Addressed cpy absolute);
    ("CD", Addressed cmp absolute);
    ("CE", Addressed dec absolute);
    ("D0", Implied bne);
    ("D1", Addressed cmp indirect_y);
    ("D5", Addressed cmp zero_page_x);
    ("D6", Addressed dec zero_page_x);
    ("D8", Implied cld);
    ("D9", Addressed cmp absolute_y);
    ("DD", Addressed cmp absolute_x);
    ("DE", Addressed dec absolute_x);
    ("E0", Addressed cpx immediate);
    ("E1", Addressed sbc indirect_x);
    ("E4", Addressed cpx zero_page);
    ("E5", Addressed sbc zero_page);
    ("E6", Addressed inc zero_page);
    ("E8", Implied inx);
    ("E9", Addressed sbc immediate);
    ("EA", Implied nop);
    ("EC", Addressed cpx absolute);
    ("ED", Addressed sbc absolute);
    ("EE", Addressed inc absolute);
    ("F0", Implied beq);
    ("F1", Addressed sbc indirect_y);
    ("F5", Addressed sbc zero_page_x);
    ("F6", Addressed inc zero_page_x);
    ("F8", Implied sed);
    ("F9", Addressed sbc absolute_y);
    ("FD", Addressed sbc absolute_x);
    ("FE", Addressed inc absolute_x) ].

(** [self.opcodes[key]], with [None] for [key not in self.opcodes]. *)
Fixpoint lookup_opcode (key : string) (table : list (string * instruction))
  : option instruction :=
  match table with
  | [] => None
  | (k, instr) :: rest =>
      if String.eqb k key then Some instr else lookup_opcode key rest
  end.

(** *** [step]

    [fetch_execute] is the part of [step] after the sleep: fetch the
    opcode, advance the program counter, look the instruction up and run
    it. *)
Definition fetch_execute : M t unit :=
  let* saved_pc := gets pc in
  let* opcode := read saved_pc in
  inc_pc ;;
  let key := format_X 2 opcode in
  match lookup_opcode key opcodes with
  | None =>
      modify (set_halted true) ;;
      raise (SimError ("Unrecognized opcode $" ++ key ++ " at $"
                         ++ format_X 4 saved_pc)%string)
  | Some (Implied operation) => operation
  | Some (Addressed operation resolver) =>
      let* address := resolver in
      operation address
  end.

(** The part of [step] from the sleep on. *)
Definition delayed_fetch_execute : M t unit :=
  let* self_delay := gets delay in
  sleep self_delay ;;
  fetch_execute.

Definition step : M t unit :=
  let* self_halted := gets halted in
  if self_halted then
    raise (SimError "Stepping attempted while CPU is halted.")
  else
  let* pending := gets (fun self => bus_interrupt (bus self)) in
  match pending with
  | Some tag =>
      (if String.eqb tag "RES" then reset
       else if String.eqb tag "HLT" then modify (set_halted true)
       else raise (SimError ("Unimplemented interrupt condition " ++ tag)%string)) ;;
      modify (fun self => set_bus (bus_set_interrupt None (bus self)) self)
  | None =>
      let* self_pc := gets pc in
      let* bps := gets breakpoints in
      let* self_last_break := gets last_break in
      let* stop :=
        (if bool_decide (self_pc ∈ bps) then
           match self_last_break with
           | Some p =>
               if negb (self_pc =? p)
               then modify (set_halted true) ;;
                    modify (set_last_break (Some self_pc)) ;;
                    ret true
               else modify (set_last_break None) ;; ret false
           | None =>
               modify (set_halted true) ;;
               modify (set_last_break (Some self_pc)) ;;
               ret true
           end
         else ret false) in
      if stop then ret tt else delayed_fetch_execute
  end.

End WithBus.

Arguments t B : clear implicits.
Arguments instruction B : clear implicits.

End CPU.

(** ** States the properties are stated on *)

(** The permission lists [SystemBus.__init__] leaves behind; nothing in the
    sources changes them afterwards. *)
Definition apple1_is_writeable : list bool :=
  SystemBus.clear_range 0x8000 0x10000 0
    (replicate (Z.to_nat Bus.mem_size) true).

Definition apple1_is_readable : list bool :=
  SystemBus.clear_range 0x8000 0xE000 0
    (replicate (Z.to_nat Bus.mem_size) true).

(** Direct stores into the memory list, as the simulator's deposit and the
    file loader do. *)
Definition poke (cells : list (Z * Z)) (self : Bus.t) : Bus.t :=
  Bus.set_mem
    (fold_left (fun m cell => <[Z.to_nat (fst cell) := snd cell]> m)
       cells (Bus.mem self))
    self.

(** A method leaves an observation [f] of the state alone, whatever it
    returns or raises. *)
Definition frame {S A X : Type} (f : S -> X) (m : M S A) : Prop :=
  forall st : S, f (snd (m st)) = f st.

(** The breakpoint list and the last-break cell of a CPU. *)
Definition break_state {B : Type} (self : CPU.t B) : list Z * option Z :=
  (CPU.breakpoints self, CPU.last_break self).

(** What [step] does with an entry of the opcode dictionary: a bare
    operation is called, an operation with a resolver is called on what
    the resolver returns. *)
Definition run_instruction {B : Type} (instr : CPU.instruction B)
  : M (CPU.t B) unit :=
  match instr with
  | CPU.Implied operation => operation
  | CPU.Addressed operation resolver =>
      let* address := resolver in
      operation address
  end.

(** The same for an entry of the opcode dictionary: its resolver and its
    operation both leave [f] alone. *)
Definition instruction_frame {B X : Type} (f : CPU.t B -> X)
    (instr : CPU.instruction B) : Prop :=
  match instr with
  | CPU.Implied operation => frame f operation
  | CPU.Addressed operation resolver =>
      frame f resolver /\ forall address, frame f (operation address)
  end.

(** *** Sample machines

    A 256-byte image for [$FF00] whose reset vector points at [$FF00], an
    Apple 1 bus built on it, and a running CPU on a bus. *)
Definition sample_rom : list Z := replicate 252 0 ++ [0x00; 0xFF; 0x00; 0x00].

Definition apple1 : SystemBus.t := SystemBus.init true sample_rom [].

Definition running {B : Type} (start : Z) (the_bus : B) : CPU.t B :=
  CPU.set_halted false (CPU.set_pc start (CPU.init the_bus)).

(** The seven flags of a CPU, in the order of the status byte. *)
Definition flags {B : Type} (self : CPU.t B) : Z * Z * Z * Z * Z * Z * Z :=
  (CPU.n self, CPU.v self, CPU.b self, CPU.d self, CPU.i self, CPU.z self,
   CPU.c self).

(** Bit [k] of a status byte as a flag value. *)
Definition bit_of (sr k : Z) : Z := Z.b2z (Z.testbit sr k).

(** A byte whose two nibbles are decimal digits. *)
Definition valid_bcd (byte : Z) : Prop :=
  0 <= byte / 16 <= 9 /\ 0 <= byte mod 16 <= 9.

(** Programs and data for the examples: a CPU about to execute [PLP] with
    [$10] on top of the stack, and two about to add in decimal mode,
    [$01] to [$09] and [$40] to [$40]. *)
Definition before_plp : CPU.t Bus.t :=
  CPU.set_s 0xFE
    (running 0x0200 (poke [(0x0200, 0x28); (0x01FF, 0x10)] (Bus.init true))).

Definition before_adc_09_01 : CPU.t Bus.t :=
  CPU.set_d 1
    (CPU.set_a 0x09
       (running 0x0200 (poke [(0x0200, 0x69); (0x0201, 0x01)] (Bus.init true)))).

Definition before_adc_40_40 : CPU.t Bus.t :=
  CPU.set_d 1
    (CPU.set_a 0x40
       (running 0x0200 (poke [(0x0200, 0x69); (0x0201, 0x40)] (Bus.init true)))).

(** A CPU about to execute [JMP ($10FF)], with [$34] at [$10FF], [$12] at
    [$1000] and [$56] at [$1100]; and one about to execute opcode [$21]
    with operand byte [$10] and X = 4, where the zero-page word at [$10]
    points to [$1234] (holding [$0F]) and the one at [$14] to [$5678]
    (holding [$F0]). *)
Definition before_jmp_10FF : CPU.t Bus.t :=
  running 0x0200
    (poke [(0x0200, 0x6C); (0x0201, 0xFF); (0x0202, 0x10);
           (0x10FF, 0x34); (0x1000, 0x12); (0x1100, 0x56)]
       (Bus.init true)).

Definition before_opcode_21 : CPU.t Bus.t :=
  CPU.set_x 0x04
    (CPU.set_a 0xFF
       (running 0x0200
          (poke [(0x0200, 0x21); (0x0201, 0x10); (0x0202, 0x00);
                 (0x0010, 0x34); (0x0011, 0x12);
                 (0x0014, 0x78); (0x0015, 0x56);
                 (0x1234, 0x0F); (0x5678, 0xF0)]
             (Bus.init true)))).

(** What [indirect] does once the pointer location is known: fetch the low
    byte there and the high byte at [msb_location]. *)
Definition fetch_pointer {B : Type} {bus_methods : BusLike B}
    (location msb_location : Z) : M (CPU.t B) (option Z) :=
  let* address_lsb := CPU.read location in
  let* address_msb := CPU.read msb_location in
  ret (Some (address_msb * 0x100 + address_lsb)).

(** The three lists of a bus have the 65536 entries [__init__] gives them. *)
Definition bus_well_formed (self : Bus.t) : Prop :=
  Z.of_nat (length (Bus.mem self)) = Bus.mem_size
  /\ Z.of_nat (length (Bus.is_writeable self)) = Bus.mem_size
  /\ Z.of_nat (length (Bus.is_readable self)) = Bus.mem_size.

(** The translation the keyboard control register applies to a host key
    code before it is latched (lower case to upper case, line feed to
    carriage return, delete to underscore). *)
Definition apple1_key_code (k : Z) : Z :=
  let k := if (97 <=? k) && (k <=? 122) then k - 32 else k in
  let k := if k =? 10 then 13 else k in
  if k =? 127 then 95 else k.

(** An Apple 1 bus with a terminal attached on which [keys] are waiting. *)
Definition with_keys (keys : list Z) (self : SystemBus.t) : SystemBus.t :=
  SystemBus.set_base
    (Bus.set_stdscr (Some (mkScreen keys [] 0)) (SystemBus.base self)) self.

(** What a write of [value] to the display register sends to the terminal:
    nothing for a control character other than carriage return, a line
    feed for carriage return, and otherwise the character with its top bit
    stripped and folded from [96..127] down to [64..95]. *)
Definition display_output (value : Z) : list Z :=
  let ch := Z.land value 0x7F in
  if ch =? 13 then [10]
  else if ch <? 32 then []
  else if ch <=? 95 then [ch]
  else [ch - 32].

(** A well-formed bus on which page one, where the stack lives, can be
    read and written. *)
Definition stack_usable (self : Bus.t) : Prop :=
  bus_well_formed self
  /\ forall address : Z,
      0x0100 <= address < 0x0200 ->
      Bus.index (Bus.is_writeable self) address = Some true
      /\ Bus.index (Bus.is_readable self) address = Some true.

(** The bus with [value & 0xFF] stored at [address], and the CPU after a
    push of [value] that went through. *)
Definition stored (address value : Z) (self : Bus.t) : Bus.t :=
  Bus.set_mem (<[Z.to_nat address := Z.land value 0xFF]> (Bus.mem self)) self.

Definition pushed (value : Z) (self : CPU.t Bus.t) : CPU.t Bus.t :=
  CPU.set_s (Z.land (CPU.s self - 1) 0xFF)
    (CPU.set_bus (stored (0x0100 + CPU.s self) value (CPU.bus self)) self).

(** A byte read as a two's complement number. *)
Definition signed_byte (byte : Z) : Z :=
  if byte <? 0x80 then byte else byte - 0x100.

(** A CPU in binary mode with A = [$7F] and the operand [$01] at [$0201]. *)
Definition before_binary_7F_01 : CPU.t Bus.t :=
  CPU.set_a 0x7F
    (running 0x0200 (poke [(0x0200, 0x69); (0x0201, 0x01)] (Bus.init true))).

(** A running CPU with a pending [RES] on a bus that raises memory errors
    and on which nothing can be read. *)
Definition before_reset_unreadable : CPU.t Bus.t :=
  running 0x0200
    (Bus.set_interrupt (Some "RES")
       (Bus.set_is_readable (replicate (Z.to_nat Bus.mem_size) false)
          (Bus.init true))).

(** A CPU about to execute [LDA $8000] on a bus that raises memory errors
    and on which [$8000] cannot be read. *)
Definition before_lda_8000 : CPU.t Bus.t :=
  running 0x0200
    (Bus.set_is_readable
       (<[Z.to_nat 0x8000 := false]> (Bus.is_readable (Bus.init true)))
       (poke [(0x0200, 0xAD); (0x0201, 0x00); (0x0202, 0x80)]
          (Bus.init true))).

(** *** Ranges

    The values the simulator means its registers, flags and memory cells
    to hold. *)
Definition is_byte (v : Z) : Prop := 0 <= v < 0x100.
Definition is_word (v : Z) : Prop := 0 <= v < 0x10000.
Definition is_bit (v : Z) : Prop := v = 0 \/ v = 1.

Definition registers_in_range {B : Type} (self : CPU.t B) : Prop :=
  is_byte (CPU.a self) /\ is_byte (CPU.x self) /\ is_byte (CPU.y self)
  /\ is_byte (CPU.s self) /\ is_word (CPU.pc self)
  /\ is_bit (CPU.c self) /\ is_bit (CPU.z self) /\ is_bit (CPU.i self)
  /\ is_bit (CPU.d self) /\ is_bit (CPU.b self) /\ is_bit (CPU.v self)
  /\ is_bit (CPU.n self).

(** A CPU on a plain bus with everything in range: registers and flags,
    the lengths of the lists of the bus, and bytes in every memory cell. *)
Definition machine_ok (self : CPU.t Bus.t) : Prop :=
  registers_in_range self
  /\ bus_well_formed (CPU.bus self)
  /\ Forall is_byte (Bus.mem (CPU.bus self)).

(** What a resolver hands to an operation: an address of sixteen bits. *)
Definition addressed (address : option Z) : Prop :=
  match address with
  | Some p => is_word p
  | None => False
  end.

(** The same, or [None] for the accumulator. *)
Definition address_ok (address : option Z) : Prop :=
  match address with
  | Some p => is_word p
  | None => True
  end.

Definition unit_ok (u : unit) : Prop := True.

(** The errors of the simulated system, which the simulator catches and
    reports at its prompt; the others are errors of the host. *)
Definition is_sim_error (e : exn) : Prop :=
  match e with
  | SimError _ => True
  | IndexError | TypeError | ValueError => False
  end.

(** The same, or the [ValueError] of a sleep. *)
Definition is_sim_or_value_error (e : exn) : Prop :=
  match e with
  | SimError _ | ValueError => True
  | IndexError | TypeError => False
  end.

(** A method keeps [P] true of the state whether it returns or raises;
    what it returns satisfies [Q], and what it raises satisfies [X]. *)
Definition keeps {S A : Type} (X : exn -> Prop) (P : S -> Prop)
    (Q : A -> Prop) (m : M S A) : Prop :=
  forall st : S,
    P st ->
    P (snd (m st))
    /\ match fst (m st) with
       | Ok v => Q v
       | Raise e => X e
       end.

Definition instruction_keeps (instr : CPU.instruction Bus.t) : Prop :=
  match instr with
  | CPU.Implied operation => keeps is_sim_error machine_ok unit_ok operation
  | CPU.Addressed operation resolver =>
      exists Q : option Z -> Prop,
        keeps is_sim_error machine_ok Q resolver
        /\ forall address,
            Q address ->
            keeps is_sim_error machine_ok unit_ok (operation address)
  end.

(** *** Memory as an operand sees it *)

(** A bus on which every address can be read. *)
Definition readable_everywhere (self : Bus.t) : Prop :=
  forall address : Z,
    0 <= address < 0x10000 ->
    Bus.index (Bus.is_readable self) address = Some true.

(** The byte in the memory cell at [address]. *)
Definition peek (self : CPU.t Bus.t) (address : Z) : Z :=
  default 0 (Bus.index (Bus.mem (CPU.bus self)) address).

(** The little-endian word whose two bytes sit in page zero at [zp] and at
    the next address of page zero. *)
Definition zero_page_word (self : CPU.t Bus.t) (zp : Z) : Z :=
  peek self zp + 0x100 * peek self ((zp + 1) mod 0x100).

(** * Properties *)

(** ** Masks *)

Lemma land_0xFFFF (v : Z) : Z.land v 0xFFFF = v mod 0x10000.
Proof. apply (Z.land_ones v 16). lia. Qed.

Lemma land_0xFF (v : Z) : Z.land v 0xFF = v mod 0x100.
Proof. apply (Z.land_ones v 8). lia. Qed.

Lemma land_0x0F (v : Z) : Z.land v 0x0F = v mod 16.
Proof. apply (Z.land_ones v 4). lia. Qed.

Lemma land_0xFFFF_range (v : Z) : 0 <= Z.land v 0xFFFF < 0x10000.
Proof. rewrite land_0xFFFF. apply Z.mod_pos_bound. lia. Qed.

Lemma land_0xFF_range (v : Z) : 0 <= Z.land v 0xFF < 0x100.
Proof. rewrite land_0xFF. apply Z.mod_pos_bound. lia. Qed.

Lemma land_0xFFFF_idem (v : Z) : Z.land (Z.land v 0xFFFF) 0xFFFF = Z.land v 0xFFFF.
Proof. rewrite <- Z.land_assoc. reflexivity. Qed.

Lemma land_0xFF_idem (v : Z) : Z.land (Z.land v 0xFF) 0xFF = Z.land v 0xFF.
Proof. rewrite <- Z.land_assoc. reflexivity. Qed.

Lemma land_0xFFFF_small (v : Z) : 0 <= v < 0x10000 -> Z.land v 0xFFFF = v.
Proof. intros Hv. rewrite land_0xFFFF. apply Z.mod_small. exact Hv. Qed.

Lemma land_0xFF_small (v : Z) : 0 <= v < 0x100 -> Z.land v 0xFF = v.
Proof. intros Hv. rewrite land_0xFF. apply Z.mod_small. exact Hv. Qed.

(** ** Hexadecimal formatting *)

Lemma hex_digits_last (fuel : nat) (v : Z) (acc : string) :
  0 <= v < 16 ->
  hex_digits (S fuel) v acc = String (hex_digit (v mod 16)) acc.
Proof.
  intros Hv. simpl. rewrite (Z.div_small v 16) by lia. reflexivity.
Qed.

Lemma hex_digits_more (fuel : nat) (v : Z) (acc : string) :
  16 <= v ->
  hex_digits (S fuel) v acc
  = hex_digits fuel (v / 16) (String (hex_digit (v mod 16)) acc).
Proof.
  intros Hv. simpl.
  assert (Hq : 1 <= v / 16) by (apply Z.div_le_lower_bound; lia).
  destruct (Z.eqb_spec (v / 16) 0) as [E|_]; [lia | reflexivity].
Qed.

(** Any two positive amounts of fuel that cover the digits of [v] give the
    same string. *)
Lemma hex_digits_fuel (f1 : nat) :
  forall (f2 : nat) (v : Z) (acc : string),
    0 <= v < 16 ^ Z.of_nat (S f1) -> 0 <= v < 16 ^ Z.of_nat (S f2) ->
    hex_digits (S f1) v acc = hex_digits (S f2) v acc.
Proof.
  induction f1 as [|f1 IH]; intros f2 v acc H1 H2.
  - change (16 ^ Z.of_nat 1) with 16 in H1.
    rewrite !hex_digits_last by lia. reflexivity.
  - destruct (Z_lt_le_dec v 16) as [Hs|Hl].
    + rewrite !hex_digits_last by lia. reflexivity.
    + destruct f2 as [|f2].
      * change (16 ^ Z.of_nat 1) with 16 in H2. lia.
      * rewrite (Nat2Z.inj_succ (S f1)), Z.pow_succ_r in H1 by lia.
        rewrite (Nat2Z.inj_succ (S f2)), Z.pow_succ_r in H2 by lia.
        rewrite (hex_digits_more (S f1) v), (hex_digits_more (S f2) v) by lia.
        apply IH; split;
          try (apply Z.div_pos; lia);
          apply Z.div_lt_upper_bound; lia.
Qed.

Lemma to_hex_fuel (v : Z) (f : nat) :
  0 <= v < 16 ^ Z.of_nat (S f) -> to_hex v = hex_digits (S f) v "".
Proof.
  intros Hv. unfold to_hex. apply hex_digits_fuel; [|exact Hv].
  split; [lia|].
  destruct (Z.eq_dec v 0) as [->|Hnz].
  - simpl. lia.
  - rewrite Nat2Z.inj_succ, Z2Nat.id by apply Z.log2_nonneg.
    assert (Hlog : v < 2 ^ Z.succ (Z.log2 v)) by (apply Z.log2_spec; lia).
    assert (Hpow : 2 ^ Z.succ (Z.log2 v) <= 16 ^ Z.succ (Z.log2 v)).
    { apply Z.pow_le_mono_l. lia. }
    lia.
Qed.

Lemma div_16_16 (v : Z) : v / 16 / 16 = v / 256.
Proof. rewrite Z.div_div by lia. reflexivity. Qed.

Lemma div_16_16_16 (v : Z) : v / 16 / 16 / 16 = v / 4096.
Proof. rewrite !Z.div_div by lia. reflexivity. Qed.

(** On a 16-bit quantity [:04X] prints exactly the four digits. *)
Lemma format_X_4 (v : Z) : 0 <= v < 0x10000 -> format_X 4 v = four_hex v.
Proof.
  intros Hv. unfold format_X, four_hex.
  destruct (Z.ltb_spec v 0) as [Hneg|_]; [lia|].
  rewrite (to_hex_fuel v 3) by (change (16 ^ Z.of_nat 4) with 0x10000; lia).
  destruct (Z_lt_le_dec v 16) as [H1|H1].
  { rewrite hex_digits_last by lia.
    rewrite (Z.div_small v 4096), (Z.div_small v 256), (Z.div_small v 16) by lia.
    reflexivity. }
  rewrite hex_digits_more by lia.
  assert (Hq1 : 1 <= v / 16 < 4096).
  { split; [apply Z.div_le_lower_bound | apply Z.div_lt_upper_bound]; lia. }
  destruct (Z_lt_le_dec v 256) as [H2|H2].
  { rewrite hex_digits_last
      by (split; [lia | apply Z.div_lt_upper_bound; lia]).
    rewrite (Z.div_small v 4096), (Z.div_small v 256) by lia.
    reflexivity. }
  rewrite hex_digits_more by (apply Z.div_le_lower_bound; lia).
  rewrite div_16_16.
  destruct (Z_lt_le_dec v 4096) as [H3|H3].
  { rewrite hex_digits_last
      by (split; [apply Z.div_pos; lia | apply Z.div_lt_upper_bound; lia]).
    rewrite (Z.div_small v 4096) by lia.
    reflexivity. }
  rewrite hex_digits_more by (apply Z.div_le_lower_bound; lia).
  replace (v / 256 / 16) with (v / 4096) by (rewrite Z.div_div by lia; reflexivity).
  rewrite hex_digits_last
    by (split; [apply Z.div_pos; lia | apply Z.div_lt_upper_bound; lia]).
  reflexivity.
Qed.

(** On a byte [:02X] prints exactly the two digits. *)
Lemma format_X_2 (v : Z) :
  0 <= v < 0x100 ->
  format_X 2 v = String (hex_digit (v / 16)) (String (hex_digit (v mod 16)) "").
Proof.
  intros Hv. unfold format_X.
  destruct (Z.ltb_spec v 0) as [Hneg|_]; [lia|].
  rewrite (to_hex_fuel v 1) by (change (16 ^ Z.of_nat 2) with 0x100; lia).
  destruct (Z_lt_le_dec v 16) as [H1|H1].
  { rewrite hex_digits_last by lia.
    rewrite (Z.div_small v 16) by lia. reflexivity. }
  rewrite hex_digits_more by lia.
  assert (Hq1 : 1 <= v / 16 < 16).
  { split; [apply Z.div_le_lower_bound | apply Z.div_lt_upper_bound]; lia. }
  rewrite hex_digits_last by lia.
  rewrite (Z.mod_small (v / 16) 16) by lia.
  reflexivity.
Qed.

(** ** The generic bus *)

Lemma bus_set_mem_same (self : Bus.t) : Bus.set_mem (Bus.mem self) self = self.
Proof. destruct self. reflexivity. Qed.

Lemma bus_read_masked (self : Bus.t) (address : Z) :
  Bus.read address self = Bus.read (Z.land address 0xFFFF) self.
Proof. unfold Bus.read. rewrite land_0xFFFF_idem. reflexivity. Qed.

Lemma bus_write_masked (self : Bus.t) (address value : Z) :
  Bus.write address value self
  = Bus.write (Z.land address 0xFFFF) (Z.land value 0xFF) self.
Proof.
  unfold Bus.write. rewrite land_0xFFFF_idem, land_0xFF_idem. reflexivity.
Qed.

Lemma bus_read_unreadable (self : Bus.t) (address : Z) :
  0 <= address < 0x10000 ->
  Bus.index (Bus.is_readable self) address = Some false ->
  Bus.read address self
  = if Bus.throw_memory_errors self
    then (Raise (SimError ("Attempt to read from unreadable address $"
                             ++ four_hex address)%string), self)
    else (Ok 0, self).
Proof.
  intros Ha Hperm.
  unfold Bus.read. rewrite (land_0xFFFF_small address Ha), Hperm.
  rewrite (format_X_4 address Ha). reflexivity.
Qed.

Lemma bus_write_unwriteable (self : Bus.t) (address value : Z) :
  0 <= address < 0x10000 ->
  Bus.index (Bus.is_writeable self) address = Some false ->
  Bus.write address value self
  = if Bus.throw_memory_errors self
    then (Raise (SimError ("Attempt to write value $"
                             ++ format_X 2 (Z.land value 0xFF)
                             ++ " to unwriteable address $"
                             ++ four_hex address)%string), self)
    else (Ok tt, self).
Proof.
  intros Ha Hperm.
  unfold Bus.write. rewrite (land_0xFFFF_small address Ha), Hperm.
  rewrite (format_X_4 address Ha). reflexivity.
Qed.

(** C6: [Bus.read] and [Bus.write] mask the address to 16 bits and the
    value to 8 bits before they look at the permissions: a call with
    [address] and [value] is the call with [address & 0xFFFF] and
    [value & 0xFF].  A write to a writeable cell that returns leaves
    [value & 0xFF] in that cell. *)
Theorem bus_masks_before_checks (self : Bus.t) (address value : Z) :
  Bus.read address self = Bus.read (Z.land address 0xFFFF) self
  /\ Bus.write address value self
     = Bus.write (Z.land address 0xFFFF) (Z.land value 0xFF) self
  /\ (Bus.index (Bus.is_writeable self) (Z.land address 0xFFFF) = Some true ->
      fst (Bus.write address value self) = Ok tt ->
      Bus.index (Bus.mem (snd (Bus.write address value self)))
        (Z.land address 0xFFFF)
      = Some (Z.land value 0xFF)).
Proof.
  split; [|split].
  - apply bus_read_masked.
  - apply bus_write_masked.
  - intros Hw. unfold Bus.write. rewrite Hw.
    destruct (Bus.index (Bus.mem self) (Z.land address 0xFFFF)) as [old|] eqn:Hm;
      [|discriminate].
    intros _. unfold Bus.index in *. simpl.
    apply list_lookup_insert_eq. apply (lookup_lt_Some _ _ _ Hm).
Qed.

Lemma bus_masks_before_checks_witness :
  Bus.index (Bus.mem (snd (Bus.write 0x12345 0x1FF (Bus.init true))))
    (Z.land 0x12345 0xFFFF)
  = Some (Z.land 0x1FF 0xFF).
Proof.
  apply (proj2 (proj2 (bus_masks_before_checks (Bus.init true) 0x12345 0x1FF))).
  - vm_compute. reflexivity.
  - vm_compute. reflexivity.
Defined.

(** C7: on a masked address that is not readable, [Bus.read] raises a
    [SimError] whose message ends in the four hexadecimal digits of the
    address when [throw_memory_errors] is on, and returns 0 when it is off;
    on one that is not writeable, [Bus.write] raises a [SimError] when the
    flag is on and returns without effect when it is off.  In all four
    cases the bus, its memory included, is left as it was. *)
Theorem bus_forbidden_access (self : Bus.t) (address value : Z) :
  0 <= address < 0x10000 ->
  (Bus.index (Bus.is_readable self) address = Some false ->
   Bus.read address self
   = if Bus.throw_memory_errors self
     then (Raise (SimError ("Attempt to read from unreadable address $"
                              ++ four_hex address)%string), self)
     else (Ok 0, self))
  /\ (Bus.index (Bus.is_writeable self) address = Some false ->
      Bus.write address value self
      = if Bus.throw_memory_errors self
        then (Raise (SimError ("Attempt to write value $"
                                 ++ format_X 2 (Z.land value 0xFF)
                                 ++ " to unwriteable address $"
                                 ++ four_hex address)%string), self)
        else (Ok tt, self)).
Proof.
  intros Ha. split; intros Hperm.
  - apply bus_read_unreadable; assumption.
  - apply bus_write_unwriteable; assumption.
Qed.

Lemma bus_forbidden_access_witness :
  Bus.read 0xD000 (SystemBus.base (SystemBus.init true [] []))
  = (Raise (SimError "Attempt to read from unreadable address $D000"),
     SystemBus.base (SystemBus.init true [] []))
  /\ Bus.write 0xD000 0x41 (SystemBus.base (SystemBus.init false [] []))
     = (Ok tt, SystemBus.base (SystemBus.init false [] [])).
Proof.
  split.
  - apply (proj1 (bus_forbidden_access
                    (SystemBus.base (SystemBus.init true [] [])) 0xD000 0
                    ltac:(lia))).
    vm_compute. reflexivity.
  - apply (proj2 (bus_forbidden_access
                    (SystemBus.base (SystemBus.init false [] [])) 0xD000 0x41
                    ltac:(lia))).
    vm_compute. reflexivity.
Defined.

(** ** The Apple 1 bus *)

Lemma systembus_set_base_same (self : SystemBus.t) :
  SystemBus.set_base (SystemBus.base self) self = self.
Proof. destruct self. reflexivity. Qed.

(** [__init__] leaves the permission lists of the definitions above,
    whatever the memory and the ROM images. *)
Lemma systembus_init_permissions (initial_mem : list Z) (throw : bool)
    (wozmon intbasic : list Z) :
  Bus.is_writeable (SystemBus.base (SystemBus.init_with initial_mem throw wozmon intbasic))
  = apple1_is_writeable
  /\ Bus.is_readable (SystemBus.base (SystemBus.init_with initial_mem throw wozmon intbasic))
     = apple1_is_readable.
Proof.
  unfold SystemBus.init_with, Bus.read_file, Bus.set_mem,
    Bus.set_is_readable, Bus.set_is_writeable, Bus.init_with,
    apple1_is_writeable, apple1_is_readable.
  cbn [SystemBus.base Bus.is_writeable Bus.is_readable].
  split; reflexivity.
Qed.

Lemma apple1_kbd_not_writeable :
  Bus.index apple1_is_writeable 0xD010 = Some false.
Proof. vm_compute. reflexivity. Qed.

(** C9: the write path of the Apple 1 bus handles [$D012], [$D011] and
    [$D013] itself and hands every other address to [Bus.write]; with the
    permissions of [__init__], a write to the keyboard data register
    [$D010] therefore raises the [SimError] of an unwriteable address when
    [throw_memory_errors] is on and returns without effect when it is off,
    and either way the bus (keyboard latch and memory included) is left as
    it was. *)
Theorem kbd_register_write_falls_through (self : SystemBus.t) (value : Z) :
  Bus.is_writeable (SystemBus.base self) = apple1_is_writeable ->
  (forall address : Z,
      Z.land address 0xFFFF <> 0xD012 ->
      Z.land address 0xFFFF <> 0xD011 ->
      Z.land address 0xFFFF <> 0xD013 ->
      SystemBus.write address value self
      = SystemBus.super (Bus.write address value) self)
  /\ SystemBus.write 0xD010 value self
     = if Bus.throw_memory_errors (SystemBus.base self)
       then (Raise (SimError ("Attempt to write value $"
                                ++ format_X 2 (Z.land value 0xFF)
                                ++ " to unwriteable address $D010")%string),
             self)
       else (Ok tt, self).
Proof.
  intros Hperm.
  assert (Hother : forall address : Z,
             Z.land address 0xFFFF <> 0xD012 ->
             Z.land address 0xFFFF <> 0xD011 ->
             Z.land address 0xFFFF <> 0xD013 ->
             SystemBus.write address value self
             = SystemBus.super (Bus.write address value) self).
  { intros address H2 H1 H3. unfold SystemBus.write.
    destruct (Z.eqb_spec (Z.land address 0xFFFF) 0xD012) as [E|_]; [contradiction|].
    destruct (Z.eqb_spec (Z.land address 0xFFFF) 0xD011) as [E|_]; [contradiction|].
    destruct (Z.eqb_spec (Z.land address 0xFFFF) 0xD013) as [E|_]; [contradiction|].
    simpl orb. cbv iota.
    unfold SystemBus.super.
    rewrite (bus_write_masked (SystemBus.base self) address value).
    reflexivity. }
  split; [exact Hother|].
  rewrite Hother by (change (Z.land 0xD010 0xFFFF) with 0xD010; lia).
  unfold SystemBus.super.
  rewrite (bus_write_unwriteable (SystemBus.base self) 0xD010 value)
    by (first [lia | rewrite Hperm; exact apple1_kbd_not_writeable]).
  destruct (Bus.throw_memory_errors (SystemBus.base self));
    rewrite systembus_set_base_same; reflexivity.
Qed.

Lemma kbd_register_write_falls_through_witness :
  SystemBus.write 0xD010 0x41 (SystemBus.init true [] [])
  = (Raise (SimError "Attempt to write value $41 to unwriteable address $D010"),
     SystemBus.init true [] []).
Proof.
  apply (proj2 (kbd_register_write_falls_through
                  (SystemBus.init true [] []) 0x41
                  (proj1 (systembus_init_permissions _ true [] [])))).
Defined.

(** ** Framing *)

Lemma frame_ret {S A X} (f : S -> X) (v : A) : frame f (ret v).
Proof. intros st. reflexivity. Qed.

Lemma frame_raise {S A X} (f : S -> X) (e : exn) : frame f (@raise S A e).
Proof. intros st. reflexivity. Qed.

Lemma frame_gets {S A X} (f : S -> X) (g : S -> A) : frame f (gets g).
Proof. intros st. reflexivity. Qed.

Lemma frame_modify {S X} (f : S -> X) (g : S -> S) :
  (forall st, f (g st) = f st) -> frame f (modify g).
Proof. intros Hg st. apply Hg. Qed.

Lemma frame_bind {S A C X} (f : S -> X) (m : M S A) (k : A -> M S C) :
  frame f m -> (forall v, frame f (k v)) -> frame f (bind m k).
Proof.
  intros Hm Hk st. unfold bind.
  specialize (Hm st). destruct (m st) as [[v|e] st']; simpl in *.
  - rewrite Hk. exact Hm.
  - exact Hm.
Qed.

(** ** [CPU.step]: halting, interrupts and breakpoints *)

Section StepProperties.

Context {B : Type} {bus_methods : BusLike B}.

Lemma cpu_set_bus_same (self : CPU.t B) : CPU.set_bus (CPU.bus self) self = self.
Proof. destruct self. reflexivity. Qed.

Lemma cpu_read_result (self : CPU.t B) (address : Z) :
  snd (CPU.read address self)
  = CPU.set_bus (snd (bus_read address (CPU.bus self))) self
  /\ fst (CPU.read address self) = fst (bus_read address (CPU.bus self)).
Proof.
  unfold CPU.read. destruct (bus_read address (CPU.bus self)). split; reflexivity.
Qed.

Lemma step_halted (self : CPU.t B) :
  CPU.halted self = true ->
  CPU.step self
  = (Raise (SimError "Stepping attempted while CPU is halted."), self).
Proof. intros Hh. unfold CPU.step, bind, gets. rewrite Hh. reflexivity. Qed.

Lemma step_interrupt (self : CPU.t B) (tag : string) :
  CPU.halted self = false ->
  bus_interrupt (CPU.bus self) = Some tag ->
  CPU.step self
  = ((if String.eqb tag "RES" then CPU.reset
      else if String.eqb tag "HLT" then modify (CPU.set_halted true)
      else raise (SimError ("Unimplemented interrupt condition " ++ tag)%string)) ;;
     modify (fun st => CPU.set_bus (bus_set_interrupt None (CPU.bus st)) st))
      self.
Proof.
  intros Hh Hi. unfold CPU.step. unfold bind at 1 2, gets.
  rewrite Hh, Hi. reflexivity.
Qed.

Lemma step_trap (self : CPU.t B) :
  CPU.halted self = false ->
  bus_interrupt (CPU.bus self) = None ->
  CPU.pc self ∈ CPU.breakpoints self ->
  CPU.last_break self <> Some (CPU.pc self) ->
  CPU.step self
  = (Ok tt, CPU.set_last_break (Some (CPU.pc self)) (CPU.set_halted true self)).
Proof.
  intros Hh Hi Hin Hlb. unfold CPU.step, bind, gets, modify, ret.
  rewrite Hh, Hi. rewrite bool_decide_eq_true_2 by exact Hin.
  destruct (CPU.last_break self) as [p|]; [|reflexivity].
  destruct (Z.eqb_spec (CPU.pc self) p) as [E|_]; [|reflexivity].
  subst p. contradiction.
Qed.

Lemma step_resume (self : CPU.t B) :
  CPU.halted self = false ->
  bus_interrupt (CPU.bus self) = None ->
  CPU.pc self ∈ CPU.breakpoints self ->
  CPU.last_break self = Some (CPU.pc self) ->
  CPU.step self = CPU.delayed_fetch_execute (CPU.set_last_break None self).
Proof.
  intros Hh Hi Hin Hlb. unfold CPU.step. unfold bind at 1 2 3 4 5 6, gets.
  rewrite Hh, Hi. rewrite bool_decide_eq_true_2 by exact Hin.
  rewrite Hlb, Z.eqb_refl. reflexivity.
Qed.

Lemma delayed_fetch_execute_nonneg (self : CPU.t B) :
  0 <= CPU.delay self ->
  CPU.delayed_fetch_execute self = CPU.fetch_execute self.
Proof.
  intros Hd. unfold CPU.delayed_fetch_execute, sleep, bind, gets.
  destruct (Z.ltb_spec (CPU.delay self) 0) as [Hneg|_]; [lia|reflexivity].
Qed.

Lemma delayed_fetch_execute_negative (self : CPU.t B) :
  CPU.delay self < 0 ->
  CPU.delayed_fetch_execute self = (Raise ValueError, self).
Proof.
  intros Hd. unfold CPU.delayed_fetch_execute, sleep, bind, gets.
  destruct (Z.ltb_spec (CPU.delay self) 0) as [_|Hpos]; [reflexivity|lia].
Qed.

Lemma step_no_breakpoint (self : CPU.t B) :
  CPU.halted self = false ->
  bus_interrupt (CPU.bus self) = None ->
  CPU.pc self ∉ CPU.breakpoints self ->
  CPU.step self = CPU.delayed_fetch_execute self.
Proof.
  intros Hh Hi Hin. unfold CPU.step. unfold bind at 1 2 3 4 5 6, gets.
  rewrite Hh, Hi. rewrite bool_decide_eq_false_2 by exact Hin.
  reflexivity.
Qed.

End StepProperties.

(** ** What the instructions leave alone *)

Create HintDb cpu_methods.

#[global] Hint Unfold
  CPU.read_at CPU.write_at CPU.set_status_register CPU.sei
  CPU.sei_and_set_pc CPU.reset CPU.inc_pc
  CPU.absolute_address CPU.absolute CPU.absolute_x CPU.absolute_y
  CPU.accumulator CPU.immediate CPU.indirect CPU.zero_page_address
  CPU.zero_page CPU.zero_page_x_address CPU.zero_page_x CPU.zero_page_y
  CPU.indirect_x CPU.indirect_y
  CPU.set_nz CPU.branch CPU.compare CPU.shift_left CPU.shift_right
  CPU.pull CPU.push CPU.shift_operand
  CPU.adc CPU.aNd CPU.asl CPU.bcc CPU.bcs CPU.beq CPU.bit CPU.bmi CPU.bne
  CPU.bpl CPU.php CPU.interrupt CPU.brk CPU.bvc CPU.bvs CPU.clc CPU.cld
  CPU.cli CPU.clv CPU.cmp CPU.cpx CPU.cpy CPU.dec CPU.dex CPU.dey CPU.eor
  CPU.inc CPU.inx CPU.iny CPU.jmp CPU.jsr CPU.lda CPU.ldx CPU.ldy CPU.lsr
  CPU.nop CPU.ora CPU.pha CPU.pla CPU.plp CPU.rol CPU.ror CPU.rti CPU.rts
  CPU.sbc CPU.sec CPU.sed CPU.sta CPU.stx CPU.sty CPU.tax CPU.tay CPU.tsx
  CPU.txa CPU.txs CPU.tya : cpu_methods.

Lemma frame_cpu_read {B X} {bus_methods : BusLike B}
    (f : CPU.t B -> X) (address : Z) :
  (forall bus' st, f (CPU.set_bus bus' st) = f st) ->
  frame f (CPU.read address).
Proof.
  intros Hf st. unfold CPU.read.
  destruct (bus_read address (CPU.bus st)) as [r bus']. apply Hf.
Qed.

Lemma frame_cpu_write {B X} {bus_methods : BusLike B}
    (f : CPU.t B -> X) (address value : Z) :
  (forall bus' st, f (CPU.set_bus bus' st) = f st) ->
  frame f (CPU.write address value).
Proof.
  intros Hf st. unfold CPU.write.
  destruct (bus_write address value (CPU.bus st)) as [r bus']. apply Hf.
Qed.

(** One step of a frame proof, for an observation that no setter met on
    the way touches. *)
Ltac frame_step :=
  lazymatch goal with
  | |- frame _ (bind _ _) => apply frame_bind; [|intros ?]
  | |- frame _ (ret _) => apply frame_ret
  | |- frame _ (raise _) => apply frame_raise
  | |- frame _ (gets _) => apply frame_gets
  | |- frame _ (modify _) => apply frame_modify; intros []; reflexivity
  | |- frame _ (CPU.read _) => apply frame_cpu_read; intros ? []; reflexivity
  | |- frame _ (CPU.write _ _) => apply frame_cpu_write; intros ? []; reflexivity
  | |- frame _ (if ?c then _ else _) => destruct c
  | |- frame _ (match ?o with _ => _ end) => destruct o
  end.

Ltac frame_auto := repeat (autounfold with cpu_methods; frame_step).

Ltac frame_table :=
  unfold CPU.opcodes;
  repeat (apply List.Forall_cons;
          [cbn [snd instruction_frame]; try split; intros; frame_auto|]);
  apply List.Forall_nil.

Lemma lookup_opcode_Forall {B} (P : CPU.instruction B -> Prop) (key : string)
    (table : list (string * CPU.instruction B)) (instr : CPU.instruction B) :
  Forall (fun entry => P (snd entry)) table ->
  CPU.lookup_opcode key table = Some instr ->
  P instr.
Proof.
  induction 1 as [|[k i0] rest Hhd _ IH]; simpl; [discriminate|].
  destruct (String.eqb k key); [|exact IH].
  intros E. injection E as <-. exact Hhd.
Qed.

Section FrameProperties.

Context {B : Type} {bus_methods : BusLike B}.

Lemma opcodes_frame_break_state :
  Forall (fun entry => instruction_frame (@break_state B) (snd entry))
    CPU.opcodes.
Proof. frame_table. Qed.

Lemma fetch_execute_frame_break_state :
  frame (@break_state B) CPU.fetch_execute.
Proof.
  unfold CPU.fetch_execute.
  apply frame_bind; [frame_auto|intros saved_pc].
  apply frame_bind; [frame_auto|intros opcode].
  apply frame_bind; [frame_auto|intros _].
  destruct (CPU.lookup_opcode (format_X 2 opcode) CPU.opcodes)
    as [instr|] eqn:Hlook; [|frame_auto].
  pose proof (lookup_opcode_Forall _ _ _ _ opcodes_frame_break_state Hlook)
    as Hinstr.
  destruct instr as [operation|operation resolver]; simpl in Hinstr.
  - exact Hinstr.
  - destruct Hinstr as [Hres Hop]. apply frame_bind; [exact Hres|exact Hop].
Qed.

End FrameProperties.

(** ** Reading through the Apple 1 bus *)

Lemma systembus_read_plain (self : SystemBus.t) (address value : Z) :
  0 <= address < 0x10000 ->
  address <> 0xD010 -> address <> 0xD011 -> address <> 0xD012 ->
  Bus.index (Bus.is_readable (SystemBus.base self)) address = Some true ->
  Bus.index (Bus.mem (SystemBus.base self)) address = Some value ->
  SystemBus.read address self = (Ok value, self).
Proof.
  intros Ha H0 H1 H2 Hperm Hmem. unfold SystemBus.read.
  rewrite (land_0xFFFF_small address Ha).
  destruct (Z.eqb_spec address 0xD010) as [E|_]; [contradiction|].
  destruct (Z.eqb_spec address 0xD011) as [E|_]; [contradiction|].
  destruct (Z.eqb_spec address 0xD012) as [E|_]; [contradiction|].
  unfold SystemBus.super, Bus.read.
  rewrite (land_0xFFFF_small address Ha), Hperm, Hmem.
  rewrite systembus_set_base_same. reflexivity.
Qed.

Lemma apple1_reset_vector_readable :
  Bus.index apple1_is_readable 0xFFFC = Some true
  /\ Bus.index apple1_is_readable 0xFFFD = Some true.
Proof. split; vm_compute; reflexivity. Qed.

(** ** The claims about [step] *)

Lemma bus_read_leaves_the_bus (self : Bus.t) (address : Z) :
  snd (Bus.read address self) = self.
Proof.
  unfold Bus.read.
  destruct (Bus.index (Bus.is_readable self) (Z.land address 0xFFFF)) as [[|]|];
    [destruct (Bus.index (Bus.mem self) (Z.land address 0xFFFF))
    |destruct (Bus.throw_memory_errors self)|]; reflexivity.
Qed.

Lemma systembus_read_leaves_the_bus (self : SystemBus.t) (address : Z) :
  Z.land address 0xFFFF <> 0xD010 ->
  Z.land address 0xFFFF <> 0xD011 ->
  snd (SystemBus.read address self) = self.
Proof.
  intros H0 H1. unfold SystemBus.read.
  destruct (Z.eqb_spec (Z.land address 0xFFFF) 0xD010) as [E|_];
    [contradiction|].
  destruct (Z.eqb_spec (Z.land address 0xFFFF) 0xD011) as [E|_];
    [contradiction|].
  destruct (Z.land address 0xFFFF =? 0xD012); [reflexivity|].
  unfold SystemBus.super.
  pose proof (bus_read_leaves_the_bus (SystemBus.base self)
                (Z.land address 0xFFFF)) as Hb.
  destruct (Bus.read (Z.land address 0xFFFF) (SystemBus.base self)) as [r b].
  cbn [snd] in *. subst b. destruct self; reflexivity.
Qed.

(** What [step] does with a pending [RES], read by read. *)
Lemma step_reset {B} {bus_methods : BusLike B} (self : CPU.t B) :
  CPU.halted self = false ->
  bus_interrupt (CPU.bus self) = Some "RES" ->
  CPU.step self
  = match bus_read 0xFFFC (CPU.bus self) with
    | (Raise e, b1) => (Raise e, CPU.set_bus b1 (CPU.set_i 1 self))
    | (Ok lsb, b1) =>
        match bus_read 0xFFFD b1 with
        | (Raise e, b2) => (Raise e, CPU.set_bus b2 (CPU.set_i 1 self))
        | (Ok msb, b2) =>
            (Ok tt,
             CPU.set_bus (bus_set_interrupt None b2)
               (CPU.set_pc (lsb + msb * 0x100) (CPU.set_i 1 self)))
        end
    end.
Proof.
  intros Hh Hi. rewrite (step_interrupt self "RES" Hh Hi).
  change (String.eqb "RES" "RES") with true. cbv iota.
  unfold CPU.reset, CPU.sei_and_set_pc, CPU.sei, CPU.reset_vector.
  change (Z.land (0xFFFC + 1) 0xFFFF) with 0xFFFD.
  unfold bind, modify, CPU.read. cbn [CPU.bus CPU.set_i].
  destruct (bus_read 0xFFFC (CPU.bus self)) as [[lsb|e] b1];
    [|destruct self; reflexivity].
  cbn [CPU.bus CPU.set_bus].
  destruct (bus_read 0xFFFD b1) as [[msb|e] b2]; destruct self; reflexivity.
Qed.

(** C5: with a pending [RES] or [HLT] a running CPU, on whatever bus,
    serves the interrupt before any opcode is fetched and executes no
    instruction.  [HLT] sets [halted] and empties the slot.  [RES] sets I
    and reads [$FFFC] and then [$FFFD] through the bus: when both reads
    return, the program counter is loaded from the little-endian word
    they give and the slot is emptied; when one of them raises, [step]
    raises the same with I set, the program counter where it was and the
    slot not emptied.  The state after the call is the state before it
    with exactly these changes and with the bus as the reads left it, so
    A, X, Y and S are the same; reads of the plain bus, and reads of the
    Apple 1 bus at these two addresses, leave the bus and so the memory
    as it was. *)
Theorem pending_interrupt_is_served_first {B} {bus_methods : BusLike B}
    (self : CPU.t B) :
  CPU.halted self = false ->
  (bus_interrupt (CPU.bus self) = Some "HLT" ->
   CPU.step self
   = (Ok tt,
      CPU.set_bus (bus_set_interrupt None (CPU.bus self))
        (CPU.set_halted true self)))
  /\ (bus_interrupt (CPU.bus self) = Some "RES" ->
      forall (first : result Z) (b1 : B),
        bus_read 0xFFFC (CPU.bus self) = (first, b1) ->
        match first with
        | Raise e =>
            CPU.step self = (Raise e, CPU.set_bus b1 (CPU.set_i 1 self))
        | Ok lsb =>
            forall (second : result Z) (b2 : B),
              bus_read 0xFFFD b1 = (second, b2) ->
              match second with
              | Raise e =>
                  CPU.step self
                  = (Raise e, CPU.set_bus b2 (CPU.set_i 1 self))
              | Ok msb =>
                  CPU.step self
                  = (Ok tt,
                     CPU.set_bus (bus_set_interrupt None b2)
                       (CPU.set_pc (lsb + msb * 0x100) (CPU.set_i 1 self)))
              end
        end)
  /\ (forall (plain : Bus.t) (address : Z),
        snd (Bus.read address plain) = plain)
  /\ (forall apple : SystemBus.t,
        snd (SystemBus.read 0xFFFC apple) = apple
        /\ snd (SystemBus.read 0xFFFD apple) = apple).
Proof.
  intros Hh. split; [|split; [|split]].
  - intros Hi. rewrite (step_interrupt self "HLT" Hh Hi).
    change (String.eqb "HLT" "RES") with false.
    change (String.eqb "HLT" "HLT") with true.
    reflexivity.
  - intros Hi first b1 Hfirst. rewrite (step_reset self Hh Hi), Hfirst.
    destruct first as [lsb|e]; [|reflexivity].
    intros second b2 Hsecond. rewrite Hsecond.
    destruct second as [msb|e]; reflexivity.
  - intros plain address. apply bus_read_leaves_the_bus.
  - intros apple.
    split; apply systembus_read_leaves_the_bus; vm_compute; discriminate.
Qed.

(** C5 as stated fails where the reset vector cannot be read: on a bus
    that raises memory errors, [step] raises and the slot still holds
    [RES]. *)
Lemma reset_with_unreadable_vector_counterexample :
  ~ (forall self : CPU.t Bus.t,
        CPU.halted self = false ->
        Bus.interrupt (CPU.bus self) = Some "RES" ->
        Bus.interrupt (CPU.bus (snd (CPU.step self))) = None).
Proof.
  intros Hclaim.
  specialize (Hclaim before_reset_unreadable eq_refl eq_refl).
  vm_compute in Hclaim. discriminate Hclaim.
Qed.

Lemma apple1_permissions :
  Bus.is_writeable (SystemBus.base apple1) = apple1_is_writeable
  /\ Bus.is_readable (SystemBus.base apple1) = apple1_is_readable.
Proof. unfold apple1, SystemBus.init. apply systembus_init_permissions. Qed.

Lemma running_bus {B} (start : Z) (the_bus : B) :
  CPU.bus (running start the_bus) = the_bus.
Proof. reflexivity. Qed.

Lemma systembus_set_interrupt_permissions (tag : option string)
    (self : SystemBus.t) :
  Bus.is_writeable (SystemBus.base (SystemBus.set_interrupt tag self))
  = Bus.is_writeable (SystemBus.base self)
  /\ Bus.is_readable (SystemBus.base (SystemBus.set_interrupt tag self))
     = Bus.is_readable (SystemBus.base self).
Proof. split; reflexivity. Qed.

Section StepClaims.

Context {B : Type} {bus_methods : BusLike B}.

(** C10: with any tag other than [RES] and [HLT] in the interrupt slot, a
    running CPU raises the [SimError] of an unimplemented interrupt
    before the slot is emptied.  The whole state (slot, [halted],
    registers, bus) is as before the call, so however often [step] is
    called again it fails in the same way. *)
Theorem unknown_interrupt_fails_and_stays (self : CPU.t B) (tag : string) :
  CPU.halted self = false ->
  bus_interrupt (CPU.bus self) = Some tag ->
  tag <> "RES" -> tag <> "HLT" ->
  CPU.step self
  = (Raise (SimError ("Unimplemented interrupt condition " ++ tag)%string), self)
  /\ forall calls : nat,
      Nat.iter calls (fun st => snd (CPU.step st)) self = self
      /\ CPU.step (Nat.iter calls (fun st => snd (CPU.step st)) self)
         = (Raise (SimError ("Unimplemented interrupt condition " ++ tag)%string),
            self).
Proof.
  intros Hh Hi Hres Hhlt.
  assert (Hstep : CPU.step self
                  = (Raise (SimError ("Unimplemented interrupt condition "
                                        ++ tag)%string), self)).
  { rewrite (step_interrupt self tag Hh Hi).
    destruct (String.eqb_spec tag "RES") as [E|_]; [contradiction|].
    destruct (String.eqb_spec tag "HLT") as [E|_]; [contradiction|].
    reflexivity. }
  split; [exact Hstep|].
  assert (Hiter : forall calls,
             Nat.iter calls (fun st => snd (CPU.step st)) self = self).
  { induction calls as [|calls IH]; [reflexivity|].
    simpl. rewrite IH, Hstep. reflexivity. }
  intros calls. rewrite Hiter. split; [reflexivity|exact Hstep].
Qed.

Lemma fetch_execute_runs (self : CPU.t B) (opcode : Z) :
  fst (CPU.read (CPU.pc self) self) = Ok opcode ->
  let fetched := CPU.set_pc (Z.land (CPU.pc self + 1) 0xFFFF)
                   (snd (CPU.read (CPU.pc self) self)) in
  CPU.fetch_execute self
  = match CPU.lookup_opcode (format_X 2 opcode) CPU.opcodes with
    | Some instr => run_instruction instr fetched
    | None =>
        (Raise (SimError ("Unrecognized opcode $" ++ format_X 2 opcode
                            ++ " at $" ++ format_X 4 (CPU.pc self))%string),
         CPU.set_halted true fetched)
    end.
Proof.
  intros Hread fetched. subst fetched.
  unfold CPU.fetch_execute. unfold bind at 1. unfold gets at 1.
  unfold bind at 1.
  destruct (cpu_read_result self (CPU.pc self)) as [Hst _].
  destruct (CPU.read (CPU.pc self) self) as [[q|e] after_read];
    cbn [fst snd] in *; [|discriminate].
  injection Hread as ->.
  unfold bind at 1. unfold CPU.inc_pc at 1.
  unfold bind at 1, gets at 1, modify at 1.
  assert (Epc : CPU.pc after_read = CPU.pc self)
    by (rewrite Hst; destruct self; reflexivity).
  rewrite Epc.
  destruct (CPU.lookup_opcode (format_X 2 opcode) CPU.opcodes) as [[op|op res]|];
    reflexivity.
Qed.

Lemma fetch_execute_read_raises (self : CPU.t B) (e : exn) :
  fst (CPU.read (CPU.pc self) self) = Raise e ->
  CPU.fetch_execute self = (Raise e, snd (CPU.read (CPU.pc self) self)).
Proof.
  intros Hread.
  unfold CPU.fetch_execute. unfold bind at 1. unfold gets at 1.
  unfold bind at 1.
  destruct (CPU.read (CPU.pc self) self) as [[q|e'] after_read];
    cbn [fst snd] in *; [discriminate|].
  injection Hread as ->. reflexivity.
Qed.

Lemma delayed_fetch_execute_frame_break_state :
  frame (@break_state B) CPU.delayed_fetch_execute.
Proof.
  intros st.
  destruct (Z.lt_ge_cases (CPU.delay st) 0) as [Hneg|Hpos].
  - rewrite (delayed_fetch_execute_negative st Hneg). reflexivity.
  - rewrite (delayed_fetch_execute_nonneg st Hpos).
    apply fetch_execute_frame_break_state.
Qed.


End StepClaims.

Lemma unknown_interrupt_fails_and_stays_witness :
  CPU.step (running 0x0200 (Bus.set_interrupt (Some "IRQ") (Bus.init true)))
  = (Raise (SimError "Unimplemented interrupt condition IRQ"),
     running 0x0200 (Bus.set_interrupt (Some "IRQ") (Bus.init true))).
Proof.
  refine (proj1 (unknown_interrupt_fails_and_stays
                   (running 0x0200 (Bus.set_interrupt (Some "IRQ") (Bus.init true)))
                   "IRQ" eq_refl eq_refl _ _)); discriminate.
Defined.

Lemma lookup_opcode_nop :
  @CPU.lookup_opcode Bus.t (format_X 2 0xEA) CPU.opcodes
  = Some (CPU.Implied CPU.nop).
Proof. reflexivity. Qed.


(** ** The status byte *)

Lemma land_pow2 (sr k : Z) :
  0 <= k -> Z.land sr (2 ^ k) = if Z.testbit sr k then 2 ^ k else 0.
Proof.
  intros Hk. apply Z.bits_inj'. intros j Hj.
  rewrite Z.land_spec, Z.pow2_bits_eqb by exact Hk.
  destruct (Z.eqb_spec k j) as [<-|Hne].
  - destruct (Z.testbit sr k); simpl.
    + rewrite Z.pow2_bits_eqb, Z.eqb_refl by exact Hk. reflexivity.
    + rewrite Z.bits_0. reflexivity.
  - rewrite andb_false_r.
    destruct (Z.testbit sr k).
    + rewrite Z.pow2_bits_eqb by exact Hk.
      symmetry. apply Z.eqb_neq. exact Hne.
    + rewrite Z.bits_0. reflexivity.
Qed.

Lemma flag_of_mask (sr k : Z) :
  0 <= k -> int (truthy (Z.land sr (2 ^ k))) = bit_of sr k.
Proof.
  intros Hk. rewrite (land_pow2 sr k Hk). unfold bit_of, truthy.
  destruct (Z.testbit sr k); simpl.
  - assert (Hpos : 0 < 2 ^ k) by (apply Z.pow_pos_nonneg; lia).
    destruct (Z.eqb_spec (2 ^ k) 0) as [E|_]; [lia|reflexivity].
  - reflexivity.
Qed.

Section StatusRegister.

Context {B : Type} {bus_methods : BusLike B}.

Lemma set_status_register_flags (sr : Z) (self : CPU.t B) :
  fst (CPU.set_status_register sr self) = Ok tt
  /\ flags (snd (CPU.set_status_register sr self))
     = (bit_of sr 7, bit_of sr 6, bit_of sr 4, bit_of sr 3, bit_of sr 2,
        bit_of sr 1, bit_of sr 0).
Proof.
  split; [reflexivity|].
  unfold CPU.set_status_register, bind, modify, flags. cbn [snd fst].
  rewrite <- (flag_of_mask sr 7), <- (flag_of_mask sr 6),
    <- (flag_of_mask sr 4), <- (flag_of_mask sr 3), <- (flag_of_mask sr 2),
    <- (flag_of_mask sr 1), <- (flag_of_mask sr 0) by lia.
  destruct self. reflexivity.
Qed.

Lemma set_status_register_ignores_bit_5 (sr : Z) (self : CPU.t B) :
  CPU.set_status_register (Z.lxor sr 0x20) self
  = CPU.set_status_register sr self.
Proof.
  assert (Hmask : forall k, 0 <= k -> k <> 5 ->
              Z.land (Z.lxor sr (2 ^ 5)) (2 ^ k) = Z.land sr (2 ^ k)).
  { intros k Hk Hne. rewrite !land_pow2 by exact Hk.
    rewrite Z.lxor_spec, Z.pow2_bits_eqb by lia.
    destruct (Z.eqb_spec 5 k) as [E|_]; [lia|].
    rewrite xorb_false_r. reflexivity. }
  unfold CPU.set_status_register.
  change 0x20 with (2 ^ 5). change 0x80 with (2 ^ 7).
  change 0x40 with (2 ^ 6). change 0x10 with (2 ^ 4).
  change 0x08 with (2 ^ 3). change 0x04 with (2 ^ 2).
  change 0x02 with (2 ^ 1). change 0x01 with (2 ^ 0).
  rewrite !Hmask by lia. reflexivity.
Qed.

End StatusRegister.

(** ** [PLP] and [RTI] *)

Section PullStatus.

Context {B : Type} {bus_methods : BusLike B}.

Lemma rti_after_plp_frame_flags :
  frame (@flags B)
    (let* lsb := CPU.pull in
     let* msb := CPU.pull in
     modify (CPU.set_pc (msb * 0x100 + lsb))).
Proof. frame_auto. Qed.

(** C1, as the code has it: when [pull] delivers the byte [p], [PLP]
    sets N, V, D, I, Z and C to bits 7, 6, 3, 2, 1 and 0 of [p] and sets
    B to bit 4 of [p] (B is not left as it was); bit 5 of [p] plays no
    part; everything else is as [pull] left it.  [RTI] starts with
    [PLP], and the two pulls and the jump that follow leave the flags as
    [PLP] set them. *)
Theorem plp_takes_every_flag_from_the_byte (self : CPU.t B) (p : Z) :
  fst (CPU.pull self) = Ok p ->
  CPU.plp self = CPU.set_status_register p (snd (CPU.pull self))
  /\ fst (CPU.plp self) = Ok tt
  /\ flags (snd (CPU.plp self))
     = (bit_of p 7, bit_of p 6, bit_of p 4, bit_of p 3, bit_of p 2,
        bit_of p 1, bit_of p 0)
  /\ CPU.set_status_register (Z.lxor p 0x20) (snd (CPU.pull self))
     = CPU.set_status_register p (snd (CPU.pull self))
  /\ flags (snd (CPU.rti self)) = flags (snd (CPU.plp self)).
Proof.
  intros Hpull.
  assert (Hplp : CPU.plp self
                 = CPU.set_status_register p (snd (CPU.pull self))).
  { unfold CPU.plp. unfold bind at 1.
    destruct (CPU.pull self) as [[q|e] pulled]; simpl in Hpull;
      [|discriminate].
    injection Hpull as ->. reflexivity. }
  split; [exact Hplp|].
  rewrite Hplp.
  destruct (set_status_register_flags p (snd (CPU.pull self))) as [Hok Hfl].
  split; [exact Hok|]. split; [exact Hfl|].
  split; [apply set_status_register_ignores_bit_5|].
  unfold CPU.rti. unfold bind at 1. rewrite Hplp.
  destruct (CPU.set_status_register p (snd (CPU.pull self)))
    as [[[]|e] st] eqn:Hset; simpl in Hok; [|discriminate].
  cbn [snd]. apply rti_after_plp_frame_flags.
Qed.

End PullStatus.

Lemma plp_takes_every_flag_from_the_byte_witness :
  flags (snd (CPU.plp before_plp))
  = (bit_of 0x10 7, bit_of 0x10 6, bit_of 0x10 4, bit_of 0x10 3,
     bit_of 0x10 2, bit_of 0x10 1, bit_of 0x10 0).
Proof.
  refine (proj1 (proj2 (proj2 (plp_takes_every_flag_from_the_byte
                                 before_plp 0x10 _)))).
  vm_compute. reflexivity.
Defined.

(** C1 as stated fails: with B clear and [$10] on top of the stack, [PLP]
    returns with B set. *)
Lemma plp_keeps_B_counterexample :
  ~ (forall (self : CPU.t Bus.t) (p : Z),
        fst (CPU.pull self) = Ok p ->
        CPU.b (snd (CPU.plp self)) = CPU.b self).
Proof.
  intros Hclaim.
  specialize (Hclaim before_plp 0x10 ltac:(vm_compute; reflexivity)).
  vm_compute in Hclaim. discriminate Hclaim.
Qed.

(** ** Decimal arithmetic *)

Lemma bcd2bin_valid (byte : Z) :
  valid_bcd byte ->
  CPU.bcd2bin byte = 10 * (byte / 16) + byte mod 16
  /\ 0 <= CPU.bcd2bin byte <= 99.
Proof.
  intros [Hhi Hlo]. unfold CPU.bcd2bin. rewrite land_0x0F. split; lia.
Qed.

Lemma bin2bcd_small (r : Z) :
  0 <= r < 100 -> CPU.bin2bcd r = 16 * (r / 10) + r mod 10.
Proof.
  intros Hr. unfold CPU.bin2bcd.
  assert (Hq : 0 <= r / 10 < 10).
  { split; [apply Z.div_pos; lia | apply Z.div_lt_upper_bound; lia]. }
  assert (Hm : 0 <= r mod 10 < 10) by (apply Z.mod_pos_bound; lia).
  rewrite land_0xFF_small by lia. lia.
Qed.

Lemma bin2bcd_zero (r : Z) :
  0 <= r < 100 -> (CPU.bin2bcd r =? 0) = (r =? 0).
Proof.
  intros Hr. rewrite (bin2bcd_small r Hr).
  assert (Hq : 0 <= r / 10 < 10).
  { split; [apply Z.div_pos; lia | apply Z.div_lt_upper_bound; lia]. }
  assert (Hm : 0 <= r mod 10 < 10) by (apply Z.mod_pos_bound; lia).
  pose proof (Z.div_mod r 10 ltac:(lia)) as Hdm.
  destruct (Z.eqb_spec r 0) as [->|Hnz].
  - reflexivity.
  - apply Z.eqb_neq. lia.
Qed.

Section DecimalAdc.

Context {B : Type} {bus_methods : BusLike B}.

(** What [adc] does in decimal mode once the operand [m] has been read,
    as one state. *)
Lemma adc_decimal_state (self : CPU.t B) (address m : Z) :
  fst (CPU.read address self) = Ok m ->
  truthy (CPU.d self) = true ->
  CPU.adc (Some address) self
  = let r := CPU.bcd2bin (CPU.a self) + CPU.bcd2bin m + CPU.c self in
    let result := if r >=? 100 then r - 100 else r in
    (Ok tt,
     CPU.set_a (CPU.bin2bcd result)
       (CPU.set_n (int (result >=? 0x80))
          (CPU.set_z (int (result =? 0))
             (CPU.set_v
                (int (negb (Z.land (CPU.a self) 0x80 =? Z.land result 0x80)
                      && negb (Z.land m 0x80 =? Z.land result 0x80)))
                (CPU.set_c (if r >=? 100 then 1 else 0)
                   (snd (CPU.read address self))))))).
Proof.
  intros Hread Hd.
  destruct (cpu_read_result self address) as [Hst _].
  unfold CPU.adc, CPU.read_at. unfold bind at 1.
  destruct (CPU.read address self) as [[q|e] fetched]; simpl in Hread;
    [|discriminate].
  injection Hread as ->. cbn [snd] in *. subst fetched.
  unfold bind, gets, modify, ret, CPU.set_nz.
  cbn [CPU.a CPU.c CPU.d CPU.set_bus].
  rewrite Hd.
  destruct (CPU.bcd2bin (CPU.a self) + CPU.bcd2bin m + CPU.c self >=? 100);
    cbn [CPU.d CPU.set_c CPU.set_v CPU.set_z CPU.set_n CPU.set_bus];
    try rewrite Hd; reflexivity.
Qed.

End DecimalAdc.

Section DecimalAdcClaim.

Context {B : Type} {bus_methods : BusLike B}.

(** C2, as the code has it: in decimal mode, with A and the operand [m]
    valid BCD bytes and C a bit, [adc] forms
    [r = bcd(A) + bcd(m) + C], sets C to 1 exactly when [r >= 100] and
    stores the BCD encoding of [r mod 100] in A.  Z and N are set from
    the binary value [r mod 100], before it is encoded: Z is 1 exactly
    when the stored byte is 0, and N is always 0 (it is not bit 7 of the
    stored byte).  [$09 + $01] gives A = [$10] with C = 0 and
    [$99 + $01] gives A = [$00] with C = 1. *)
Theorem adc_in_decimal_mode (self : CPU.t B) (address m : Z) :
  fst (CPU.read address self) = Ok m ->
  truthy (CPU.d self) = true ->
  valid_bcd (CPU.a self) ->
  valid_bcd m ->
  CPU.c self = 0 \/ CPU.c self = 1 ->
  let r := CPU.bcd2bin (CPU.a self) + CPU.bcd2bin m + CPU.c self in
  let after := snd (CPU.adc (Some address) self) in
  fst (CPU.adc (Some address) self) = Ok tt
  /\ CPU.bcd2bin (CPU.a self) = 10 * (CPU.a self / 16) + CPU.a self mod 16
  /\ CPU.bcd2bin m = 10 * (m / 16) + m mod 16
  /\ CPU.c after = int (r >=? 100)
  /\ CPU.a after = 16 * (r mod 100 / 10) + r mod 100 mod 10
  /\ CPU.z after = int (CPU.a after =? 0)
  /\ CPU.n after = 0
  /\ (CPU.a self = 0x09 -> m = 0x01 -> CPU.c self = 0 ->
      CPU.a after = 0x10 /\ CPU.c after = 0)
  /\ (CPU.a self = 0x99 -> m = 0x01 -> CPU.c self = 0 ->
      CPU.a after = 0x00 /\ CPU.c after = 1).
Proof.
  intros Hread Hd Ha Hm Hc r after.
  destruct (bcd2bin_valid _ Ha) as [Hda Hra].
  destruct (bcd2bin_valid _ Hm) as [Hdm Hrm].
  assert (Hr : 0 <= r <= 199) by (unfold r; split; lia).
  pose proof (adc_decimal_state self address m Hread Hd) as Hadc.
  cbv zeta in Hadc. fold r in Hadc.
  assert (Hres : (if r >=? 100 then r - 100 else r) = r mod 100).
  { rewrite Z.geb_leb. destruct (Z.leb_spec 100 r) as [Hge|Hlt].
    - apply (Z.mod_unique r 100 1); lia.
    - symmetry. apply Z.mod_small. lia. }
  rewrite Hres in Hadc.
  assert (Hmod : 0 <= r mod 100 < 100) by (apply Z.mod_pos_bound; lia).
  assert (Ec : CPU.c after = int (r >=? 100)).
  { unfold after. rewrite Hadc. cbn. destruct (r >=? 100); reflexivity. }
  assert (Ea : CPU.a after = 16 * (r mod 100 / 10) + r mod 100 mod 10).
  { unfold after. rewrite Hadc. cbn [snd CPU.a CPU.set_a].
    apply bin2bcd_small. exact Hmod. }
  split; [rewrite Hadc; reflexivity|].
  split; [exact Hda|]. split; [exact Hdm|].
  split; [exact Ec|]. split; [exact Ea|].
  split.
  { rewrite Ea, <- (bin2bcd_small _ Hmod), (bin2bcd_zero _ Hmod).
    unfold after. rewrite Hadc. reflexivity. }
  split.
  { unfold after. rewrite Hadc. cbn [snd CPU.n CPU.set_a CPU.set_n].
    rewrite Z.geb_leb. destruct (Z.leb_spec 0x80 (r mod 100)) as [Hge|_];
      [lia|reflexivity]. }
  split.
  - intros E1 E2 E3. rewrite Ec, Ea. unfold r. rewrite E1, E2, E3.
    split; reflexivity.
  - intros E1 E2 E3. rewrite Ec, Ea. unfold r. rewrite E1, E2, E3.
    split; reflexivity.
Qed.

End DecimalAdcClaim.

Ltac solve_valid_bcd := vm_compute; intuition discriminate.

Lemma adc_in_decimal_mode_witness :
  CPU.a (snd (CPU.adc (Some 0x0201) before_adc_09_01)) = 0x10
  /\ CPU.c (snd (CPU.adc (Some 0x0201) before_adc_09_01)) = 0.
Proof.
  refine (proj1 (proj2 (proj2 (proj2 (proj2 (proj2 (proj2 (proj2
            (adc_in_decimal_mode before_adc_09_01 0x0201 0x01 _ _ _ _ _))))))))
            _ _ _).
  - vm_compute. reflexivity.
  - reflexivity.
  - solve_valid_bcd.
  - solve_valid_bcd.
  - left. reflexivity.
  - reflexivity.
  - reflexivity.
  - reflexivity.
Defined.

(** C2 as stated fails on N: [$40 + $40] in decimal mode stores [$80],
    whose bit 7 is set, and leaves N clear. *)
Lemma adc_decimal_N_counterexample :
  ~ (forall (self : CPU.t Bus.t) (address m : Z),
        fst (CPU.read address self) = Ok m ->
        truthy (CPU.d self) = true ->
        valid_bcd (CPU.a self) ->
        valid_bcd m ->
        CPU.c self = 0 \/ CPU.c self = 1 ->
        CPU.n (snd (CPU.adc (Some address) self))
        = bit_of (CPU.a (snd (CPU.adc (Some address) self))) 7).
Proof.
  intros Hclaim.
  specialize (Hclaim before_adc_40_40 0x0201 0x40
                ltac:(vm_compute; reflexivity) eq_refl
                ltac:(solve_valid_bcd) ltac:(solve_valid_bcd)
                (or_introl eq_refl)).
  vm_compute in Hclaim. discriminate Hclaim.
Qed.

(** ** Indirect addressing *)

Lemma indirect_after_operand {B} {bus_methods : BusLike B} (self : CPU.t B) :
  CPU.indirect self
  = (let* location := CPU.absolute_address in
     fetch_pointer location
       (if Z.land location 0xFF =? 0xFF then location - 0xFF else location + 1))
      self.
Proof.
  unfold CPU.indirect, CPU.absolute_address, fetch_pointer, CPU.inc_pc.
  unfold bind, gets, modify, ret.
  destruct (CPU.read (CPU.pc self) self) as [[lsb|e] st1]; [|reflexivity].
  destruct (CPU.read (CPU.pc (CPU.set_pc (Z.land (CPU.pc st1 + 1) 0xFFFF) st1))
              (CPU.set_pc (Z.land (CPU.pc st1 + 1) 0xFFFF) st1))
    as [[msb|e] st2]; reflexivity.
Qed.

(** C3: let [location] be the 16-bit pointer location that is the operand
    of the instruction.  [indirect] fetches the low byte of the target at
    [location]; when the low byte of [location] is [$FF] it fetches the
    high byte at the start of the same page, [$xx00], and otherwise at
    [location + 1].  [JMP ($10FF)] with [$34] at [$10FF], [$12] at [$1000]
    and [$56] at [$1100] jumps to [$1234]. *)
Theorem indirect_wraps_within_the_page {B} {bus_methods : BusLike B}
    (self : CPU.t B) (location : Z) :
  fst (CPU.absolute_address self) = Ok location ->
  0 <= location < 0x10000 ->
  (location mod 0x100 = 0xFF ->
   CPU.indirect self
   = fetch_pointer location (0x100 * (location / 0x100))
       (snd (CPU.absolute_address self)))
  /\ (location mod 0x100 <> 0xFF ->
      CPU.indirect self
      = fetch_pointer location (location + 1)
          (snd (CPU.absolute_address self)))
  /\ CPU.pc (snd (CPU.step before_jmp_10FF)) = 0x1234.
Proof.
  intros Hop Hloc.
  assert (Hind : CPU.indirect self
                 = fetch_pointer location
                     (if location mod 0x100 =? 0xFF
                      then location - 0xFF else location + 1)
                     (snd (CPU.absolute_address self))).
  { rewrite indirect_after_operand. unfold bind at 1.
    destruct (CPU.absolute_address self) as [[q|e] st]; simpl in Hop;
      [|discriminate].
    injection Hop as ->. rewrite land_0xFF. reflexivity. }
  split; [|split].
  - intros Hff. rewrite Hind, Hff. cbn [Z.eqb Pos.eqb].
    replace (location - 0xFF) with (0x100 * (location / 0x100)); [reflexivity|].
    pose proof (Z.div_mod location 0x100 ltac:(lia)) as Hdm. lia.
  - intros Hne. rewrite Hind.
    destruct (Z.eqb_spec (location mod 0x100) 0xFF) as [E|_];
      [contradiction|reflexivity].
  - vm_compute. reflexivity.
Qed.

Lemma indirect_wraps_within_the_page_witness :
  CPU.indirect (snd (CPU.inc_pc before_jmp_10FF))
  = fetch_pointer 0x10FF (0x100 * (0x10FF / 0x100))
      (snd (CPU.absolute_address (snd (CPU.inc_pc before_jmp_10FF)))).
Proof.
  refine (proj1 (indirect_wraps_within_the_page
                   (snd (CPU.inc_pc before_jmp_10FF)) 0x10FF _ _) _).
  - vm_compute. reflexivity.
  - lia.
  - reflexivity.
Defined.

(** ** Opcode [$21] *)

(** C8 at its failing input: the dictionary pairs [$21] with [indirect],
    the resolver of [JMP (abs)].  With operand byte [$10] and X = 4,
    [step] consumes two operand bytes and ANDs A with the byte at [$1234],
    the target of the pointer at [$0010]; resolving with [indirect_x], as
    the seven other (indirect,X) entries do, consumes one operand byte and
    uses the pointer at [$14], whose target [$5678] holds [$F0]. *)
Theorem opcode_21_is_resolved_with_indirect :
  CPU.lookup_opcode "21" (@CPU.opcodes Bus.t _)
  = Some (CPU.Addressed CPU.aNd CPU.indirect)
  /\ CPU.pc (snd (CPU.step before_opcode_21)) = 0x0203
  /\ CPU.a (snd (CPU.step before_opcode_21)) = 0x0F
  /\ CPU.pc (snd ((CPU.inc_pc ;;
                   let* address := CPU.indirect_x in
                   CPU.aNd address) before_opcode_21)) = 0x0202
  /\ CPU.a (snd ((CPU.inc_pc ;;
                  let* address := CPU.indirect_x in
                  CPU.aNd address) before_opcode_21)) = 0xF0.
Proof.
  split; [reflexivity|].
  repeat split; vm_compute; reflexivity.
Qed.

(** * Further properties of the bus *)

Lemma index_is_Some {A} (l : list A) (address : Z) :
  0 <= address < Z.of_nat (length l) -> is_Some (Bus.index l address).
Proof.
  intros Ha. unfold Bus.index. apply lookup_lt_is_Some. lia.
Qed.

Lemma index_insert_same {A} (l : list A) (address : Z) (x : A) :
  0 <= address < Z.of_nat (length l) ->
  Bus.index (<[Z.to_nat address := x]> l) address = Some x.
Proof.
  intros Ha. unfold Bus.index. apply list_lookup_insert_eq. lia.
Qed.

Lemma index_insert_other {A} (l : list A) (address other : Z) (x : A) :
  0 <= address -> 0 <= other -> address <> other ->
  Bus.index (<[Z.to_nat address := x]> l) other = Bus.index l other.
Proof.
  intros Ha Ho Hne. unfold Bus.index. apply list_lookup_insert_ne. lia.
Qed.

Lemma bus_read_readable (self : Bus.t) (address value : Z) :
  0 <= address < 0x10000 ->
  Bus.index (Bus.is_readable self) address = Some true ->
  Bus.index (Bus.mem self) address = Some value ->
  Bus.read address self = (Ok value, self).
Proof.
  intros Ha Hperm Hmem. unfold Bus.read.
  rewrite (land_0xFFFF_small address Ha), Hperm, Hmem. reflexivity.
Qed.

Lemma bus_write_writeable (self : Bus.t) (address value : Z) :
  0 <= address < 0x10000 ->
  Bus.index (Bus.is_writeable self) address = Some true ->
  is_Some (Bus.index (Bus.mem self) address) ->
  Bus.write address value self
  = (Ok tt,
     Bus.set_mem (<[Z.to_nat address := Z.land value 0xFF]> (Bus.mem self)) self).
Proof.
  intros Ha Hperm [old Hmem]. unfold Bus.write.
  rewrite (land_0xFFFF_small address Ha), Hperm, Hmem. reflexivity.
Qed.

Lemma bus_read_state (self : Bus.t) (address : Z) :
  snd (Bus.read address self) = self.
Proof. apply bus_read_leaves_the_bus. Qed.

(** X1: on a well-formed bus, a write to a cell that is writeable and
    readable followed by a read of the same address (both taken modulo
    64K) returns the value modulo 256, and the read leaves the bus as the
    write left it. *)
Theorem bus_write_then_read (self : Bus.t) (address value : Z) :
  bus_well_formed self ->
  Bus.index (Bus.is_writeable self) (Z.land address 0xFFFF) = Some true ->
  Bus.index (Bus.is_readable self) (Z.land address 0xFFFF) = Some true ->
  fst (Bus.write address value self) = Ok tt
  /\ Bus.read address (snd (Bus.write address value self))
     = (Ok (Z.land value 0xFF), snd (Bus.write address value self)).
Proof.
  intros (Hlen & _ & _) Hw Hr.
  pose proof (land_0xFFFF_range address) as Ha.
  assert (Hin : 0 <= Z.land address 0xFFFF < Z.of_nat (length (Bus.mem self)))
    by (rewrite Hlen; exact Ha).
  rewrite bus_write_masked, bus_read_masked.
  rewrite (bus_write_writeable self (Z.land address 0xFFFF) (Z.land value 0xFF) Ha Hw)
    by (apply index_is_Some; exact Hin).
  split; [reflexivity|]. cbn [snd].
  rewrite land_0xFF_idem.
  apply bus_read_readable; [exact Ha|exact Hr|].
  cbn [Bus.mem Bus.set_mem]. apply index_insert_same. exact Hin.
Qed.

Lemma bus_init_well_formed (throw : bool) : bus_well_formed (Bus.init throw).
Proof.
  unfold bus_well_formed, Bus.init, Bus.init_with.
  cbn [Bus.mem Bus.is_writeable Bus.is_readable].
  rewrite !length_replicate, Z2Nat.id by (unfold Bus.mem_size; lia).
  repeat split.
Qed.

Lemma bus_init_permissions (throw : bool) (address : Z) :
  0 <= address < 0x10000 ->
  Bus.index (Bus.is_writeable (Bus.init throw)) address = Some true
  /\ Bus.index (Bus.is_readable (Bus.init throw)) address = Some true.
Proof.
  intros Ha. unfold Bus.init, Bus.init_with, Bus.index.
  cbn [Bus.is_writeable Bus.is_readable].
  split; apply lookup_replicate_2; unfold Bus.mem_size; lia.
Qed.

Lemma bus_write_then_read_witness :
  Bus.read 0x10300 (snd (Bus.write 0x10300 0x1234 (Bus.init true)))
  = (Ok (Z.land 0x1234 0xFF), snd (Bus.write 0x10300 0x1234 (Bus.init true))).
Proof.
  refine (proj2 (bus_write_then_read (Bus.init true) 0x10300 0x1234
                   (bus_init_well_formed true) _ _)).
  - apply bus_init_permissions. apply land_0xFFFF_range.
  - apply bus_init_permissions. apply land_0xFFFF_range.
Defined.

(** X2: a write that returns, on a well-formed bus, changes the memory at
    the addressed cell at most: every other cell, the permissions, the
    error flag, the interrupt slot and the lengths of the lists are as
    before, so the bus stays well formed.  A read never changes the bus. *)
Theorem bus_write_touches_one_cell (self : Bus.t) (address value other : Z) :
  bus_well_formed self ->
  0 <= other < 0x10000 ->
  other <> Z.land address 0xFFFF ->
  Bus.index (Bus.mem (snd (Bus.write address value self))) other
  = Bus.index (Bus.mem self) other
  /\ Bus.is_writeable (snd (Bus.write address value self)) = Bus.is_writeable self
  /\ Bus.is_readable (snd (Bus.write address value self)) = Bus.is_readable self
  /\ Bus.throw_memory_errors (snd (Bus.write address value self))
     = Bus.throw_memory_errors self
  /\ Bus.interrupt (snd (Bus.write address value self)) = Bus.interrupt self
  /\ bus_well_formed (snd (Bus.write address value self))
  /\ snd (Bus.read address self) = self.
Proof.
  intros (Hm & Hw & Hr) Ho Hne.
  pose proof (land_0xFFFF_range address) as Ha.
  assert (Hcases :
            snd (Bus.write address value self) = self
            \/ snd (Bus.write address value self)
               = Bus.set_mem (<[Z.to_nat (Z.land address 0xFFFF)
                                := Z.land value 0xFF]> (Bus.mem self)) self).
  { unfold Bus.write.
    destruct (Bus.index (Bus.is_writeable self) (Z.land address 0xFFFF))
      as [[|]|];
      [destruct (Bus.index (Bus.mem self) (Z.land address 0xFFFF))
      |destruct (Bus.throw_memory_errors self)|]; auto. }
  destruct Hcases as [-> | ->].
  - repeat split; try assumption. apply bus_read_state.
  - cbn [Bus.mem Bus.set_mem Bus.is_writeable Bus.is_readable
           Bus.throw_memory_errors Bus.interrupt].
    split; [apply index_insert_other; lia|].
    repeat split; try assumption.
    + cbn [Bus.mem Bus.set_mem]. rewrite length_insert. exact Hm.
    + apply bus_read_state.
Qed.

Lemma bus_write_touches_one_cell_witness :
  Bus.index (Bus.mem (snd (Bus.write 0x0300 0x41 (Bus.init true)))) 0x0301
  = Bus.index (Bus.mem (Bus.init true)) 0x0301.
Proof.
  refine (proj1 (bus_write_touches_one_cell (Bus.init true) 0x0300 0x41 0x0301
                   (bus_init_well_formed true) _ _)).
  - lia.
  - discriminate.
Defined.

(** ** Loading an image *)

Lemma mod_shift_ne (base offset : Z) :
  0 < offset < 0x10000 ->
  Z.land (base + offset) 0xFFFF <> Z.land base 0xFFFF.
Proof.
  intros Ho. rewrite !land_0xFFFF. intros E.
  assert (Hz : (base + offset - base) mod 0x10000 = 0).
  { rewrite Zminus_mod, E, Z.sub_diag. reflexivity. }
  replace (base + offset - base) with offset in Hz by lia.
  rewrite Z.mod_small in Hz by lia. lia.
Qed.

Lemma load_bytes_length (bin_data : list Z) :
  forall (address_start i : Z) (m : list Z),
    length (Bus.load_bytes address_start i bin_data m) = length m.
Proof.
  induction bin_data as [|byte rest IH]; intros address_start i m; simpl.
  - reflexivity.
  - rewrite IH. apply length_insert.
Qed.

Lemma load_bytes_other (bin_data : list Z) :
  forall (address_start i : Z) (m : list Z) (other : Z),
    0 <= other ->
    (forall j : nat, (j < length bin_data)%nat ->
                     Z.land (address_start + i + Z.of_nat j) 0xFFFF <> other) ->
    Bus.index (Bus.load_bytes address_start i bin_data m) other
    = Bus.index m other.
Proof.
  induction bin_data as [|byte rest IH]; intros address_start i m other Ho Hfar;
    simpl.
  - reflexivity.
  - rewrite IH.
    + apply index_insert_other; [apply land_0xFFFF_range|exact Ho|].
      specialize (Hfar 0%nat ltac:(simpl; lia)).
      replace (address_start + i + Z.of_nat 0) with (address_start + i)
        in Hfar by lia.
      exact Hfar.
    + exact Ho.
    + intros j Hj. specialize (Hfar (S j) ltac:(simpl; lia)).
      replace (address_start + (i + 1) + Z.of_nat j)
        with (address_start + i + Z.of_nat (S j)) by lia.
      exact Hfar.
Qed.

Lemma load_bytes_lookup (bin_data : list Z) :
  forall (address_start i : Z) (m : list Z) (k : nat) (byte : Z),
    Z.of_nat (length m) = 0x10000 ->
    Z.of_nat (length bin_data) <= 0x10000 ->
    bin_data !! k = Some byte ->
    Bus.index (Bus.load_bytes address_start i bin_data m)
      (Z.land (address_start + i + Z.of_nat k) 0xFFFF)
    = Some byte.
Proof.
  induction bin_data as [|first rest IH];
    intros address_start i m k byte Hm Hlen Hk; [discriminate|].
  simpl in Hlen. destruct k as [|k]; simpl in Hk.
  - injection Hk as ->. simpl.
    replace (address_start + i + Z.of_nat 0) with (address_start + i) by lia.
    rewrite load_bytes_other.
    + apply index_insert_same. rewrite Hm. apply land_0xFFFF_range.
    + apply land_0xFFFF_range.
    + intros j Hj.
      replace (address_start + (i + 1) + Z.of_nat j)
        with (address_start + i + (Z.of_nat j + 1)) by lia.
      apply mod_shift_ne. lia.
  - simpl.
    replace (address_start + i + Z.of_nat (S k))
      with (address_start + (i + 1) + Z.of_nat k) by lia.
    apply IH; [rewrite length_insert; exact Hm|lia|exact Hk].
Qed.

(** X3: [read_file] stores an image of at most 64K bytes at consecutive
    addresses from [address_start], wrapping at 64K: byte [k] of the image
    ends up at [(address_start + k) & 0xFFFF].  It does so whatever the
    write permissions are, leaves every cell outside the image and both
    permission lists as they were, and keeps the bus well formed. *)
Theorem read_file_stores_the_image (self : Bus.t) (bin_data : list Z)
    (address_start : Z) (k : nat) (byte : Z) :
  bus_well_formed self ->
  Z.of_nat (length bin_data) <= 0x10000 ->
  bin_data !! k = Some byte ->
  Bus.index (Bus.mem (Bus.read_file bin_data address_start self))
    (Z.land (address_start + Z.of_nat k) 0xFFFF)
  = Some byte
  /\ (forall other : Z,
        0 <= other ->
        (forall j : nat, (j < length bin_data)%nat ->
                         Z.land (address_start + Z.of_nat j) 0xFFFF <> other) ->
        Bus.index (Bus.mem (Bus.read_file bin_data address_start self)) other
        = Bus.index (Bus.mem self) other)
  /\ Bus.is_writeable (Bus.read_file bin_data address_start self)
     = Bus.is_writeable self
  /\ Bus.is_readable (Bus.read_file bin_data address_start self)
     = Bus.is_readable self
  /\ bus_well_formed (Bus.read_file bin_data address_start self).
Proof.
  intros (Hm & Hw & Hr) Hlen Hk.
  unfold Bus.read_file. cbn [Bus.mem Bus.set_mem Bus.is_writeable Bus.is_readable].
  split.
  { replace (address_start + Z.of_nat k) with (address_start + 0 + Z.of_nat k)
      by lia.
    apply load_bytes_lookup; assumption. }
  split.
  { intros other Ho Hfar. apply load_bytes_other; [exact Ho|].
    intros j Hj.
    replace (address_start + 0 + Z.of_nat j) with (address_start + Z.of_nat j)
      by lia.
    apply Hfar. exact Hj. }
  repeat split; try assumption.
  cbn [Bus.mem Bus.set_mem]. rewrite load_bytes_length. exact Hm.
Qed.

Lemma read_file_stores_the_image_witness :
  Bus.index (Bus.mem (Bus.read_file sample_rom 0xFF00 (Bus.init true)))
    (Z.land (0xFF00 + Z.of_nat 253) 0xFFFF)
  = Some 0xFF.
Proof.
  refine (proj1 (read_file_stores_the_image (Bus.init true) sample_rom 0xFF00
                   253 0xFF (bus_init_well_formed true) _ _)).
  - vm_compute. discriminate.
  - reflexivity.
Defined.

Lemma systembus_init_mem (initial_mem : list Z) (throw : bool)
    (wozmon : list Z) :
  Bus.mem (SystemBus.base (SystemBus.init_with initial_mem throw wozmon []))
  = Bus.load_bytes 0xFF00 0 wozmon initial_mem.
Proof. reflexivity. Qed.

(** The sample Apple 1 bus holds the sample image from [$FF00] on. *)
Lemma apple1_memory (k : nat) (byte : Z) :
  sample_rom !! k = Some byte ->
  Bus.index (Bus.mem (SystemBus.base apple1))
    (Z.land (0xFF00 + Z.of_nat k) 0xFFFF)
  = Some byte.
Proof.
  intros Hk. unfold apple1, SystemBus.init.
  rewrite systembus_init_mem.
  replace (0xFF00 + Z.of_nat k) with (0xFF00 + 0 + Z.of_nat k) by lia.
  apply load_bytes_lookup.
  - rewrite length_replicate. reflexivity.
  - vm_compute. discriminate.
  - exact Hk.
Qed.

Lemma systembus_set_interrupt_mem (tag : option string) (self : SystemBus.t) :
  Bus.mem (SystemBus.base (SystemBus.set_interrupt tag self))
  = Bus.mem (SystemBus.base self).
Proof. reflexivity. Qed.

Lemma apple1_vector_read (address value : Z) :
  address = 0xFFFC \/ address = 0xFFFD ->
  Bus.index (Bus.mem (SystemBus.base apple1)) address = Some value ->
  bus_read address
    (CPU.bus (running 0x0200 (SystemBus.set_interrupt (Some "RES") apple1)))
  = (Ok value, SystemBus.set_interrupt (Some "RES") apple1).
Proof.
  intros Ha Hmem. rewrite running_bus.
  change (bus_read address (SystemBus.set_interrupt (Some "RES") apple1))
    with (SystemBus.read address (SystemBus.set_interrupt (Some "RES") apple1)).
  destruct apple1_reset_vector_readable as [Hr0 Hr1].
  apply systembus_read_plain.
  - destruct Ha as [-> | ->]; lia.
  - destruct Ha as [-> | ->]; discriminate.
  - destruct Ha as [-> | ->]; discriminate.
  - destruct Ha as [-> | ->]; discriminate.
  - rewrite (proj2 (systembus_set_interrupt_permissions _ _)).
    rewrite (proj2 apple1_permissions).
    destruct Ha as [-> | ->]; assumption.
  - rewrite systembus_set_interrupt_mem. exact Hmem.
Qed.

Lemma pending_interrupt_is_served_first_witness :
  CPU.step (running 0x0200 (SystemBus.set_interrupt (Some "RES") apple1))
  = (Ok tt,
     CPU.set_bus
       (bus_set_interrupt None (SystemBus.set_interrupt (Some "RES") apple1))
       (CPU.set_pc (0x00 + 0xFF * 0x100)
          (CPU.set_i 1
             (running 0x0200 (SystemBus.set_interrupt (Some "RES") apple1))))).
Proof.
  refine (proj1 (proj2 (pending_interrupt_is_served_first
                          (running 0x0200
                             (SystemBus.set_interrupt (Some "RES") apple1))
                          eq_refl))
            eq_refl
            (Ok 0x00) (SystemBus.set_interrupt (Some "RES") apple1) _
            (Ok 0xFF) (SystemBus.set_interrupt (Some "RES") apple1) _).
  - apply apple1_vector_read; [left; reflexivity|].
    exact (apple1_memory 252 0x00 eq_refl).
  - rewrite <- (running_bus 0x0200
                  (SystemBus.set_interrupt (Some "RES") apple1)) at 1.
    apply apple1_vector_read; [right; reflexivity|].
    exact (apple1_memory 253 0xFF eq_refl).
Defined.

(** * Further properties of the Apple 1 bus *)

Lemma clear_range_lookup (flags : list bool) :
  forall (lo hi i : Z) (k : nat) (f : bool),
    flags !! k = Some f ->
    SystemBus.clear_range lo hi i flags !! k
    = Some (if (lo <=? i + Z.of_nat k) && (i + Z.of_nat k <? hi)
            then false else f).
Proof.
  induction flags as [|first rest IH]; intros lo hi i k f Hk; [discriminate|].
  destruct k as [|k]; simpl in Hk |- *.
  - injection Hk as ->. replace (i + Z.of_nat 0) with i by lia. reflexivity.
  - rewrite (IH lo hi (i + 1) k f Hk).
    replace (i + 1 + Z.of_nat k) with (i + Z.of_nat (S k)) by lia.
    reflexivity.
Qed.

(** X4: the memory map [SystemBus.__init__] sets up, whatever the initial
    memory and the ROM images: a cell is writeable exactly when its
    address is below [$8000], and readable exactly when its address is
    below [$8000] or at least [$E000]. *)
Theorem apple1_memory_map (initial_mem : list Z) (throw : bool)
    (wozmon intbasic : list Z) (address : Z) :
  0 <= address < 0x10000 ->
  Bus.index
    (Bus.is_writeable
       (SystemBus.base (SystemBus.init_with initial_mem throw wozmon intbasic)))
    address
  = Some (address <? 0x8000)
  /\ Bus.index
       (Bus.is_readable
          (SystemBus.base (SystemBus.init_with initial_mem throw wozmon intbasic)))
       address
     = Some ((address <? 0x8000) || (0xE000 <=? address)).
Proof.
  intros Ha.
  destruct (systembus_init_permissions initial_mem throw wozmon intbasic)
    as [-> ->].
  assert (Hk : replicate (Z.to_nat Bus.mem_size) true !! Z.to_nat address
               = Some true).
  { apply lookup_replicate_2. unfold Bus.mem_size. lia. }
  unfold apple1_is_writeable, apple1_is_readable, Bus.index.
  rewrite !(clear_range_lookup _ _ _ _ _ _ Hk).
  rewrite Z2Nat.id, Z.add_0_l by lia.
  split; f_equal.
  - destruct (Z.leb_spec 0x8000 address), (Z.ltb_spec address 0x10000),
      (Z.ltb_spec address 0x8000); simpl; try reflexivity; lia.
  - destruct (Z.leb_spec 0x8000 address), (Z.ltb_spec address 0xE000),
      (Z.ltb_spec address 0x8000), (Z.leb_spec 0xE000 address);
      simpl; try reflexivity; lia.
Qed.

Lemma apple1_memory_map_witness :
  Bus.index
    (Bus.is_writeable
       (SystemBus.base
          (SystemBus.init_with (replicate (Z.to_nat Bus.mem_size) 0) true
             sample_rom [])))
    0xFF00
  = Some (0xFF00 <? 0x8000).
Proof.
  refine (proj1 (apple1_memory_map (replicate (Z.to_nat Bus.mem_size) 0) true
                   sample_rom [] 0xFF00 _)).
  lia.
Defined.

(** X5: reading the keyboard data register [$D010] (the address taken
    modulo 64K) returns the latched byte and clears the latch, so an
    immediate second read returns 0; nothing else on the bus changes. *)
Theorem kbd_read_clears_the_latch (self : SystemBus.t) (address : Z) :
  Z.land address 0xFFFF = 0xD010 ->
  SystemBus.read address self = (Ok (SystemBus.kbd self), SystemBus.set_kbd 0 self)
  /\ SystemBus.read address (snd (SystemBus.read address self))
     = (Ok 0, SystemBus.set_kbd 0 self).
Proof.
  intros Ha.
  assert (Hread : forall bus0 : SystemBus.t,
             SystemBus.read address bus0
             = (Ok (SystemBus.kbd bus0), SystemBus.set_kbd 0 bus0)).
  { intros bus0. unfold SystemBus.read. rewrite Ha. reflexivity. }
  split; [apply Hread|]. rewrite !Hread. reflexivity.
Qed.

Lemma kbd_read_clears_the_latch_witness :
  SystemBus.read 0x1D010 (SystemBus.set_kbd 0xC1 apple1)
  = (Ok (SystemBus.kbd (SystemBus.set_kbd 0xC1 apple1)),
     SystemBus.set_kbd 0 (SystemBus.set_kbd 0xC1 apple1)).
Proof.
  refine (proj1 (kbd_read_clears_the_latch (SystemBus.set_kbd 0xC1 apple1)
                   0x1D010 _)).
  reflexivity.
Defined.

Lemma lor_0x80 (k : Z) : 0 <= k < 128 -> Z.lor k 0x80 = k + 128.
Proof.
  intros Hk. symmetry. apply Z.add_nocarry_lor.
  change 0x80 with (2 ^ 7). rewrite land_pow2 by lia.
  rewrite Z.bits_above_log2; [reflexivity|lia|].
  destruct (Z.eq_dec k 0) as [->|Hnz]; [simpl; lia|].
  apply Z.log2_lt_pow2; lia.
Qed.

Lemma apple1_key_code_ascii (k : Z) :
  0 <= k < 128 ->
  0 <= apple1_key_code k < 127
  /\ ~ (97 <= apple1_key_code k <= 122)
  /\ apple1_key_code k <> 10
  /\ (97 <= k <= 122 -> apple1_key_code k = k - 32).
Proof.
  intros Hk. unfold apple1_key_code.
  destruct (Z.leb_spec 97 k), (Z.leb_spec k 122); simpl;
    repeat match goal with
           | |- context [?u =? ?w] => destruct (Z.eqb_spec u w)
           | E : context [?u =? ?w] |- _ => destruct (Z.eqb_spec u w)
           end; repeat split; lia.
Qed.

(** X6: polling the keyboard control register [$D011] with a key [k]
    waiting on the terminal takes the key off the terminal, returns [$80]
    and latches the translated code with bit 7 set; Ctrl-R and Ctrl-E also
    file [RES] and [HLT] in the interrupt slot, any other key leaves the
    slot alone.  For an ASCII key the latch holds a byte of at least [$80]
    whose low seven bits are no lower-case letter and no line feed, and a
    lower-case letter is latched as its upper-case form.  The next read of
    [$D010] returns the latched byte. *)
Theorem kbdcr_poll_latches_the_key (self : SystemBus.t) (w : Screen)
    (k : Z) (rest : list Z) :
  Bus.stdscr (SystemBus.base self) = Some w ->
  pending_keys w = k :: rest ->
  k <> curses_ERR ->
  let after := snd (SystemBus.read 0xD011 self) in
  fst (SystemBus.read 0xD011 self) = Ok 0x80
  /\ SystemBus.kbd after = Z.lor (apple1_key_code k) 0x80
  /\ Z.testbit (SystemBus.kbd after) 7 = true
  /\ Bus.stdscr (SystemBus.base after)
     = Some (mkScreen rest (shown w) (refreshes w))
  /\ SystemBus.interrupt after
     = (if k =? 5 then Some "HLT"
        else if k =? 18 then Some "RES"
        else SystemBus.interrupt self)
  /\ Bus.mem (SystemBus.base after) = Bus.mem (SystemBus.base self)
  /\ fst (SystemBus.read 0xD010 after) = Ok (SystemBus.kbd after)
  /\ (0 <= k < 128 ->
      0x80 <= SystemBus.kbd after < 0xFF
      /\ ~ (97 <= SystemBus.kbd after - 0x80 <= 122)
      /\ SystemBus.kbd after - 0x80 <> 10
      /\ (97 <= k <= 122 -> SystemBus.kbd after = k - 32 + 0x80)).
Proof.
  intros Hscr Hkeys Hk after.
  assert (Hread : SystemBus.read 0xD011 self
                  = (Ok 0x80,
                     SystemBus.set_kbd (Z.lor (apple1_key_code k) 0x80)
                       ((if k =? 5 then SystemBus.set_interrupt (Some "HLT")
                         else fun st => st)
                          ((if k =? 18 then SystemBus.set_interrupt (Some "RES")
                            else fun st => st)
                             (SystemBus.set_base
                                (Bus.set_stdscr
                                   (Some (mkScreen rest (shown w) (refreshes w)))
                                   (SystemBus.base self)) self))))).
  { unfold SystemBus.read, SystemBus.poll_key, getch.
    change (Z.land 0xD011 0xFFFF) with 0xD011. cbn [Z.eqb Pos.eqb].
    rewrite Hscr, Hkeys.
    destruct (Z.eqb_spec k curses_ERR) as [E|_]; [contradiction|].
    unfold apple1_key_code.
    destruct (k =? 18), (k =? 5); reflexivity. }
  assert (Hkbd : SystemBus.kbd after = Z.lor (apple1_key_code k) 0x80)
    by (unfold after; rewrite Hread; reflexivity).
  split; [rewrite Hread; reflexivity|].
  split; [exact Hkbd|].
  split.
  { rewrite Hkbd, Z.lor_spec. apply orb_true_r. }
  split.
  { unfold after. rewrite Hread. destruct (k =? 5), (k =? 18); reflexivity. }
  split.
  { unfold after. rewrite Hread.
    destruct (Z.eqb_spec k 5) as [->|_]; [reflexivity|].
    destruct (k =? 18); reflexivity. }
  split.
  { unfold after. rewrite Hread. destruct (k =? 5), (k =? 18); reflexivity. }
  split; [reflexivity|].
  intros Hascii. rewrite Hkbd.
  destruct (apple1_key_code_ascii k Hascii) as (Hr & Hlow & Hlf & Hup).
  rewrite lor_0x80 by lia.
  repeat split; lia.
Qed.

Lemma kbdcr_poll_latches_the_key_witness :
  fst (SystemBus.read 0xD011 (with_keys [97; 13] apple1)) = Ok 0x80.
Proof.
  refine (proj1 (kbdcr_poll_latches_the_key (with_keys [97; 13] apple1)
                   (mkScreen [97; 13] [] 0) 97 [13] eq_refl eq_refl _)).
  discriminate.
Defined.

(** X7: with no terminal attached, or with no key waiting, polling
    [$D011] returns 0 and leaves the bus as it was. *)
Theorem kbdcr_poll_without_key (self : SystemBus.t) :
  (Bus.stdscr (SystemBus.base self) = None
   \/ exists w, Bus.stdscr (SystemBus.base self) = Some w
                /\ pending_keys w = []) ->
  SystemBus.read 0xD011 self = (Ok 0, self).
Proof.
  intros Hnone. unfold SystemBus.read, SystemBus.poll_key, getch.
  change (Z.land 0xD011 0xFFFF) with 0xD011. cbn [Z.eqb Pos.eqb].
  destruct Hnone as [-> | (w & Hw & Hkeys)].
  - reflexivity.
  - rewrite Hw, Hkeys. cbn [Z.eqb curses_ERR Pos.eqb].
    rewrite <- Hw. destruct self as [base0 kbd0 dsp0]. destruct base0.
    reflexivity.
Qed.

Lemma kbdcr_poll_without_key_witness :
  SystemBus.read 0xD011 apple1 = (Ok 0, apple1).
Proof.
  refine (kbdcr_poll_without_key apple1 _). left. reflexivity.
Defined.

Lemma land_0x7F (v : Z) : Z.land v 0x7F = v mod 128.
Proof. apply (Z.land_ones v 7). lia. Qed.

Ltac split_comparisons :=
  repeat match goal with
         | |- context [?u >? ?w] => rewrite (Z.gtb_ltb u w)
         | |- context [?u <? ?w] => destruct (Z.ltb_spec u w)
         | |- context [?u <=? ?w] => destruct (Z.leb_spec u w)
         | |- context [?u =? ?w] => destruct (Z.eqb_spec u w)
         end.



(** * Further properties of the CPU *)

(** ** The stack *)

Lemma bus_init_stack_usable (throw : bool) : stack_usable (Bus.init throw).
Proof.
  split; [apply bus_init_well_formed|].
  intros address Ha. apply bus_init_permissions. lia.
Qed.

Lemma stored_stack_usable (address value : Z) (self : Bus.t) :
  stack_usable self -> stack_usable (stored address value self).
Proof.
  intros [(Hm & Hw & Hr) Hperm]. unfold stored. split.
  - repeat split; cbn [Bus.mem Bus.set_mem Bus.is_writeable Bus.is_readable];
      try assumption.
    rewrite length_insert. exact Hm.
  - exact Hperm.
Qed.

Lemma stored_same (address value : Z) (self : Bus.t) :
  bus_well_formed self -> 0 <= address < 0x10000 ->
  Bus.index (Bus.mem (stored address value self)) address
  = Some (Z.land value 0xFF).
Proof.
  intros (Hm & _) Ha. unfold stored. cbn [Bus.mem Bus.set_mem].
  apply index_insert_same. rewrite Hm. exact Ha.
Qed.

Lemma stored_other (address value other : Z) (self : Bus.t) :
  0 <= address -> 0 <= other -> address <> other ->
  Bus.index (Bus.mem (stored address value self)) other
  = Bus.index (Bus.mem self) other.
Proof.
  intros Ha Ho Hne. unfold stored. cbn [Bus.mem Bus.set_mem].
  apply index_insert_other; assumption.
Qed.

Lemma cpu_read_ram (self : CPU.t Bus.t) (address value : Z) :
  0 <= address < 0x10000 ->
  Bus.index (Bus.is_readable (CPU.bus self)) address = Some true ->
  Bus.index (Bus.mem (CPU.bus self)) address = Some value ->
  CPU.read address self = (Ok value, self).
Proof.
  intros Ha Hperm Hmem. unfold CPU.read.
  change (bus_read address (CPU.bus self)) with (Bus.read address (CPU.bus self)).
  rewrite (bus_read_readable _ _ _ Ha Hperm Hmem).
  rewrite cpu_set_bus_same. reflexivity.
Qed.

Lemma cpu_write_ram (self : CPU.t Bus.t) (address value : Z) :
  bus_well_formed (CPU.bus self) ->
  0 <= address < 0x10000 ->
  Bus.index (Bus.is_writeable (CPU.bus self)) address = Some true ->
  CPU.write address value self
  = (Ok tt, CPU.set_bus (stored address value (CPU.bus self)) self).
Proof.
  intros (Hm & _) Ha Hperm. unfold CPU.write.
  change (bus_write address value (CPU.bus self))
    with (Bus.write address value (CPU.bus self)).
  rewrite (bus_write_writeable _ _ _ Ha Hperm)
    by (apply index_is_Some; rewrite Hm; exact Ha).
  reflexivity.
Qed.

Lemma cpu_push (self : CPU.t Bus.t) (value : Z) :
  stack_usable (CPU.bus self) ->
  0 <= CPU.s self < 0x100 ->
  CPU.push value self = (Ok tt, pushed value self).
Proof.
  intros [Hwf Hperm] Hs.
  unfold CPU.push, bind, gets, modify, CPU.stack_location.
  rewrite (cpu_write_ram self (0x0100 + CPU.s self) value Hwf)
    by (first [lia | apply Hperm; lia]).
  reflexivity.
Qed.

Lemma cpu_pull (self : CPU.t Bus.t) (value : Z) :
  stack_usable (CPU.bus self) ->
  Bus.index (Bus.mem (CPU.bus self)) (0x0100 + Z.land (CPU.s self + 1) 0xFF)
  = Some value ->
  CPU.pull self = (Ok value, CPU.set_s (Z.land (CPU.s self + 1) 0xFF) self).
Proof.
  intros [Hwf Hperm] Hmem.
  unfold CPU.pull, bind, gets, modify, CPU.stack_location.
  cbn [CPU.s CPU.set_s].
  pose proof (land_0xFF_range (CPU.s self + 1)) as Hr.
  apply cpu_read_ram.
  - lia.
  - cbn [CPU.bus CPU.set_s]. apply Hperm. lia.
  - cbn [CPU.bus CPU.set_s]. exact Hmem.
Qed.

Lemma stack_pointer_back (sp : Z) :
  0 <= sp < 0x100 -> Z.land (Z.land (sp - 1) 0xFF + 1) 0xFF = sp.
Proof.
  intros Hs. rewrite !land_0xFF.
  destruct (Z.eq_dec sp 0) as [->|Hnz]; [reflexivity|].
  rewrite (Z.mod_small (sp - 1)) by lia.
  replace (sp - 1 + 1) with sp by lia. apply Z.mod_small. lia.
Qed.

Lemma pushed_fields (value : Z) (self : CPU.t Bus.t) :
  CPU.s (pushed value self) = Z.land (CPU.s self - 1) 0xFF
  /\ CPU.bus (pushed value self)
     = stored (0x0100 + CPU.s self) value (CPU.bus self)
  /\ CPU.a (pushed value self) = CPU.a self
  /\ CPU.x (pushed value self) = CPU.x self
  /\ CPU.y (pushed value self) = CPU.y self
  /\ CPU.pc (pushed value self) = CPU.pc self
  /\ flags (pushed value self) = flags self
  /\ CPU.halted (pushed value self) = CPU.halted self.
Proof. destruct self. repeat split. Qed.

Lemma pushed_stack_usable (value : Z) (self : CPU.t Bus.t) :
  stack_usable (CPU.bus self) ->
  stack_usable (CPU.bus (pushed value self))
  /\ 0 <= CPU.s (pushed value self) < 0x100.
Proof.
  intros Hst. destruct (pushed_fields value self) as (-> & -> & _).
  split; [apply stored_stack_usable; exact Hst|apply land_0xFF_range].
Qed.

(** What a pull finds right after a push. *)
Lemma pull_after_push (value : Z) (self : CPU.t Bus.t) :
  stack_usable (CPU.bus self) ->
  0 <= CPU.s self < 0x100 ->
  CPU.pull (pushed value self)
  = (Ok (Z.land value 0xFF),
     CPU.set_bus (stored (0x0100 + CPU.s self) value (CPU.bus self)) self).
Proof.
  intros Hst Hs.
  destruct (pushed_stack_usable value self Hst) as [Hst' Hs'].
  destruct (pushed_fields value self) as (Es & Eb & _).
  rewrite (cpu_pull (pushed value self) (Z.land value 0xFF) Hst').
  - rewrite Es, stack_pointer_back by exact Hs.
    unfold pushed. destruct self; cbn in *. reflexivity.
  - rewrite Es, Eb, stack_pointer_back by exact Hs.
    apply stored_same; [apply Hst|lia].
Qed.

(** X9: on a bus whose stack page is usable, [PHA] followed by [PLA]
    returns with the stack pointer where it was and with A holding
    [A & 0xFF] (A itself when it is a byte); Z and N are set from that
    value, and on the bus only the cell at [$0100 + S] has been written. *)
Theorem pha_pla_round_trip (self : CPU.t Bus.t) :
  stack_usable (CPU.bus self) ->
  0 <= CPU.s self < 0x100 ->
  (CPU.pha ;; CPU.pla) self
  = (Ok tt,
     CPU.set_n (int (Z.land (CPU.a self) 0xFF >=? 0x80))
       (CPU.set_z (int (Z.land (CPU.a self) 0xFF =? 0))
          (CPU.set_a (Z.land (CPU.a self) 0xFF)
             (CPU.set_bus
                (stored (0x0100 + CPU.s self) (CPU.a self) (CPU.bus self))
                self))))
  /\ CPU.s (snd ((CPU.pha ;; CPU.pla) self)) = CPU.s self
  /\ (0 <= CPU.a self < 0x100 ->
      CPU.a (snd ((CPU.pha ;; CPU.pla) self)) = CPU.a self).
Proof.
  intros Hst Hs.
  assert (Hrun : (CPU.pha ;; CPU.pla) self
                 = (Ok tt,
                    CPU.set_n (int (Z.land (CPU.a self) 0xFF >=? 0x80))
                      (CPU.set_z (int (Z.land (CPU.a self) 0xFF =? 0))
                         (CPU.set_a (Z.land (CPU.a self) 0xFF)
                            (CPU.set_bus
                               (stored (0x0100 + CPU.s self) (CPU.a self)
                                  (CPU.bus self))
                               self))))).
  { unfold CPU.pha, CPU.pla. unfold bind at 1 2. unfold gets at 1.
    rewrite (cpu_push self (CPU.a self) Hst Hs).
    unfold bind at 1. rewrite (pull_after_push (CPU.a self) self Hst Hs).
    reflexivity. }
  rewrite Hrun. split; [reflexivity|]. split.
  - destruct self; reflexivity.
  - intros Ha. cbn [snd CPU.a CPU.set_n CPU.set_z CPU.set_a].
    apply land_0xFF_small. exact Ha.
Qed.

Lemma pha_pla_round_trip_witness :
  CPU.s (snd ((CPU.pha ;; CPU.pla) (CPU.set_a 0x41 (running 0x0200 (Bus.init true)))))
  = CPU.s (CPU.set_a 0x41 (running 0x0200 (Bus.init true))).
Proof.
  refine (proj1 (proj2 (pha_pla_round_trip
                          (CPU.set_a 0x41 (running 0x0200 (Bus.init true)))
                          (bus_init_stack_usable true) _))).
  vm_compute. intuition discriminate.
Defined.

(** ** The status byte on the stack *)

Lemma status_byte_bits (bn bv bb bd bi bz bc : bool) :
  let sr := (if bn then 0x80 else 0) + (if bv then 0x40 else 0)
            + (if bb then 0x10 else 0) + (if bd then 0x08 else 0)
            + (if bi then 0x04 else 0) + (if bz then 0x02 else 0)
            + (if bc then 0x01 else 0) in
  0 <= sr < 0x100
  /\ Z.testbit sr 5 = false
  /\ (bit_of sr 7, bit_of sr 6, bit_of sr 4, bit_of sr 3, bit_of sr 2,
      bit_of sr 1, bit_of sr 0)
     = (int bn, int bv, int bb, int bd, int bi, int bz, int bc)
  /\ Z.land (Z.lor sr 0x30) 0xFF = sr - (if bb then 0x10 else 0) + 0x30
  /\ Z.land sr 0xCF = sr - (if bb then 0x10 else 0).
Proof.
  destruct bn, bv, bb, bd, bi, bz, bc; cbv zeta; repeat split; try lia;
    reflexivity.
Qed.

Lemma flags_inv {B} (self : CPU.t B) (fn fv fb fd fi fz fc : Z) :
  flags self = (fn, fv, fb, fd, fi, fz, fc) ->
  CPU.n self = fn /\ CPU.v self = fv /\ CPU.b self = fb /\ CPU.d self = fd
  /\ CPU.i self = fi /\ CPU.z self = fz /\ CPU.c self = fc.
Proof. unfold flags. intros E. injection E. auto 10. Qed.

Lemma get_status_register_sum {B} (self : CPU.t B) :
  CPU.get_status_register self
  = (if truthy (CPU.n self) then 0x80 else 0)
    + (if truthy (CPU.v self) then 0x40 else 0)
    + (if truthy (CPU.b self) then 0x10 else 0)
    + (if truthy (CPU.d self) then 0x08 else 0)
    + (if truthy (CPU.i self) then 0x04 else 0)
    + (if truthy (CPU.z self) then 0x02 else 0)
    + (if truthy (CPU.c self) then 0x01 else 0).
Proof. reflexivity. Qed.

(** X10: the status byte packs the seven flags: it is a byte with bit 5
    clear whose bits 7, 6, 4, 3, 2, 1, 0 are 1 exactly for the flags N, V,
    B, D, I, Z, C that are non-zero.  Loading it back with
    [set_status_register] returns, and the state it leaves is the state
    before with each of the seven flags replaced by 1 if it was non-zero
    and by 0 otherwise: the other registers, the bus, [halted], the
    breakpoints, the last-break cell and the delay are the same, and the
    status byte of that state is the byte that was loaded. *)
Theorem status_register_round_trip {B} {bus_methods : BusLike B}
    (self : CPU.t B) :
  0 <= CPU.get_status_register self < 0x100
  /\ Z.testbit (CPU.get_status_register self) 5 = false
  /\ (bit_of (CPU.get_status_register self) 7,
      bit_of (CPU.get_status_register self) 6,
      bit_of (CPU.get_status_register self) 4,
      bit_of (CPU.get_status_register self) 3,
      bit_of (CPU.get_status_register self) 2,
      bit_of (CPU.get_status_register self) 1,
      bit_of (CPU.get_status_register self) 0)
     = (int (truthy (CPU.n self)), int (truthy (CPU.v self)),
        int (truthy (CPU.b self)), int (truthy (CPU.d self)),
        int (truthy (CPU.i self)), int (truthy (CPU.z self)),
        int (truthy (CPU.c self)))
  /\ CPU.set_status_register (CPU.get_status_register self) self
     = (Ok tt,
        CPU.set_c (int (truthy (CPU.c self)))
          (CPU.set_z (int (truthy (CPU.z self)))
             (CPU.set_i (int (truthy (CPU.i self)))
                (CPU.set_d (int (truthy (CPU.d self)))
                   (CPU.set_b (int (truthy (CPU.b self)))
                      (CPU.set_v (int (truthy (CPU.v self)))
                         (CPU.set_n (int (truthy (CPU.n self))) self)))))))
  /\ flags (snd (CPU.set_status_register (CPU.get_status_register self) self))
     = (int (truthy (CPU.n self)), int (truthy (CPU.v self)),
        int (truthy (CPU.b self)), int (truthy (CPU.d self)),
        int (truthy (CPU.i self)), int (truthy (CPU.z self)),
        int (truthy (CPU.c self)))
  /\ CPU.get_status_register
       (snd (CPU.set_status_register (CPU.get_status_register self) self))
     = CPU.get_status_register self.
Proof.
  destruct (set_status_register_flags (CPU.get_status_register self) self)
    as [_ Hfl].
  destruct (status_byte_bits (truthy (CPU.n self)) (truthy (CPU.v self))
              (truthy (CPU.b self)) (truthy (CPU.d self))
              (truthy (CPU.i self)) (truthy (CPU.z self))
              (truthy (CPU.c self))) as (Hr & H5 & Hbits & _).
  cbv zeta in Hr, H5, Hbits.
  rewrite <- (get_status_register_sum self) in Hr, H5, Hbits.
  split; [exact Hr|]. split; [exact H5|]. split; [exact Hbits|].
  rewrite Hbits in Hfl.
  assert (Hstate :
            CPU.set_status_register (CPU.get_status_register self) self
            = (Ok tt,
               CPU.set_c (int (truthy (CPU.c self)))
                 (CPU.set_z (int (truthy (CPU.z self)))
                    (CPU.set_i (int (truthy (CPU.i self)))
                       (CPU.set_d (int (truthy (CPU.d self)))
                          (CPU.set_b (int (truthy (CPU.b self)))
                             (CPU.set_v (int (truthy (CPU.v self)))
                                (CPU.set_n (int (truthy (CPU.n self)))
                                   self)))))))).
  { injection Hbits as E7 E6 E4 E3 E2 E1 E0.
    rewrite <- E7, <- E6, <- E4, <- E3, <- E2, <- E1, <- E0.
    rewrite <- (flag_of_mask _ 7), <- (flag_of_mask _ 6),
      <- (flag_of_mask _ 4), <- (flag_of_mask _ 3), <- (flag_of_mask _ 2),
      <- (flag_of_mask _ 1), <- (flag_of_mask _ 0) by lia.
    unfold CPU.set_status_register, bind, modify.
    destruct self; reflexivity. }
  split; [exact Hstate|]. split; [exact Hfl|].
  set (after := snd (CPU.set_status_register (CPU.get_status_register self) self))
    in *.
  rewrite (get_status_register_sum after), (get_status_register_sum self).
  destruct (flags_inv _ _ _ _ _ _ _ _ Hfl) as (En & Ev & Eb & Ed & Ei & Ez & Ec).
  rewrite En, Ev, Eb, Ed, Ei, Ez, Ec.
  destruct (truthy (CPU.n self)), (truthy (CPU.v self)), (truthy (CPU.b self)),
    (truthy (CPU.d self)), (truthy (CPU.i self)), (truthy (CPU.z self)),
    (truthy (CPU.c self)); reflexivity.
Qed.

Lemma status_byte_pushed_bits (bn bv bb bd bi bz bc : bool) :
  let sr := (if bn then 0x80 else 0) + (if bv then 0x40 else 0)
            + (if bb then 0x10 else 0) + (if bd then 0x08 else 0)
            + (if bi then 0x04 else 0) + (if bz then 0x02 else 0)
            + (if bc then 0x01 else 0) in
  let p := Z.land (Z.lor sr 0x30) 0xFF in
  Z.testbit p 4 = true /\ Z.testbit p 5 = true
  /\ (bit_of p 7, bit_of p 6, bit_of p 4, bit_of p 3, bit_of p 2,
      bit_of p 1, bit_of p 0)
     = (int bn, int bv, 1, int bd, int bi, int bz, int bc).
Proof.
  destruct bn, bv, bb, bd, bi, bz, bc; cbv zeta; repeat split.
Qed.

Lemma set_status_register_registers {B} {bus_methods : BusLike B}
    (sr : Z) (self : CPU.t B) :
  let after := snd (CPU.set_status_register sr self) in
  CPU.a after = CPU.a self /\ CPU.x after = CPU.x self
  /\ CPU.y after = CPU.y self /\ CPU.pc after = CPU.pc self
  /\ CPU.s after = CPU.s self /\ CPU.bus after = CPU.bus self
  /\ CPU.halted after = CPU.halted self.
Proof. destruct self. repeat split. Qed.

(** X11: on a bus whose stack page is usable, [PHP] followed by [PLP]
    returns with the stack pointer and A, X, Y, PC where they were and with
    N, V, D, I, Z, C normalised to 0 or 1 but otherwise as before; B comes
    back as 1, because the byte [PHP] writes at [$0100 + S] has bits 4 and
    5 set. *)
Theorem php_plp_round_trip (self : CPU.t Bus.t) :
  stack_usable (CPU.bus self) ->
  0 <= CPU.s self < 0x100 ->
  let after := snd ((CPU.php ;; CPU.plp) self) in
  fst ((CPU.php ;; CPU.plp) self) = Ok tt
  /\ flags after
     = (int (truthy (CPU.n self)), int (truthy (CPU.v self)), 1,
        int (truthy (CPU.d self)), int (truthy (CPU.i self)),
        int (truthy (CPU.z self)), int (truthy (CPU.c self)))
  /\ CPU.s after = CPU.s self
  /\ CPU.a after = CPU.a self /\ CPU.x after = CPU.x self
  /\ CPU.y after = CPU.y self /\ CPU.pc after = CPU.pc self
  /\ exists p : Z,
      Bus.index (Bus.mem (CPU.bus after)) (0x0100 + CPU.s self) = Some p
      /\ Z.testbit p 4 = true /\ Z.testbit p 5 = true.
Proof.
  intros Hst Hs after.
  set (p := Z.land (Z.lor (CPU.get_status_register self) 0x30) 0xFF).
  set (st := CPU.set_bus
               (stored (0x0100 + CPU.s self)
                  (Z.lor (CPU.get_status_register self) 0x30) (CPU.bus self))
               self).
  assert (Hrun : (CPU.php ;; CPU.plp) self = CPU.set_status_register p st).
  { unfold CPU.php, CPU.plp. unfold bind at 1 2. unfold gets at 1.
    rewrite (cpu_push self _ Hst Hs).
    unfold bind at 1. rewrite (pull_after_push _ self Hst Hs). reflexivity. }
  destruct (set_status_register_flags p st) as [Hok Hfl].
  destruct (set_status_register_registers p st)
    as (Ea & Ex & Ey & Epc & Es & Eb & _).
  destruct (status_byte_pushed_bits
              (truthy (CPU.n self)) (truthy (CPU.v self)) (truthy (CPU.b self))
              (truthy (CPU.d self)) (truthy (CPU.i self)) (truthy (CPU.z self))
              (truthy (CPU.c self))) as (H4 & H5 & Hbits).
  cbv zeta in H4, H5, Hbits.
  rewrite <- (get_status_register_sum self) in H4, H5, Hbits.
  fold p in H4, H5, Hbits.
  unfold after. rewrite Hrun.
  split; [exact Hok|].
  split; [rewrite Hfl; exact Hbits|].
  split; [rewrite Es; destruct self; reflexivity|].
  split; [rewrite Ea; destruct self; reflexivity|].
  split; [rewrite Ex; destruct self; reflexivity|].
  split; [rewrite Ey; destruct self; reflexivity|].
  split; [rewrite Epc; destruct self; reflexivity|].
  exists p. split; [|split; assumption].
  rewrite Eb. unfold st. cbn [CPU.bus CPU.set_bus].
  apply stored_same; [apply Hst|lia].
Qed.

Lemma php_plp_round_trip_witness :
  flags (snd ((CPU.php ;; CPU.plp)
                (CPU.set_c 1 (CPU.set_n 1 (running 0x0200 (Bus.init true))))))
  = (int (truthy 1), int (truthy 0), 1, int (truthy 0), int (truthy 0),
     int (truthy 0), int (truthy 1)).
Proof.
  refine (proj1 (proj2 (php_plp_round_trip
                          (CPU.set_c 1 (CPU.set_n 1 (running 0x0200 (Bus.init true))))
                          (bus_init_stack_usable true) _))).
  vm_compute. intuition discriminate.
Defined.

(** ** Subroutines *)

Lemma stack_pointer_down_differs (sp : Z) :
  0 <= sp < 0x100 -> Z.land (sp - 1) 0xFF <> sp.
Proof.
  intros Hs. rewrite land_0xFF.
  destruct (Z.eq_dec sp 0) as [->|Hnz]; [discriminate|].
  rewrite Z.mod_small by lia. lia.
Qed.

Lemma return_address_bytes (ra : Z) :
  0 <= ra < 0x10000 ->
  Z.land (ra / 0x100) 0xFF * 0x100 + Z.land (Z.land ra 0xFF) 0xFF = ra.
Proof.
  intros Hra. rewrite land_0xFF_idem, !land_0xFF.
  assert (Hq : 0 <= ra / 0x100 < 0x100).
  { split; [apply Z.div_pos; lia | apply Z.div_lt_upper_bound; lia]. }
  rewrite (Z.mod_small (ra / 0x100)) by lia.
  pose proof (Z.div_mod ra 0x100 ltac:(lia)). lia.
Qed.

Lemma return_address_next (start : Z) :
  0 <= start < 0x10000 ->
  Z.land (Z.land (start - 1) 0xFFFF + 1) 0xFFFF = start.
Proof.
  intros Hs. rewrite !land_0xFFFF.
  destruct (Z.eq_dec start 0) as [->|Hnz]; [reflexivity|].
  rewrite (Z.mod_small (start - 1)) by lia.
  replace (start - 1 + 1) with start by lia. apply Z.mod_small. lia.
Qed.

(** The two pulls that undo two pushes, whatever was done to the program
    counter in between. *)
Lemma two_pulls_after_two_pushes (first second target : Z)
    (self : CPU.t Bus.t) :
  stack_usable (CPU.bus self) ->
  0 <= CPU.s self < 0x100 ->
  let st := CPU.set_pc target (pushed second (pushed first self)) in
  CPU.pull st
  = (Ok (Z.land second 0xFF), CPU.set_s (Z.land (CPU.s self - 1) 0xFF) st)
  /\ CPU.pull (CPU.set_s (Z.land (CPU.s self - 1) 0xFF) st)
     = (Ok (Z.land first 0xFF),
        CPU.set_s (CPU.s self) (CPU.set_s (Z.land (CPU.s self - 1) 0xFF) st)).
Proof.
  intros Hst Hs st.
  destruct (pushed_stack_usable first self Hst) as [Hst1 Hs1].
  destruct (pushed_stack_usable second (pushed first self) Hst1) as [Hst2 Hs2].
  destruct (pushed_fields first self) as (Es1 & Eb1 & _).
  destruct (pushed_fields second (pushed first self)) as (Es2 & Eb2 & _).
  assert (Hbus : CPU.bus st = CPU.bus (pushed second (pushed first self)))
    by reflexivity.
  assert (Hsp : CPU.s st = CPU.s (pushed second (pushed first self)))
    by reflexivity.
  split.
  - rewrite (cpu_pull st (Z.land second 0xFF)).
    + rewrite Hsp, Es2, (stack_pointer_back _ Hs1), Es1. reflexivity.
    + rewrite Hbus. exact Hst2.
    + rewrite Hsp, Hbus, Es2, (stack_pointer_back _ Hs1), Eb2.
      apply stored_same; [apply Hst1|lia].
  - rewrite (cpu_pull (CPU.set_s (Z.land (CPU.s self - 1) 0xFF) st)
               (Z.land first 0xFF)).
    + cbn [CPU.s CPU.set_s]. rewrite (stack_pointer_back _ Hs). reflexivity.
    + cbn [CPU.bus CPU.set_s]. rewrite Hbus. exact Hst2.
    + cbn [CPU.s CPU.bus CPU.set_s].
      rewrite (stack_pointer_back _ Hs), Hbus, Eb2, Es1.
      rewrite stored_other.
      * rewrite Eb1. apply stored_same; [apply Hst|lia].
      * pose proof (land_0xFF_range (CPU.s self - 1)). lia.
      * lia.
      * pose proof (stack_pointer_down_differs _ Hs). lia.
Qed.

(** X12: on a bus whose stack page is usable, [JSR target] sets the
    program counter to [target] and moves the stack pointer down by two,
    and an [RTS] executed in that state sets the program counter back to
    where it was before the [JSR] (the address after its operand) and the
    stack pointer back to its old value; A, X, Y and the flags are the
    same throughout. *)
Theorem jsr_rts_round_trip (self : CPU.t Bus.t) (target : Z) :
  stack_usable (CPU.bus self) ->
  0 <= CPU.s self < 0x100 ->
  0 <= CPU.pc self < 0x10000 ->
  let called := snd (CPU.jsr (Some target) self) in
  let after := snd ((CPU.jsr (Some target) ;; CPU.rts) self) in
  fst (CPU.jsr (Some target) self) = Ok tt
  /\ CPU.pc called = target
  /\ CPU.s called = Z.land (Z.land (CPU.s self - 1) 0xFF - 1) 0xFF
  /\ fst ((CPU.jsr (Some target) ;; CPU.rts) self) = Ok tt
  /\ CPU.pc after = CPU.pc self
  /\ CPU.s after = CPU.s self
  /\ CPU.a after = CPU.a self /\ CPU.x after = CPU.x self
  /\ CPU.y after = CPU.y self /\ flags after = flags self.
Proof.
  intros Hst Hs Hpc called after.
  set (ra := Z.land (CPU.pc self - 1) 0xFFFF).
  set (st := CPU.set_pc target
               (pushed (Z.land ra 0xFF) (pushed (ra / 0x100) self))).
  destruct (pushed_stack_usable (ra / 0x100) self Hst) as [Hst1 Hs1].
  assert (Hjsr : CPU.jsr (Some target) self = (Ok tt, st)).
  { unfold CPU.jsr, CPU.jmp. unfold bind at 1. unfold gets at 1.
    fold ra. unfold bind at 1.
    rewrite (cpu_push self _ Hst Hs). unfold bind at 1.
    rewrite (cpu_push _ _ Hst1 Hs1). reflexivity. }
  destruct (two_pulls_after_two_pushes (ra / 0x100) (Z.land ra 0xFF) target
              self Hst Hs) as [Hp1 Hp2].
  cbv zeta in Hp1, Hp2. fold st in Hp1, Hp2.
  assert (Hra : 0 <= ra < 0x10000) by apply land_0xFFFF_range.
  assert (Hrts : CPU.rts st
                 = (Ok tt,
                    CPU.set_pc (CPU.pc self)
                      (CPU.set_s (CPU.s self)
                         (CPU.set_s (Z.land (CPU.s self - 1) 0xFF) st)))).
  { unfold CPU.rts. unfold bind at 1. rewrite Hp1.
    unfold bind at 1. rewrite Hp2.
    unfold CPU.inc_pc. unfold bind, modify, gets.
    cbn [CPU.pc CPU.set_pc CPU.set_s].
    rewrite (return_address_bytes ra Hra). unfold ra.
    rewrite (return_address_next _ Hpc).
    destruct self; reflexivity. }
  assert (Hboth : (CPU.jsr (Some target) ;; CPU.rts) self
                  = (Ok tt,
                     CPU.set_pc (CPU.pc self)
                       (CPU.set_s (CPU.s self)
                          (CPU.set_s (Z.land (CPU.s self - 1) 0xFF) st)))).
  { unfold bind at 1. rewrite Hjsr. exact Hrts. }
  unfold called, after. rewrite Hjsr, Hboth. cbn [fst snd].
  destruct (pushed_fields (ra / 0x100) self) as (Es1 & _).
  split; [reflexivity|]. split; [reflexivity|].
  split.
  { unfold st. cbn [CPU.s CPU.set_pc].
    destruct (pushed_fields (Z.land ra 0xFF) (pushed (ra / 0x100) self))
      as (-> & _).
    rewrite Es1. reflexivity. }
  split; [reflexivity|].
  unfold st, pushed. destruct self. repeat split.
Qed.

Lemma jsr_rts_round_trip_witness :
  CPU.pc (snd ((CPU.jsr (Some 0x0300) ;; CPU.rts) (running 0x0203 (Bus.init true))))
  = CPU.pc (running 0x0203 (Bus.init true)).
Proof.
  refine (proj1 (proj2 (proj2 (proj2 (proj2
            (jsr_rts_round_trip (running 0x0203 (Bus.init true)) 0x0300
               (bus_init_stack_usable true) _ _)))))).
  - vm_compute. intuition discriminate.
  - vm_compute. intuition discriminate.
Defined.

(** ** Breakpoints *)

Lemma remove_first_elem_of (address other : Z) (l : list Z) :
  other <> address -> (other ∈ CPU.remove_first address l <-> other ∈ l).
Proof.
  intros Hne. induction l as [|p rest IH]; simpl; [reflexivity|].
  destruct (Z.eqb_spec p address) as [->|Hp].
  - rewrite elem_of_cons. intuition congruence.
  - rewrite !elem_of_cons, IH. reflexivity.
Qed.

Lemma remove_first_NoDup (address : Z) (l : list Z) :
  NoDup l ->
  NoDup (CPU.remove_first address l) /\ address ∉ CPU.remove_first address l.
Proof.
  induction 1 as [|p rest Hp Hnd [IH1 IH2]]; simpl.
  - split; [constructor|apply not_elem_of_nil].
  - destruct (Z.eqb_spec p address) as [->|Hne].
    + split; assumption.
    + split.
      * constructor; [|exact IH1].
        rewrite remove_first_elem_of by exact Hne. exact Hp.
      * rewrite elem_of_cons. intuition congruence.
Qed.

Lemma remove_first_appended (address : Z) (l : list Z) :
  address ∉ l -> CPU.remove_first address (l ++ [address]) = l.
Proof.
  induction l as [|p rest IH]; simpl; intros Hnot.
  - rewrite Z.eqb_refl. reflexivity.
  - rewrite not_elem_of_cons in Hnot. destruct Hnot as [Hne Hrest].
    destruct (Z.eqb_spec p address) as [E|_]; [congruence|].
    rewrite (IH Hrest). reflexivity.
Qed.

(** X13: [set_breakpoint] toggles the membership of [address & 0xFFFF] in
    a duplicate-free breakpoint list and of nothing else: it returns
    [True] exactly when the address was absent, afterwards the address is
    present exactly when it was absent before, every other address is in
    the list exactly when it was, and the list is still duplicate free.
    Toggling an absent address twice gives back the original state. *)
Theorem set_breakpoint_toggles {B} {bus_methods : BusLike B}
    (self : CPU.t B) (address : Z) :
  NoDup (CPU.breakpoints self) ->
  let a := Z.land address 0xFFFF in
  let after := snd (CPU.set_breakpoint address self) in
  fst (CPU.set_breakpoint address self)
  = Ok (bool_decide (a ∉ CPU.breakpoints self))
  /\ NoDup (CPU.breakpoints after)
  /\ (a ∈ CPU.breakpoints after <-> a ∉ CPU.breakpoints self)
  /\ (forall other : Z,
        other <> a ->
        (other ∈ CPU.breakpoints after <-> other ∈ CPU.breakpoints self))
  /\ (a ∉ CPU.breakpoints self ->
      snd (CPU.set_breakpoint address after) = self).
Proof.
  intros Hnd a after. unfold after, CPU.set_breakpoint. fold a.
  unfold bind, gets, modify, ret.
  destruct (decide (a ∈ CPU.breakpoints self)) as [Hin|Hnot].
  - rewrite (bool_decide_eq_true_2 _ Hin).
    rewrite (bool_decide_eq_false_2 (a ∉ CPU.breakpoints self))
      by (intros Hc; exact (Hc Hin)).
    cbn [fst snd CPU.breakpoints CPU.set_breakpoints].
    destruct (remove_first_NoDup a _ Hnd) as [Hnd' Hgone].
    replace (CPU.breakpoints (CPU.set_breakpoints
                                (CPU.remove_first a (CPU.breakpoints self)) self))
      with (CPU.remove_first a (CPU.breakpoints self))
      by (destruct self; reflexivity).
    split; [reflexivity|]. split; [exact Hnd'|].
    split; [tauto|]. split.
    + intros other Hne. apply remove_first_elem_of. exact Hne.
    + intros Hc. contradiction.
  - rewrite (bool_decide_eq_false_2 _ Hnot).
    rewrite (bool_decide_eq_true_2 (a ∉ CPU.breakpoints self) Hnot).
    cbn [fst snd].
    replace (CPU.breakpoints (CPU.set_breakpoints
                                (CPU.breakpoints self ++ [a])%list self))
      with (CPU.breakpoints self ++ [a])%list
      by (destruct self; reflexivity).
    split; [reflexivity|]. split.
    { apply NoDup_app. split; [exact Hnd|]. split.
      - intros x Hx Hxa. apply list_elem_of_singleton in Hxa. subst x.
        exact (Hnot Hx).
      - apply NoDup_singleton. }
    split.
    { rewrite elem_of_app, list_elem_of_singleton. tauto. }
    split.
    { intros other Hne. rewrite elem_of_app, list_elem_of_singleton. tauto. }
    intros _.
    rewrite bool_decide_eq_true_2
      by (rewrite elem_of_app, list_elem_of_singleton; tauto).
    cbn [snd]. rewrite (remove_first_appended a _ Hnot).
    destruct self; reflexivity.
Qed.

Lemma set_breakpoint_toggles_witness :
  fst (CPU.set_breakpoint 0x10300 (running 0x0200 (Bus.init true)))
  = Ok (bool_decide
          (Z.land 0x10300 0xFFFF ∉ CPU.breakpoints (running 0x0200 (Bus.init true)))).
Proof.
  refine (proj1 (set_breakpoint_toggles (running 0x0200 (Bus.init true))
                   0x10300 _)).
  apply NoDup_nil_2.
Defined.

(** ** Unmapped opcodes *)

Section UnmappedOpcodes.

Context {B : Type} {bus_methods : BusLike B}.

Lemma opcodes_frame_halted :
  Forall (fun entry => instruction_frame (@CPU.halted B) (snd entry))
    CPU.opcodes.
Proof. frame_table. Qed.

Lemma cpu_read_frame_halted (self : CPU.t B) (address : Z) :
  CPU.halted (snd (CPU.read address self)) = CPU.halted self.
Proof.
  apply (frame_cpu_read (@CPU.halted B)). intros bus' []. reflexivity.
Qed.

Lemma inc_pc_frame_halted : frame (@CPU.halted B) CPU.inc_pc.
Proof. frame_auto. Qed.


(** X15: [fetch_execute] on a running CPU leaves it halted exactly when
    the fetch returned a byte that is no key of the opcode dictionary; no
    instruction of the dictionary ever sets [halted]. *)
Theorem fetch_execute_halts_only_on_unmapped (self : CPU.t B) :
  CPU.halted self = false ->
  (CPU.halted (snd (CPU.fetch_execute self)) = true
   <-> exists opcode : Z,
         fst (CPU.read (CPU.pc self) self) = Ok opcode
         /\ CPU.lookup_opcode (format_X 2 opcode) CPU.opcodes = None).
Proof.
  intros Hh.
  unfold CPU.fetch_execute. unfold bind at 1. unfold gets at 1.
  unfold bind at 1.
  pose proof (cpu_read_frame_halted self (CPU.pc self)) as Hrd.
  destruct (CPU.read (CPU.pc self) self) as [[opcode|e] fetched];
    cbn [fst snd] in *.
  - unfold bind at 1.
    pose proof (inc_pc_frame_halted fetched) as Hinc.
    destruct (CPU.inc_pc fetched) as [[[]|e] moved] eqn:Emove; cbn [snd] in Hinc.
    + destruct (CPU.lookup_opcode (format_X 2 opcode) CPU.opcodes)
        as [instr|] eqn:Hlook.
      * pose proof (lookup_opcode_Forall _ _ _ _ opcodes_frame_halted Hlook)
          as Hinstr.
        assert (Hkeep : CPU.halted
                          (snd (match instr with
                                | CPU.Implied operation => operation
                                | CPU.Addressed operation resolver =>
                                    let* address := resolver in
                                    operation address
                                end moved)) = false).
        { destruct instr as [operation|operation resolver]; simpl in Hinstr.
          - rewrite Hinstr. congruence.
          - destruct Hinstr as [Hres Hop].
            rewrite (frame_bind _ _ _ Hres Hop). congruence. }
        split.
        -- intros Hhalt. rewrite Hkeep in Hhalt. discriminate.
        -- intros (op & Hop & Hnone). injection Hop as <-. congruence.
      * split; [|reflexivity].
        intros _. exists opcode. split; [reflexivity|exact Hlook].
    + unfold CPU.inc_pc, bind, gets, modify in Emove. discriminate.
  - split.
    + intros Hhalt. congruence.
    + intros (op & Hop & _). discriminate.
Qed.

End UnmappedOpcodes.


Lemma fetch_execute_halts_only_on_unmapped_witness :
  CPU.halted (snd (CPU.fetch_execute
                     (running 0x0200 (poke [(0x0200, 0x02)] (Bus.init true)))))
  = true
  <-> exists opcode : Z,
      fst (CPU.read (CPU.pc (running 0x0200 (poke [(0x0200, 0x02)] (Bus.init true))))
             (running 0x0200 (poke [(0x0200, 0x02)] (Bus.init true))))
      = Ok opcode
      /\ CPU.lookup_opcode (format_X 2 opcode) (@CPU.opcodes Bus.t _) = None.
Proof.
  exact (fetch_execute_halts_only_on_unmapped
           (running 0x0200 (poke [(0x0200, 0x02)] (Bus.init true))) eq_refl).
Defined.

(** ** Comparison and branches *)

Lemma land_0x80 (v : Z) :
  Z.land v 0x80 = if 0x80 <=? v mod 0x100 then 0x80 else 0.
Proof.
  change 0x80 with (2 ^ 7) at 1. rewrite land_pow2 by lia.
  rewrite <- (Z.mod_pow2_bits_low v 8 7) by lia.
  change (2 ^ 8) with 0x100.
  pose proof (Z.mod_pos_bound v 0x100 ltac:(lia)) as Hr.
  set (r := v mod 0x100) in *.
  rewrite Z.testbit_odd, Z.shiftr_div_pow2 by lia. change (2 ^ 7) with 0x80.
  destruct (Z.leb_spec 0x80 r) as [Hhi|Hlo].
  - replace (r / 0x80) with 1; [reflexivity|].
    apply (Z.div_unique r 0x80 1 (r - 0x80)); lia.
  - rewrite Z.div_small by lia. reflexivity.
Qed.

Section CompareAndBranch.

Context {B : Type} {bus_methods : BusLike B}.

(** X16: [compare] of two bytes sets C exactly when the register is at
    least the operand, Z exactly when they are equal and N to bit 7 of
    their difference modulo 256, and changes nothing else (V in
    particular). *)
Theorem compare_sets_carry_zero_negative (self : CPU.t B) (reg m : Z) :
  0 <= reg < 0x100 ->
  0 <= m < 0x100 ->
  CPU.compare reg m self
  = (Ok tt,
     CPU.set_n (int (0x80 <=? (reg - m) mod 0x100))
       (CPU.set_z (int (reg =? m)) (CPU.set_c (int (m <=? reg)) self))).
Proof.
  intros Hreg Hm. unfold CPU.compare, CPU.set_nz, bind, modify.
  rewrite land_0xFF.
  replace (reg - m >=? 0) with (m <=? reg)
    by (rewrite Z.geb_leb; destruct (Z.leb_spec m reg), (Z.leb_spec 0 (reg - m));
        reflexivity || lia).
  replace ((reg - m) mod 0x100 =? 0) with (reg =? m).
  2:{ destruct (Z.eqb_spec reg m) as [->|Hne].
      - rewrite Z.sub_diag. reflexivity.
      - symmetry. apply Z.eqb_neq. intros Hz.
        destruct (Z_lt_le_dec reg m).
        + rewrite <- (Z.mod_unique (reg - m) 0x100 (-1) (reg - m + 0x100)) in Hz;
            lia.
        + rewrite Z.mod_small in Hz; lia. }
  rewrite Z.geb_leb. reflexivity.
Qed.

(** X17: a branch reads its displacement byte [d] at the program counter
    and steps over it; when taken, it lands [d] bytes further on if
    [d < $80] and [$100 - d] bytes back otherwise, all modulo 64K.
    Nothing but the program counter (and what the read did to the bus)
    changes. *)
Theorem branch_adds_signed_displacement (self : CPU.t B) (d : Z)
    (take : bool) :
  fst (CPU.read (CPU.pc self) self) = Ok d ->
  0 <= d < 0x100 ->
  CPU.branch take self
  = (Ok tt,
     CPU.set_pc
       ((CPU.pc self + 1 + (if take then signed_byte d else 0)) mod 0x10000)
       (snd (CPU.read (CPU.pc self) self))).
Proof.
  intros Hread Hd.
  destruct (cpu_read_result self (CPU.pc self)) as [Hst _].
  unfold CPU.branch. unfold bind at 1. unfold gets at 1. unfold bind at 1.
  destruct (CPU.read (CPU.pc self) self) as [[q|e] fetched]; simpl in Hread;
    [|discriminate].
  injection Hread as ->. cbn [snd] in *. subst fetched.
  unfold CPU.inc_pc. unfold bind, gets, modify, ret.
  cbn [CPU.pc CPU.set_bus CPU.set_pc].
  destruct take; cbn [CPU.pc CPU.set_bus CPU.set_pc].
  - rewrite !land_0xFFFF, Zplus_mod_idemp_l. unfold signed_byte.
    rewrite Z.geb_leb.
    destruct (Z.leb_spec 0x80 d), (Z.ltb_spec d 0x80); try lia.
    + replace (- (0x100 - d)) with (d - 0x100) by lia.
      destruct self; reflexivity.
    + destruct self; reflexivity.
  - rewrite land_0xFFFF, Z.add_0_r. destruct self; reflexivity.
Qed.

End CompareAndBranch.

Lemma compare_sets_carry_zero_negative_witness :
  CPU.compare 0x40 0x40 (running 0x0200 (Bus.init true))
  = (Ok tt,
     CPU.set_n (int (0x80 <=? (0x40 - 0x40) mod 0x100))
       (CPU.set_z (int (0x40 =? 0x40))
          (CPU.set_c (int (0x40 <=? 0x40)) (running 0x0200 (Bus.init true))))).
Proof.
  refine (compare_sets_carry_zero_negative (running 0x0200 (Bus.init true))
            0x40 0x40 _ _); lia.
Defined.

Lemma branch_adds_signed_displacement_witness :
  CPU.branch true (running 0x1001 (poke [(0x1001, 0xFF)] (Bus.init true)))
  = (Ok tt,
     CPU.set_pc
       ((CPU.pc (running 0x1001 (poke [(0x1001, 0xFF)] (Bus.init true))) + 1
         + signed_byte 0xFF) mod 0x10000)
       (snd (CPU.read
               (CPU.pc (running 0x1001 (poke [(0x1001, 0xFF)] (Bus.init true))))
               (running 0x1001 (poke [(0x1001, 0xFF)] (Bus.init true)))))).
Proof.
  refine (branch_adds_signed_displacement
            (running 0x1001 (poke [(0x1001, 0xFF)] (Bus.init true))) 0xFF true
            _ _).
  - vm_compute. reflexivity.
  - lia.
Defined.

(** ** Binary addition and subtraction *)

Section BinaryArithmetic.

Context {B : Type} {bus_methods : BusLike B}.

Lemma adc_binary_state (self : CPU.t B) (address m : Z) :
  fst (CPU.read address self) = Ok m ->
  truthy (CPU.d self) = false ->
  CPU.adc (Some address) self
  = let sum := CPU.a self + m + CPU.c self in
    let result := Z.land sum 0xFF in
    (Ok tt,
     CPU.set_a result
       (CPU.set_n (int (result >=? 0x80))
          (CPU.set_z (int (result =? 0))
             (CPU.set_v
                (int (negb (Z.land (CPU.a self) 0x80 =? Z.land result 0x80)
                      && negb (Z.land m 0x80 =? Z.land result 0x80)))
                (CPU.set_c (int (sum >? 255))
                   (snd (CPU.read address self))))))).
Proof.
  intros Hread Hd.
  destruct (cpu_read_result self address) as [Hst _].
  unfold CPU.adc, CPU.read_at. unfold bind at 1.
  destruct (CPU.read address self) as [[q|e] fetched]; simpl in Hread;
    [|discriminate].
  injection Hread as ->. cbn [snd] in *. subst fetched.
  unfold bind, gets, modify, ret, CPU.set_nz.
  cbn [CPU.a CPU.c CPU.d CPU.set_bus CPU.set_c CPU.set_v CPU.set_z CPU.set_n].
  rewrite Hd. reflexivity.
Qed.

Lemma sbc_binary_state (self : CPU.t B) (address m : Z) :
  fst (CPU.read address self) = Ok m ->
  truthy (CPU.d self) = false ->
  CPU.sbc (Some address) self
  = let difference := CPU.a self - m + CPU.c self - 1 in
    let result := Z.land difference 0xFF in
    (Ok tt,
     CPU.set_a result
       (CPU.set_n (int (result >=? 0x80))
          (CPU.set_z (int (result =? 0))
             (CPU.set_v
                (int (negb (Z.land (CPU.a self) 0x80 =? Z.land difference 0x80)
                      && (Z.land m 0x80 =? Z.land difference 0x80)))
                (CPU.set_c (int (difference >=? 0))
                   (snd (CPU.read address self))))))).
Proof.
  intros Hread Hd.
  destruct (cpu_read_result self address) as [Hst _].
  unfold CPU.sbc, CPU.read_at. unfold bind at 1.
  destruct (CPU.read address self) as [[q|e] fetched]; simpl in Hread;
    [|discriminate].
  injection Hread as ->. cbn [snd] in *. subst fetched.
  unfold bind, gets, modify, ret, CPU.set_nz.
  cbn [CPU.a CPU.c CPU.d CPU.set_bus CPU.set_c CPU.set_v CPU.set_z CPU.set_n].
  rewrite Hd. reflexivity.
Qed.

(** X18: in binary mode, with A and the operand [m] bytes and C a bit,
    [adc] stores [(A + m + C) mod 256] in A, sets C exactly when the sum
    exceeds 255, sets Z and N from the stored byte, and sets V exactly
    when the sum of the operands read as signed bytes, plus C, does not
    fit in a signed byte. *)
Theorem adc_in_binary_mode (self : CPU.t B) (address m : Z) :
  fst (CPU.read address self) = Ok m ->
  truthy (CPU.d self) = false ->
  0 <= CPU.a self < 0x100 ->
  0 <= m < 0x100 ->
  CPU.c self = 0 \/ CPU.c self = 1 ->
  let sum := CPU.a self + m + CPU.c self in
  let signed_sum := signed_byte (CPU.a self) + signed_byte m + CPU.c self in
  let after := snd (CPU.adc (Some address) self) in
  fst (CPU.adc (Some address) self) = Ok tt
  /\ CPU.a after = sum mod 0x100
  /\ CPU.c after = int (0xFF <? sum)
  /\ CPU.z after = int (CPU.a after =? 0)
  /\ CPU.n after = int (0x80 <=? CPU.a after)
  /\ CPU.v after = int (negb ((-128 <=? signed_sum) && (signed_sum <=? 127))).
Proof.
  intros Hread Hd Ha Hm Hc sum signed_sum after.
  pose proof (adc_binary_state self address m Hread Hd) as Hadc.
  cbv zeta in Hadc. fold sum in Hadc.
  unfold after. rewrite Hadc.
  cbn [fst snd CPU.a CPU.c CPU.z CPU.n CPU.v CPU.set_a CPU.set_n CPU.set_z
         CPU.set_v CPU.set_c].
  rewrite !land_0x80, land_0xFF, Z.mod_mod by lia.
  rewrite (Z.mod_small (CPU.a self)), (Z.mod_small m) by lia.
  pose proof (Z.mod_pos_bound sum 0x100 ltac:(lia)) as Hr.
  pose proof (Z.div_mod sum 0x100 ltac:(lia)) as Hdm.
  assert (Hq : sum / 0x100 = 0 \/ sum / 0x100 = 1).
  { assert (0 <= sum / 0x100 < 2); [|lia].
    split; [apply Z.div_pos | apply Z.div_lt_upper_bound]; unfold sum; lia. }
  set (r := sum mod 0x100) in *.
  rewrite Z.geb_leb, Z.gtb_ltb.
  repeat split; try reflexivity.
  unfold signed_sum, signed_byte. f_equal.
  destruct (Z.leb_spec 0x80 (CPU.a self)), (Z.leb_spec 0x80 m),
    (Z.leb_spec 0x80 r), (Z.ltb_spec (CPU.a self) 0x80),
    (Z.ltb_spec m 0x80); try lia; cbn [Z.eqb Pos.eqb negb andb];
    split_comparisons; cbn [negb andb]; try reflexivity; unfold sum in *; lia.
Qed.

(** X19: in binary mode, with A and the operand [m] bytes and C a bit,
    [sbc] stores [(A - m - (1 - C)) mod 256] in A, sets C exactly when no
    borrow was needed, sets Z and N from the stored byte, and sets V
    exactly when the difference of the operands read as signed bytes, less
    the borrow, does not fit in a signed byte. *)
Theorem sbc_in_binary_mode (self : CPU.t B) (address m : Z) :
  fst (CPU.read address self) = Ok m ->
  truthy (CPU.d self) = false ->
  0 <= CPU.a self < 0x100 ->
  0 <= m < 0x100 ->
  CPU.c self = 0 \/ CPU.c self = 1 ->
  let difference := CPU.a self - m - (1 - CPU.c self) in
  let signed_difference :=
    signed_byte (CPU.a self) - signed_byte m - (1 - CPU.c self) in
  let after := snd (CPU.sbc (Some address) self) in
  fst (CPU.sbc (Some address) self) = Ok tt
  /\ CPU.a after = difference mod 0x100
  /\ CPU.c after = int (0 <=? difference)
  /\ CPU.z after = int (CPU.a after =? 0)
  /\ CPU.n after = int (0x80 <=? CPU.a after)
  /\ CPU.v after
     = int (negb ((-128 <=? signed_difference) && (signed_difference <=? 127))).
Proof.
  intros Hread Hd Ha Hm Hc difference signed_difference after.
  pose proof (sbc_binary_state self address m Hread Hd) as Hsbc.
  cbv zeta in Hsbc.
  replace (CPU.a self - m + CPU.c self - 1) with difference in Hsbc
    by (unfold difference; lia).
  unfold after. rewrite Hsbc.
  cbn [fst snd CPU.a CPU.c CPU.z CPU.n CPU.v CPU.set_a CPU.set_n CPU.set_z
         CPU.set_v CPU.set_c].
  rewrite !land_0x80, land_0xFF by lia.
  rewrite (Z.mod_small (CPU.a self)), (Z.mod_small m) by lia.
  pose proof (Z.mod_pos_bound difference 0x100 ltac:(lia)) as Hr.
  pose proof (Z.div_mod difference 0x100 ltac:(lia)) as Hdm.
  assert (Hq : difference / 0x100 = -1 \/ difference / 0x100 = 0).
  { assert (-1 <= difference / 0x100 < 1); [|lia].
    split; [apply Z.div_le_lower_bound | apply Z.div_lt_upper_bound];
      unfold difference; lia. }
  set (r := difference mod 0x100) in *.
  rewrite !Z.geb_leb.
  repeat split; try reflexivity.
  unfold signed_difference, signed_byte. f_equal.
  destruct (Z.leb_spec 0x80 (CPU.a self)), (Z.leb_spec 0x80 m),
    (Z.leb_spec 0x80 r), (Z.ltb_spec (CPU.a self) 0x80),
    (Z.ltb_spec m 0x80); try lia; cbn [Z.eqb Pos.eqb negb andb];
    split_comparisons; cbn [negb andb]; try reflexivity;
    unfold difference in *; lia.
Qed.

End BinaryArithmetic.

Lemma adc_in_binary_mode_witness :
  CPU.a (snd (CPU.adc (Some 0x0201) before_binary_7F_01))
  = (CPU.a before_binary_7F_01 + 0x01 + CPU.c before_binary_7F_01) mod 0x100.
Proof.
  refine (proj1 (proj2 (adc_in_binary_mode before_binary_7F_01 0x0201 0x01
                          _ eq_refl _ _ _))).
  - vm_compute. reflexivity.
  - vm_compute. intuition discriminate.
  - lia.
  - left. reflexivity.
Defined.

Lemma sbc_in_binary_mode_witness :
  CPU.a (snd (CPU.sbc (Some 0x0201) before_binary_7F_01))
  = (CPU.a before_binary_7F_01 - 0x01 - (1 - CPU.c before_binary_7F_01))
      mod 0x100.
Proof.
  refine (proj1 (proj2 (sbc_in_binary_mode before_binary_7F_01 0x0201 0x01
                          _ eq_refl _ _ _))).
  - vm_compute. reflexivity.
  - vm_compute. intuition discriminate.
  - lia.
  - left. reflexivity.
Defined.

Lemma land_1_mod2 (v : Z) : Z.land v 1 = v mod 2.
Proof. apply (Z.land_ones v 1). lia. Qed.

(** ** Rotations and BCD conversion *)

Section Rotations.

Context {B : Type} {bus_methods : BusLike B}.

(** X20: rotating a byte left through the carry and the result right
    through the carry (the helpers behind [ROL] and [ROR]) gives back the
    byte and, when the carry was a bit, the carry; the left rotation
    yields [(2 * value + C) mod 256] with C set to the old bit 7. *)
Theorem rotate_left_then_right (self : CPU.t B) (value : Z) :
  0 <= value < 0x100 ->
  CPU.c self = 0 \/ CPU.c self = 1 ->
  let rotated := CPU.shift_left value true self in
  let back := (let* r := CPU.shift_left value true in
               CPU.shift_right r true) self in
  fst rotated = Ok ((2 * value + CPU.c self) mod 0x100)
  /\ CPU.c (snd rotated) = int (0x80 <=? value)
  /\ fst back = Ok value
  /\ CPU.c (snd back) = CPU.c self.
Proof.
  intros Hv Hc rotated back. unfold rotated, back.
  unfold CPU.shift_left, CPU.shift_right, CPU.set_nz.
  unfold bind, gets, modify, ret.
  cbn [fst snd CPU.c CPU.set_c CPU.set_z CPU.set_n andb].
  rewrite !land_0xFF, Z.geb_leb.
  pose proof (Z.mod_pos_bound (value * 2) 0x100 ltac:(lia)) as Hr.
  pose proof (Z.div_mod (value * 2) 0x100 ltac:(lia)) as Hdm.
  assert (Hq : (value * 2) / 0x100 = 0 \/ (value * 2) / 0x100 = 1).
  { assert (0 <= (value * 2) / 0x100 < 2); [|lia].
    split; [apply Z.div_pos | apply Z.div_lt_upper_bound]; lia. }
  assert (Hhalf : (value * 2) mod 0x100 / 2
                  = value - 128 * ((value * 2) / 0x100)).
  { symmetry.
    apply (Z.div_unique ((value * 2) mod 0x100) 2
             (value - 128 * ((value * 2) / 0x100)) 0); lia. }
  set (r := (value * 2) mod 0x100) in *.
  destruct Hc as [Ec|Ec]; rewrite Ec; unfold truthy;
    cbn [Z.eqb negb]; cbn [Z.eqb Pos.eqb negb].
  - repeat split.
    + unfold r. do 2 f_equal. lia.
    + rewrite (Z.mod_small (r / 2)) by lia.
      destruct (Z.leb_spec 0x80 value); cbn [int Z.eqb negb]; f_equal; lia.
    + rewrite land_1_mod2. symmetry. apply (Z.mod_unique r 2 (r / 2) 0); lia.
  - repeat split.
    + f_equal.
      apply (Z.mod_unique (2 * value + 1) 0x100 ((value * 2) / 0x100) (r + 1));
        lia.
    + replace ((r + 1) / 2) with (r / 2)
        by (apply (Z.div_unique (r + 1) 2 (r / 2) 1); lia).
      rewrite (Z.mod_small (r / 2)) by lia.
      destruct (Z.leb_spec 0x80 value); cbn [int Z.eqb negb]; f_equal; lia.
    + rewrite land_1_mod2. symmetry.
      apply (Z.mod_unique (r + 1) 2 (r / 2) 1); lia.
Qed.

End Rotations.

Lemma rotate_left_then_right_witness :
  fst ((let* r := CPU.shift_left 0x81 true in CPU.shift_right r true)
         (running 0x0200 (Bus.init true)))
  = Ok 0x81.
Proof.
  refine (proj1 (proj2 (proj2 (rotate_left_then_right
                                 (running 0x0200 (Bus.init true)) 0x81 _ _)))).
  - lia.
  - left. reflexivity.
Defined.

(** X21: [bin2bcd] and [bcd2bin] are inverse to each other between the
    numbers 0 to 99 and the bytes whose nibbles are decimal digits. *)
Theorem bcd_round_trip (number byte : Z) :
  0 <= number < 100 ->
  valid_bcd byte ->
  valid_bcd (CPU.bin2bcd number)
  /\ CPU.bcd2bin (CPU.bin2bcd number) = number
  /\ 0 <= CPU.bcd2bin byte < 100
  /\ CPU.bin2bcd (CPU.bcd2bin byte) = byte.
Proof.
  intros Hn Hb.
  assert (Hq : 0 <= number / 10 < 10).
  { split; [apply Z.div_pos; lia | apply Z.div_lt_upper_bound; lia]. }
  assert (Hm : 0 <= number mod 10 < 10) by (apply Z.mod_pos_bound; lia).
  pose proof (Z.div_mod number 10 ltac:(lia)) as Hdm.
  assert (Hhi : CPU.bin2bcd number / 16 = number / 10).
  { rewrite (bin2bcd_small _ Hn). symmetry.
    apply (Z.div_unique _ 16 (number / 10) (number mod 10)); lia. }
  assert (Hlo : CPU.bin2bcd number mod 16 = number mod 10).
  { rewrite (bin2bcd_small _ Hn). symmetry.
    apply (Z.mod_unique _ 16 (number / 10) (number mod 10)); lia. }
  assert (Hvalid : valid_bcd (CPU.bin2bcd number)).
  { unfold valid_bcd. rewrite Hhi, Hlo. split; lia. }
  destruct (bcd2bin_valid _ Hvalid) as [Eback _].
  destruct (bcd2bin_valid _ Hb) as [Edec Hrange].
  destruct Hb as [Hbh Hbl].
  pose proof (Z.div_mod byte 16 ltac:(lia)) as Hbdm.
  split; [exact Hvalid|]. split; [rewrite Eback, Hhi, Hlo; lia|].
  split; [lia|].
  rewrite bin2bcd_small by lia. rewrite Edec.
  replace ((10 * (byte / 16) + byte mod 16) / 10) with (byte / 16)
    by (apply (Z.div_unique _ 10 (byte / 16) (byte mod 16)); lia).
  replace ((10 * (byte / 16) + byte mod 16) mod 10) with (byte mod 16)
    by (apply (Z.mod_unique _ 10 (byte / 16) (byte mod 16)); lia).
  lia.
Qed.

Lemma bcd_round_trip_witness :
  CPU.bcd2bin (CPU.bin2bcd 42) = 42 /\ CPU.bin2bcd (CPU.bcd2bin 0x42) = 0x42.
Proof.
  split.
  - refine (proj1 (proj2 (bcd_round_trip 42 0x42 _ _))).
    + lia.
    + vm_compute. intuition discriminate.
  - refine (proj2 (proj2 (proj2 (bcd_round_trip 42 0x42 _ _)))).
    + lia.
    + vm_compute. intuition discriminate.
Defined.

(** ** Decimal subtraction *)

Section DecimalSbc.

Context {B : Type} {bus_methods : BusLike B}.

Lemma sbc_decimal_state (self : CPU.t B) (address m : Z) :
  fst (CPU.read address self) = Ok m ->
  truthy (CPU.d self) = true ->
  CPU.sbc (Some address) self
  = let r := CPU.bcd2bin (CPU.a self) - CPU.bcd2bin m + CPU.c self - 1 in
    let result := if r <? 0 then r + 100 else r in
    (Ok tt,
     CPU.set_a (CPU.bin2bcd result)
       (CPU.set_n (int (result >=? 0x80))
          (CPU.set_z (int (result =? 0))
             (CPU.set_c (if r <? 0 then 0 else 1)
                (CPU.set_v
                   (int (negb (Z.land (CPU.a self) 0x80 =? Z.land r 0x80)
                         && (Z.land m 0x80 =? Z.land r 0x80)))
                   (snd (CPU.read address self))))))).
Proof.
  intros Hread Hd.
  destruct (cpu_read_result self address) as [Hst _].
  unfold CPU.sbc, CPU.read_at. unfold bind at 1.
  destruct (CPU.read address self) as [[q|e] fetched]; simpl in Hread;
    [|discriminate].
  injection Hread as ->. cbn [snd] in *. subst fetched.
  unfold bind, gets, modify, ret, CPU.set_nz.
  cbn [CPU.a CPU.c CPU.d CPU.set_bus].
  rewrite Hd.
  destruct (CPU.bcd2bin (CPU.a self) - CPU.bcd2bin m + CPU.c self - 1 <? 0);
    cbn [CPU.d CPU.set_c CPU.set_v CPU.set_z CPU.set_n CPU.set_bus];
    try rewrite Hd; reflexivity.
Qed.

(** X22: in decimal mode, with A and the operand [m] valid BCD bytes and C
    a bit, [sbc] forms [r = bcd(A) - bcd(m) - (1 - C)], sets C exactly
    when [r] is not negative and stores the BCD encoding of [r mod 100] in
    A; Z is set exactly when the stored byte is 0 and N is always 0. *)
Theorem sbc_in_decimal_mode (self : CPU.t B) (address m : Z) :
  fst (CPU.read address self) = Ok m ->
  truthy (CPU.d self) = true ->
  valid_bcd (CPU.a self) ->
  valid_bcd m ->
  CPU.c self = 0 \/ CPU.c self = 1 ->
  let r := CPU.bcd2bin (CPU.a self) - CPU.bcd2bin m - (1 - CPU.c self) in
  let after := snd (CPU.sbc (Some address) self) in
  fst (CPU.sbc (Some address) self) = Ok tt
  /\ CPU.c after = int (0 <=? r)
  /\ CPU.a after = 16 * (r mod 100 / 10) + r mod 100 mod 10
  /\ CPU.z after = int (CPU.a after =? 0)
  /\ CPU.n after = 0.
Proof.
  intros Hread Hd Ha Hm Hc r after.
  destruct (bcd2bin_valid _ Ha) as [_ Hra].
  destruct (bcd2bin_valid _ Hm) as [_ Hrm].
  assert (Hr : -100 <= r <= 99) by (unfold r; split; lia).
  pose proof (sbc_decimal_state self address m Hread Hd) as Hsbc.
  cbv zeta in Hsbc.
  replace (CPU.bcd2bin (CPU.a self) - CPU.bcd2bin m + CPU.c self - 1)
    with r in Hsbc by (unfold r; lia).
  assert (Hres : (if r <? 0 then r + 100 else r) = r mod 100).
  { destruct (Z.ltb_spec r 0) as [Hneg|Hpos].
    - apply (Z.mod_unique r 100 (-1)); lia.
    - symmetry. apply Z.mod_small. lia. }
  rewrite Hres in Hsbc.
  assert (Hmod : 0 <= r mod 100 < 100) by (apply Z.mod_pos_bound; lia).
  assert (Ea : CPU.a after = 16 * (r mod 100 / 10) + r mod 100 mod 10).
  { unfold after. rewrite Hsbc. cbn [snd CPU.a CPU.set_a].
    apply bin2bcd_small. exact Hmod. }
  split; [rewrite Hsbc; reflexivity|].
  split.
  { unfold after. rewrite Hsbc. cbn.
    destruct (Z.ltb_spec r 0), (Z.leb_spec 0 r); reflexivity || lia. }
  split; [exact Ea|].
  split.
  { rewrite Ea, <- (bin2bcd_small _ Hmod), (bin2bcd_zero _ Hmod).
    unfold after. rewrite Hsbc. reflexivity. }
  unfold after. rewrite Hsbc. cbn [snd CPU.n CPU.set_a CPU.set_n].
  rewrite Z.geb_leb. destruct (Z.leb_spec 0x80 (r mod 100)) as [Hge|_];
    [lia|reflexivity].
Qed.

End DecimalSbc.

Lemma sbc_in_decimal_mode_witness :
  CPU.a (snd (CPU.sbc (Some 0x0201) before_adc_09_01))
  = 16 * ((CPU.bcd2bin (CPU.a before_adc_09_01) - CPU.bcd2bin 0x01
           - (1 - CPU.c before_adc_09_01)) mod 100 / 10)
    + (CPU.bcd2bin (CPU.a before_adc_09_01) - CPU.bcd2bin 0x01
       - (1 - CPU.c before_adc_09_01)) mod 100 mod 10.
Proof.
  refine (proj1 (proj2 (proj2 (sbc_in_decimal_mode before_adc_09_01 0x0201 0x01
                                 _ eq_refl _ _ _)))).
  - vm_compute. reflexivity.
  - solve_valid_bcd.
  - solve_valid_bcd.
  - left. reflexivity.
Defined.

(** ** Interrupts and the return from them *)

Lemma stack_pointer_two_down_differs (sp : Z) :
  0 <= sp < 0x100 -> Z.land (Z.land (sp - 1) 0xFF - 1) 0xFF <> sp.
Proof.
  intros Hs. rewrite !land_0xFF.
  destruct (Z.eq_dec sp 0) as [->|Hne]; [vm_compute; discriminate|].
  rewrite (Z.mod_small (sp - 1)) by lia.
  destruct (Z.eq_dec sp 1) as [->|Hne1]; [vm_compute; discriminate|].
  rewrite Z.mod_small by lia. lia.
Qed.

Lemma cpu_read_readable (self : CPU.t Bus.t) (address : Z) :
  bus_well_formed (CPU.bus self) ->
  0 <= address < 0x10000 ->
  Bus.index (Bus.is_readable (CPU.bus self)) address = Some true ->
  exists value : Z,
    Bus.index (Bus.mem (CPU.bus self)) address = Some value
    /\ CPU.read address self = (Ok value, self).
Proof.
  intros (Hm & _) Ha Hr.
  destruct (index_is_Some (Bus.mem (CPU.bus self)) address) as [value Hv];
    [rewrite Hm; exact Ha|].
  exists value. split; [exact Hv|]. apply cpu_read_ram; assumption.
Qed.

(** The status byte an interrupt pushes, and the flags it gives back. *)
Lemma interrupt_status_bits (bn bv bb bd bi bz bc set_break_flag : bool) :
  let sr := (if bn then 0x80 else 0) + (if bv then 0x40 else 0)
            + (if bb then 0x10 else 0) + (if bd then 0x08 else 0)
            + (if bi then 0x04 else 0) + (if bz then 0x02 else 0)
            + (if bc then 0x01 else 0) in
  let p := Z.land (if set_break_flag then Z.lor sr 0x30 else Z.land sr 0xCF)
             0xFF in
  (bit_of p 7, bit_of p 6, bit_of p 4, bit_of p 3, bit_of p 2, bit_of p 1,
   bit_of p 0)
  = (int bn, int bv, int set_break_flag, int bd, int bi, int bz, int bc).
Proof.
  destruct bn, bv, bb, bd, bi, bz, bc, set_break_flag; reflexivity.
Qed.

(** X23: an interrupt followed by [RTI].  On a bus whose stack page is
    usable and whose vector cells are readable, [interrupt] returns with
    I set, the stack pointer three down and the program counter loaded
    from the vector; an [RTI] executed in that state returns to the
    interrupted program counter with the stack pointer, A, X and Y as they
    were and N, V, D, I, Z, C normalised to 0 or 1 but otherwise as before
    the interrupt.  B comes back as 1 after a [BRK] and as 0 after a
    hardware interrupt, whatever it was before. *)
Theorem interrupt_rti_round_trip (self : CPU.t Bus.t) (vector : Z)
    (set_break_flag : bool) :
  stack_usable (CPU.bus self) ->
  0 <= CPU.s self < 0x100 ->
  0 <= CPU.pc self < 0x10000 ->
  0 <= vector < 0xFFFF ->
  Bus.index (Bus.is_readable (CPU.bus self)) vector = Some true ->
  Bus.index (Bus.is_readable (CPU.bus self)) (vector + 1) = Some true ->
  let entered := snd (CPU.interrupt vector set_break_flag self) in
  let after := snd ((CPU.interrupt vector set_break_flag ;; CPU.rti) self) in
  fst (CPU.interrupt vector set_break_flag self) = Ok tt
  /\ CPU.i entered = 1
  /\ CPU.s entered
     = Z.land (Z.land (Z.land (CPU.s self - 1) 0xFF - 1) 0xFF - 1) 0xFF
  /\ (exists lsb msb : Z,
        Bus.index (Bus.mem (CPU.bus entered)) vector = Some lsb
        /\ Bus.index (Bus.mem (CPU.bus entered)) (vector + 1) = Some msb
        /\ CPU.pc entered = lsb + msb * 0x100)
  /\ fst ((CPU.interrupt vector set_break_flag ;; CPU.rti) self) = Ok tt
  /\ CPU.pc after = CPU.pc self
  /\ CPU.s after = CPU.s self
  /\ CPU.a after = CPU.a self /\ CPU.x after = CPU.x self
  /\ CPU.y after = CPU.y self
  /\ flags after
     = (int (truthy (CPU.n self)), int (truthy (CPU.v self)),
        int set_break_flag,
        int (truthy (CPU.d self)), int (truthy (CPU.i self)),
        int (truthy (CPU.z self)), int (truthy (CPU.c self))).
Proof.
  intros Hst Hs Hpc Hvec Hr0 Hr1 entered after.
  set (sr := CPU.get_status_register self).
  set (p := if set_break_flag then Z.lor sr 0x30 else Z.land sr 0xCF).
  set (hi := CPU.pc self / 0x100).
  set (lo := Z.land (CPU.pc self) 0xFF).
  set (P1 := pushed hi self).
  set (P2 := pushed lo P1).
  set (P3 := pushed p P2).
  destruct (pushed_stack_usable hi self Hst) as [Hst1 Hs1]. fold P1 in Hst1, Hs1.
  destruct (pushed_stack_usable lo P1 Hst1) as [Hst2 Hs2]. fold P2 in Hst2, Hs2.
  destruct (pushed_stack_usable p P2 Hst2) as [Hst3 Hs3]. fold P3 in Hst3, Hs3.
  destruct (pushed_fields hi self) as (Es1 & Eb1 & Ea1 & Ex1 & Ey1 & Epc1 & Ef1 & _).
  destruct (pushed_fields lo P1) as (Es2 & Eb2 & Ea2 & Ex2 & Ey2 & Epc2 & Ef2 & _).
  destruct (pushed_fields p P2) as (Es3 & Eb3 & Ea3 & Ex3 & Ey3 & Epc3 & Ef3 & _).
  fold P1 in Es1, Eb1, Ea1, Ex1, Ey1, Epc1, Ef1.
  fold P2 in Es2, Eb2, Ea2, Ex2, Ey2, Epc2, Ef2.
  fold P3 in Es3, Eb3, Ea3, Ex3, Ey3, Epc3, Ef3.
  assert (Esr : CPU.get_status_register P2 = sr).
  { unfold sr. rewrite !get_status_register_sum.
    destruct (flags_inv P2 _ _ _ _ _ _ _ (eq_trans Ef2 Ef1))
      as (-> & -> & -> & -> & -> & -> & ->).
    reflexivity. }
  assert (Hpush3 :
            (if set_break_flag then CPU.php
             else
               let* sr := gets CPU.get_status_register in
               CPU.push (Z.land sr 0xCF)) P2
            = (Ok tt, P3)).
  { unfold p. destruct set_break_flag.
    - unfold CPU.php, bind, gets. rewrite Esr.
      rewrite (cpu_push P2 _ Hst2 Hs2). reflexivity.
    - unfold bind, gets. rewrite Esr.
      rewrite (cpu_push P2 _ Hst2 Hs2). reflexivity. }
  assert (Hread3 : Bus.is_readable (CPU.bus P3) = Bus.is_readable (CPU.bus self)).
  { rewrite Eb3, Eb2, Eb1. reflexivity. }
  set (Q := CPU.set_i 1 P3).
  assert (HbusQ : CPU.bus Q = CPU.bus P3) by reflexivity.
  destruct (cpu_read_readable Q vector) as (lsb & Hcell0 & Hlsb);
    [rewrite HbusQ; apply Hst3|lia|rewrite HbusQ, Hread3; exact Hr0|].
  destruct (cpu_read_readable Q (vector + 1)) as (msb & Hcell1 & Hmsb);
    [rewrite HbusQ; apply Hst3|lia|rewrite HbusQ, Hread3; exact Hr1|].
  set (E := CPU.set_pc (lsb + msb * 0x100) Q).
  assert (Hint : CPU.interrupt vector set_break_flag self = (Ok tt, E)).
  { unfold CPU.interrupt.
    unfold bind at 1. unfold gets at 1. unfold bind at 1.
    rewrite (cpu_push self _ Hst Hs). fold hi. fold P1.
    unfold bind at 1. unfold gets at 1. rewrite Epc1. fold lo.
    unfold bind at 1. rewrite (cpu_push P1 _ Hst1 Hs1). fold P2.
    unfold bind at 1. rewrite Hpush3.
    unfold CPU.sei_and_set_pc, CPU.sei.
    unfold bind at 1. unfold modify at 1. fold Q.
    unfold bind at 1. rewrite Hlsb.
    unfold bind at 1. rewrite (land_0xFFFF_small (vector + 1)) by lia.
    rewrite Hmsb. reflexivity. }
  (* the return *)
  assert (HsE : CPU.s E = CPU.s P3) by reflexivity.
  assert (HbusE : CPU.bus E = CPU.bus P3) by reflexivity.
  set (E1 := CPU.set_s (CPU.s P2) E).
  assert (Hpull1 : CPU.pull E = (Ok (Z.land p 0xFF), E1)).
  { rewrite (cpu_pull E (Z.land p 0xFF)).
    - rewrite HsE, Es3, (stack_pointer_back _ Hs2). reflexivity.
    - rewrite HbusE. exact Hst3.
    - rewrite HsE, HbusE, Es3, (stack_pointer_back _ Hs2), Eb3.
      apply stored_same; [apply Hst2|lia]. }
  set (E2 := snd (CPU.set_status_register (Z.land p 0xFF) E1)).
  destruct (set_status_register_flags (Z.land p 0xFF) E1) as [Hok Hfl].
  destruct (set_status_register_registers (Z.land p 0xFF) E1)
    as (Ea & Ex & Ey & _ & Es & Eb & _).
  cbv zeta in Ea, Ex, Ey, Es, Eb. fold E2 in Hfl, Ea, Ex, Ey, Es, Eb.
  assert (Hplp : CPU.plp E = (Ok tt, E2)).
  { unfold CPU.plp. unfold bind at 1. rewrite Hpull1.
    unfold E2. destruct (CPU.set_status_register (Z.land p 0xFF) E1) as [r st].
    cbn [fst snd] in *. rewrite Hok. reflexivity. }
  assert (HsE2 : CPU.s E2 = CPU.s P2) by (rewrite Es; reflexivity).
  assert (HbusE2 : CPU.bus E2 = CPU.bus P3) by (rewrite Eb; reflexivity).
  set (E3 := CPU.set_s (CPU.s P1) E2).
  assert (Hpull2 : CPU.pull E2 = (Ok (Z.land lo 0xFF), E3)).
  { rewrite (cpu_pull E2 (Z.land lo 0xFF)).
    - rewrite HsE2, Es2, (stack_pointer_back _ Hs1). reflexivity.
    - rewrite HbusE2. exact Hst3.
    - rewrite HsE2, HbusE2, Es2, (stack_pointer_back _ Hs1), Eb3.
      rewrite stored_other.
      + rewrite Eb2. apply stored_same; [apply Hst1|lia].
      + lia.
      + lia.
      + rewrite Es2. pose proof (stack_pointer_down_differs _ Hs1). lia. }
  set (E4 := CPU.set_s (CPU.s self) E3).
  assert (Hpull3 : CPU.pull E3 = (Ok (Z.land hi 0xFF), E4)).
  { rewrite (cpu_pull E3 (Z.land hi 0xFF)).
    - cbn [CPU.s CPU.set_s E3]. rewrite Es1, (stack_pointer_back _ Hs).
      reflexivity.
    - cbn [CPU.bus CPU.set_s E3]. rewrite HbusE2. exact Hst3.
    - unfold E3. cbn [CPU.s CPU.bus CPU.set_s].
      rewrite HbusE2, Es1, (stack_pointer_back _ Hs), Eb3, Es2, Es1.
      rewrite stored_other.
      + rewrite Eb2, Es1. rewrite stored_other.
        * rewrite Eb1. apply stored_same; [apply Hst|lia].
        * pose proof (land_0xFF_range (CPU.s self - 1)). lia.
        * lia.
        * pose proof (stack_pointer_down_differs _ Hs). lia.
      + pose proof (land_0xFF_range (Z.land (CPU.s self - 1) 0xFF - 1)). lia.
      + lia.
      + pose proof (stack_pointer_two_down_differs _ Hs). lia. }
  assert (Hrti : CPU.rti E = (Ok tt, CPU.set_pc (CPU.pc self) E4)).
  { unfold CPU.rti. unfold bind at 1. rewrite Hplp.
    unfold bind at 1. rewrite Hpull2.
    unfold bind at 1. rewrite Hpull3.
    unfold modify. unfold hi, lo.
    rewrite (return_address_bytes _ Hpc). reflexivity. }
  assert (Hboth : (CPU.interrupt vector set_break_flag ;; CPU.rti) self
                  = (Ok tt, CPU.set_pc (CPU.pc self) E4)).
  { unfold bind at 1. rewrite Hint. exact Hrti. }
  unfold entered, after. rewrite Hint, Hboth. cbn [fst snd].
  split; [reflexivity|].
  split; [reflexivity|].
  split; [rewrite HsE, Es3, Es2, Es1; reflexivity|].
  split.
  { exists lsb, msb. repeat split; assumption. }
  split; [reflexivity|].
  split; [reflexivity|].
  split; [reflexivity|].
  split; [cbn [CPU.a CPU.set_pc CPU.set_s E4 E3]; rewrite Ea; exact (eq_trans Ea3 (eq_trans Ea2 Ea1))|].
  split; [cbn [CPU.x CPU.set_pc CPU.set_s E4 E3]; rewrite Ex; exact (eq_trans Ex3 (eq_trans Ex2 Ex1))|].
  split; [cbn [CPU.y CPU.set_pc CPU.set_s E4 E3]; rewrite Ey; exact (eq_trans Ey3 (eq_trans Ey2 Ey1))|].
  change (flags (CPU.set_pc (CPU.pc self) E4)) with (flags E2).
  rewrite Hfl. unfold p, sr. rewrite get_status_register_sum.
  apply interrupt_status_bits.
Qed.

Lemma interrupt_rti_round_trip_witness :
  CPU.pc (snd ((CPU.interrupt CPU.nmi_brk_vector true ;; CPU.rti)
                 (running 0x0200 (Bus.init true))))
  = CPU.pc (running 0x0200 (Bus.init true)).
Proof.
  refine (proj1 (proj2 (proj2 (proj2 (proj2 (proj2
            (interrupt_rti_round_trip (running 0x0200 (Bus.init true))
               CPU.nmi_brk_vector true (bus_init_stack_usable true)
               _ _ _ _ _))))))).
  - vm_compute. intuition discriminate.
  - vm_compute. intuition discriminate.
  - vm_compute. intuition discriminate.
  - apply bus_init_permissions. vm_compute. intuition discriminate.
  - apply bus_init_permissions. vm_compute. intuition discriminate.
Defined.

(** * Everything stays in range *)

Lemma keeps_ret {S A} (X : exn -> Prop) (P : S -> Prop) (Q : A -> Prop)
    (v : A) :
  Q v -> keeps X P Q (ret v).
Proof. intros Hv st Hst. split; [exact Hst|exact Hv]. Qed.

Lemma keeps_raise {S A} (X : exn -> Prop) (P : S -> Prop) (Q : A -> Prop)
    (e : exn) :
  X e -> keeps X P Q (raise e).
Proof. intros He st Hst. split; [exact Hst|exact He]. Qed.

Lemma keeps_gets {S A} (X : exn -> Prop) (P : S -> Prop) (Q : A -> Prop)
    (f : S -> A) :
  (forall st, P st -> Q (f st)) -> keeps X P Q (gets f).
Proof. intros Hf st Hst. split; [exact Hst|]. apply Hf. exact Hst. Qed.

Lemma keeps_modify {S} (X : exn -> Prop) (P : S -> Prop) (g : S -> S) :
  (forall st, P st -> P (g st)) -> keeps X P unit_ok (modify g).
Proof. intros Hg st Hst. split; [apply Hg; exact Hst|exact I]. Qed.

Lemma keeps_bind {S A C} (X : exn -> Prop) (P : S -> Prop) (Q : A -> Prop)
    (R : C -> Prop) (m : M S A) (k : A -> M S C) :
  keeps X P Q m -> (forall v, Q v -> keeps X P R (k v)) ->
  keeps X P R (bind m k).
Proof.
  intros Hm Hk st Hst. unfold bind.
  destruct (Hm st Hst) as [Hst' Hv].
  destruct (m st) as [[v|e] st']; cbn [fst snd] in *.
  - apply Hk; [exact Hv|exact Hst'].
  - split; [exact Hst'|exact Hv].
Qed.

Lemma keeps_weaken {S A} (X X' : exn -> Prop) (P : S -> Prop)
    (Q Q' : A -> Prop) (m : M S A) :
  (forall e, X e -> X' e) -> (forall v, Q v -> Q' v) ->
  keeps X P Q m -> keeps X' P Q' m.
Proof.
  intros HX HQ Hm st Hst. destruct (Hm st Hst) as [Hst' Hv].
  split; [exact Hst'|].
  destruct (fst (m st)); [apply HQ|apply HX]; exact Hv.
Qed.

Lemma keeps_sleep {S} (P : S -> Prop) (microseconds : Z) :
  keeps is_sim_or_value_error P unit_ok (sleep microseconds).
Proof.
  intros st Hst. unfold sleep.
  destruct (microseconds <? 0); (split; [exact Hst|exact I]).
Qed.

Lemma sim_error_is_sim_or_value_error (e : exn) :
  is_sim_error e -> is_sim_or_value_error e.
Proof. destruct e; intros H; first [exact I | exact H]. Qed.

Lemma registers_in_range_set_bus {B} (bus' : B) (self : CPU.t B) :
  registers_in_range (CPU.set_bus bus' self) <-> registers_in_range self.
Proof. destruct self. reflexivity. Qed.

Lemma bus_well_formed_index {A} (l : list A) (address : Z) :
  Z.of_nat (length l) = Bus.mem_size ->
  is_Some (Bus.index l (Z.land address 0xFFFF)).
Proof.
  intros Hl. apply index_is_Some. rewrite Hl.
  exact (land_0xFFFF_range address).
Qed.

Lemma keeps_read (address : Z) : keeps is_sim_error machine_ok is_byte (CPU.read address).
Proof.
  intros st (Hreg & Hwf & Hmem).
  destruct (cpu_read_result st address) as [Hst Hval].
  change (bus_read address (CPU.bus st)) with (Bus.read address (CPU.bus st))
    in Hst, Hval.
  rewrite bus_read_state in Hst. rewrite cpu_set_bus_same in Hst.
  rewrite Hst, Hval. split; [exact (conj Hreg (conj Hwf Hmem))|].
  destruct Hwf as (Hm & _ & Hr).
  destruct (bus_well_formed_index (Bus.is_readable (CPU.bus st)) address Hr)
    as [r Er].
  destruct (bus_well_formed_index (Bus.mem (CPU.bus st)) address Hm)
    as [value Ev].
  unfold Bus.read. rewrite Er, Ev.
  destruct r; [|destruct (Bus.throw_memory_errors (CPU.bus st))]; cbn [fst].
  - exact (Forall_lookup_1 _ _ _ _ Hmem Ev).
  - exact I.
  - unfold is_byte. lia.
Qed.

Lemma keeps_write (address value : Z) :
  keeps is_sim_error machine_ok unit_ok (CPU.write address value).
Proof.
  intros st (Hreg & Hwf & Hmem).
  unfold CPU.write.
  change (bus_write address value (CPU.bus st))
    with (Bus.write address value (CPU.bus st)).
  assert (Hbus : (bus_well_formed (snd (Bus.write address value (CPU.bus st)))
                  /\ Forall is_byte
                       (Bus.mem (snd (Bus.write address value (CPU.bus st)))))
                 /\ match fst (Bus.write address value (CPU.bus st)) with
                    | Ok v => unit_ok v
                    | Raise e => is_sim_error e
                    end).
  { destruct Hwf as (Hm & Hw & Hr).
    destruct (bus_well_formed_index (Bus.is_writeable (CPU.bus st)) address Hw)
      as [w Ew].
    destruct (bus_well_formed_index (Bus.mem (CPU.bus st)) address Hm)
      as [old Ev].
    unfold Bus.write. rewrite Ew, Ev.
    destruct w; [|destruct (Bus.throw_memory_errors (CPU.bus st))];
      cbn [fst snd]; (split; [|exact I]);
      try (split; [exact (conj Hm (conj Hw Hr))|exact Hmem]).
    split.
    - repeat split; cbn [Bus.mem Bus.set_mem Bus.is_writeable Bus.is_readable];
        try assumption.
      rewrite length_insert. exact Hm.
    - cbn [Bus.mem Bus.set_mem]. apply Forall_insert; [exact Hmem|].
      apply land_0xFF_range. }
  destruct (Bus.write address value (CPU.bus st)) as [r bus'].
  cbn [fst snd] in *. destruct Hbus as [[Hwf' Hmem'] Hr].
  split; [|exact Hr].
  split; [apply registers_in_range_set_bus; exact Hreg|].
  destruct st; split; assumption.
Qed.

Lemma land_0xFF_le (v : Z) : 0 <= v -> Z.land v 0xFF <= v.
Proof. intros Hv. rewrite land_0xFF. apply Z.mod_le; lia. Qed.

Lemma land_double_range (v : Z) : 0 <= Z.land (v * 2) 0xFF <= 254.
Proof.
  rewrite land_0xFF. change 0x100 with (128 * 2).
  rewrite Z.mul_mod_distr_r by lia.
  pose proof (Z.mod_pos_bound v 128 ltac:(lia)). lia.
Qed.

Lemma land_half_range (v : Z) :
  0 <= v < 0x100 -> 0 <= Z.land (v / 2) 0xFF <= 127.
Proof.
  intros Hv.
  assert (0 <= v / 2 <= 127).
  { split; [apply Z.div_pos; lia|].
    assert (v / 2 < 128) by (apply Z.div_lt_upper_bound; lia). lia. }
  rewrite land_0xFF_small by lia. lia.
Qed.

Lemma land_1_range (v : Z) : Z.land v 1 = 0 \/ Z.land v 1 = 1.
Proof.
  rewrite land_1_mod2. pose proof (Z.mod_pos_bound v 2 ltac:(lia)). lia.
Qed.

Lemma bcd2bin_byte_range (v : Z) : 0 <= v < 0x100 -> 0 <= CPU.bcd2bin v <= 165.
Proof.
  intros Hv. unfold CPU.bcd2bin. rewrite land_0x0F.
  pose proof (Z.mod_pos_bound v 16 ltac:(lia)).
  assert (0 <= v / 16 < 16).
  { split; [apply Z.div_pos; lia | apply Z.div_lt_upper_bound; lia]. }
  lia.
Qed.

Lemma bin2bcd_range (v : Z) : 0 <= CPU.bin2bcd v < 0x100.
Proof. unfold CPU.bin2bcd. apply land_0xFF_range. Qed.

(** The bounds of the masked values in the goal, for [lia]. *)
Ltac range_facts :=
  repeat match goal with
         | |- context [Z.land (?v * 2) 0xFF] =>
             lazymatch goal with
             | H : 0 <= Z.land (v * 2) 0xFF <= 254 |- _ => fail
             | _ => pose proof (land_double_range v)
             end
         | |- context [Z.land (?v / 2) 0xFF] =>
             lazymatch goal with
             | H : 0 <= v < 0x100 -> 0 <= Z.land (v / 2) 0xFF <= 127 |- _ =>
                 fail
             | _ => pose proof (land_half_range v)
             end
         | |- context [Z.land ?v 0xFF] =>
             lazymatch goal with
             | H : 0 <= Z.land v 0xFF < 0x100 |- _ => fail
             | _ => pose proof (land_0xFF_range v);
                    pose proof (land_0xFF_le v)
             end
         | |- context [Z.land ?v 0xFFFF] =>
             lazymatch goal with
             | H : 0 <= Z.land v 0xFFFF < 0x10000 |- _ => fail
             | _ => pose proof (land_0xFFFF_range v)
             end
         | |- context [Z.land ?v 1] =>
             lazymatch goal with
             | H : Z.land v 1 = 0 \/ Z.land v 1 = 1 |- _ => fail
             | _ => pose proof (land_1_range v)
             end
         | |- context [CPU.bin2bcd ?v] =>
             lazymatch goal with
             | H : 0 <= CPU.bin2bcd v < 0x100 |- _ => fail
             | _ => pose proof (bin2bcd_range v)
             end
         | |- context [CPU.bcd2bin ?v] =>
             lazymatch goal with
             | H : 0 <= v < 0x100 -> 0 <= CPU.bcd2bin v <= 165 |- _ => fail
             | _ => pose proof (bcd2bin_byte_range v)
             end
         end.

Ltac range_solver :=
  unfold addressed, address_ok, unit_ok in *;
  unfold is_byte, is_word, is_bit in *;
  repeat match goal with
         | |- context [int ?b] => destruct b; cbn [int]
         | |- context [if ?b then _ else _] => destruct b; cbv beta iota
         end;
  cbn [int];
  range_facts;
  first [exact I | reflexivity | lia].

(** One field of a machine in range replaced by a value in range. *)
Ltac state_solver :=
  lazymatch goal with
  | Hst : machine_ok ?st |- machine_ok _ =>
      destruct st; destruct Hst as (Hreg & Hwf & Hmem);
      split; [|split; [exact Hwf|exact Hmem]];
      unfold registers_in_range in *;
      cbn [CPU.bus CPU.a CPU.x CPU.y CPU.pc CPU.s CPU.c CPU.z CPU.i CPU.d
           CPU.b CPU.v CPU.n CPU.halted CPU.breakpoints CPU.last_break
           CPU.set_bus CPU.set_a CPU.set_x CPU.set_y CPU.set_pc CPU.set_s
           CPU.set_c CPU.set_z CPU.set_i CPU.set_d CPU.set_b CPU.set_v
           CPU.set_n CPU.set_halted CPU.set_breakpoints CPU.set_last_break
           CPU.set_delay CPU.delay]
        in Hreg |- *;
      decompose [and] Hreg; clear Hreg;
      repeat split; try assumption; range_solver
  end.

Ltac keeps_step :=
  lazymatch goal with
  | |- keeps _ _ _ (bind _ _) => eapply keeps_bind; [|intros ? ?]
  | |- keeps _ _ _ (ret _) =>
      first [ apply (keeps_ret _ _ is_bit); solve [range_solver]
            | apply (keeps_ret _ _ is_byte); solve [range_solver]
            | apply (keeps_ret _ _ is_word); solve [range_solver]
            | apply (keeps_ret _ _ addressed); solve [range_solver]
            | apply (keeps_ret _ _ address_ok); solve [range_solver]
            | apply (keeps_ret _ _ unit_ok); exact I
            | apply (keeps_ret _ _ (fun _ : bool => True)); exact I ]
  | |- keeps _ _ _ (raise _) =>
      first [ apply keeps_raise; exact I | exfalso; assumption ]
  | |- keeps _ _ _ (CPU.read _) => apply keeps_read
  | |- keeps _ _ _ (CPU.write _ _) => apply keeps_write
  | |- keeps _ _ _ (modify _) => apply keeps_modify; intros ? ?; state_solver
  | |- keeps _ _ _ (gets CPU.get_status_register) =>
      apply (keeps_gets _ _ (fun _ => True)); intros; exact I
  | |- keeps _ _ _ (gets _) =>
      first [ apply (keeps_gets _ _ is_bit); intros ? (Hreg & _); apply Hreg
            | apply (keeps_gets _ _ is_byte); intros ? (Hreg & _); apply Hreg
            | apply (keeps_gets _ _ is_word); intros ? (Hreg & _); apply Hreg
            | apply (keeps_gets _ _ (fun _ => True)); intros; exact I ]
  | |- keeps _ _ _ (if ?c then _ else _) => destruct c eqn:?
  | |- keeps _ _ _ (match ?o with _ => _ end) => destruct o eqn:?
  end.

Ltac keeps_auto :=
  repeat (autounfold with cpu_methods; cbv beta iota zeta; keeps_step).

Ltac keeps_method := intros; solve [keeps_auto].

(** ** The resolvers return an address of sixteen bits *)

Lemma absolute_keeps : keeps is_sim_error machine_ok addressed CPU.absolute.
Proof. keeps_method. Qed.

Lemma absolute_x_keeps : keeps is_sim_error machine_ok addressed CPU.absolute_x.
Proof. keeps_method. Qed.

Lemma absolute_y_keeps : keeps is_sim_error machine_ok addressed CPU.absolute_y.
Proof. keeps_method. Qed.

Lemma immediate_keeps : keeps is_sim_error machine_ok addressed CPU.immediate.
Proof. keeps_method. Qed.

Lemma indirect_keeps : keeps is_sim_error machine_ok addressed CPU.indirect.
Proof. keeps_method. Qed.

Lemma zero_page_keeps : keeps is_sim_error machine_ok addressed CPU.zero_page.
Proof. keeps_method. Qed.

Lemma zero_page_x_keeps : keeps is_sim_error machine_ok addressed CPU.zero_page_x.
Proof. keeps_method. Qed.

Lemma zero_page_y_keeps : keeps is_sim_error machine_ok addressed CPU.zero_page_y.
Proof. keeps_method. Qed.

Lemma indirect_x_keeps : keeps is_sim_error machine_ok addressed CPU.indirect_x.
Proof. keeps_method. Qed.

Lemma indirect_y_keeps : keeps is_sim_error machine_ok addressed CPU.indirect_y.
Proof. keeps_method. Qed.

Lemma accumulator_keeps : keeps is_sim_error machine_ok address_ok CPU.accumulator.
Proof. keeps_method. Qed.

(** ** The operators *)

Lemma aNd_keeps (address : option Z) :
  addressed address -> keeps is_sim_error machine_ok unit_ok (CPU.aNd address).
Proof. keeps_method. Qed.

Lemma adc_keeps (address : option Z) :
  addressed address -> keeps is_sim_error machine_ok unit_ok (CPU.adc address).
Proof. keeps_method. Qed.

Lemma asl_keeps (address : option Z) :
  address_ok address -> keeps is_sim_error machine_ok unit_ok (CPU.asl address).
Proof. keeps_method. Qed.

Lemma bcc_keeps : keeps is_sim_error machine_ok unit_ok CPU.bcc.
Proof. keeps_method. Qed.

Lemma bcs_keeps : keeps is_sim_error machine_ok unit_ok CPU.bcs.
Proof. keeps_method. Qed.

Lemma beq_keeps : keeps is_sim_error machine_ok unit_ok CPU.beq.
Proof. keeps_method. Qed.

Lemma bit_keeps (address : option Z) :
  addressed address -> keeps is_sim_error machine_ok unit_ok (CPU.bit address).
Proof. keeps_method. Qed.

Lemma bmi_keeps : keeps is_sim_error machine_ok unit_ok CPU.bmi.
Proof. keeps_method. Qed.

Lemma bne_keeps : keeps is_sim_error machine_ok unit_ok CPU.bne.
Proof. keeps_method. Qed.

Lemma bpl_keeps : keeps is_sim_error machine_ok unit_ok CPU.bpl.
Proof. keeps_method. Qed.

Lemma brk_keeps : keeps is_sim_error machine_ok unit_ok CPU.brk.
Proof. keeps_method. Qed.

Lemma bvc_keeps : keeps is_sim_error machine_ok unit_ok CPU.bvc.
Proof. keeps_method. Qed.

Lemma bvs_keeps : keeps is_sim_error machine_ok unit_ok CPU.bvs.
Proof. keeps_method. Qed.

Lemma clc_keeps : keeps is_sim_error machine_ok unit_ok CPU.clc.
Proof. keeps_method. Qed.

Lemma cld_keeps : keeps is_sim_error machine_ok unit_ok CPU.cld.
Proof. keeps_method. Qed.

Lemma cli_keeps : keeps is_sim_error machine_ok unit_ok CPU.cli.
Proof. keeps_method. Qed.

Lemma clv_keeps : keeps is_sim_error machine_ok unit_ok CPU.clv.
Proof. keeps_method. Qed.

Lemma cmp_keeps (address : option Z) :
  addressed address -> keeps is_sim_error machine_ok unit_ok (CPU.cmp address).
Proof. keeps_method. Qed.

Lemma cpx_keeps (address : option Z) :
  addressed address -> keeps is_sim_error machine_ok unit_ok (CPU.cpx address).
Proof. keeps_method. Qed.

Lemma cpy_keeps (address : option Z) :
  addressed address -> keeps is_sim_error machine_ok unit_ok (CPU.cpy address).
Proof. keeps_method. Qed.

Lemma dec_keeps (address : option Z) :
  addressed address -> keeps is_sim_error machine_ok unit_ok (CPU.dec address).
Proof. keeps_method. Qed.

Lemma dex_keeps : keeps is_sim_error machine_ok unit_ok CPU.dex.
Proof. keeps_method. Qed.

Lemma dey_keeps : keeps is_sim_error machine_ok unit_ok CPU.dey.
Proof. keeps_method. Qed.

Lemma eor_keeps (address : option Z) :
  addressed address -> keeps is_sim_error machine_ok unit_ok (CPU.eor address).
Proof. keeps_method. Qed.

Lemma inc_keeps (address : option Z) :
  addressed address -> keeps is_sim_error machine_ok unit_ok (CPU.inc address).
Proof. keeps_method. Qed.

Lemma inx_keeps : keeps is_sim_error machine_ok unit_ok CPU.inx.
Proof. keeps_method. Qed.

Lemma iny_keeps : keeps is_sim_error machine_ok unit_ok CPU.iny.
Proof. keeps_method. Qed.

Lemma jmp_keeps (address : option Z) :
  addressed address -> keeps is_sim_error machine_ok unit_ok (CPU.jmp address).
Proof. keeps_method. Qed.

Lemma jsr_keeps (address : option Z) :
  addressed address -> keeps is_sim_error machine_ok unit_ok (CPU.jsr address).
Proof. keeps_method. Qed.

Lemma lda_keeps (address : option Z) :
  addressed address -> keeps is_sim_error machine_ok unit_ok (CPU.lda address).
Proof. keeps_method. Qed.

Lemma ldx_keeps (address : option Z) :
  addressed address -> keeps is_sim_error machine_ok unit_ok (CPU.ldx address).
Proof. keeps_method. Qed.

Lemma ldy_keeps (address : option Z) :
  addressed address -> keeps is_sim_error machine_ok unit_ok (CPU.ldy address).
Proof. keeps_method. Qed.

Lemma lsr_keeps (address : option Z) :
  address_ok address -> keeps is_sim_error machine_ok unit_ok (CPU.lsr address).
Proof. keeps_method. Qed.

Lemma nop_keeps : keeps is_sim_error machine_ok unit_ok CPU.nop.
Proof. keeps_method. Qed.

Lemma ora_keeps (address : option Z) :
  addressed address -> keeps is_sim_error machine_ok unit_ok (CPU.ora address).
Proof. keeps_method. Qed.

Lemma pha_keeps : keeps is_sim_error machine_ok unit_ok CPU.pha.
Proof. keeps_method. Qed.

Lemma php_keeps : keeps is_sim_error machine_ok unit_ok CPU.php.
Proof. keeps_method. Qed.

Lemma pla_keeps : keeps is_sim_error machine_ok unit_ok CPU.pla.
Proof. keeps_method. Qed.

Lemma plp_keeps : keeps is_sim_error machine_ok unit_ok CPU.plp.
Proof. keeps_method. Qed.

Lemma rol_keeps (address : option Z) :
  address_ok address -> keeps is_sim_error machine_ok unit_ok (CPU.rol address).
Proof. keeps_method. Qed.

Lemma ror_keeps (address : option Z) :
  address_ok address -> keeps is_sim_error machine_ok unit_ok (CPU.ror address).
Proof. keeps_method. Qed.

Lemma rti_keeps : keeps is_sim_error machine_ok unit_ok CPU.rti.
Proof. keeps_method. Qed.

Lemma rts_keeps : keeps is_sim_error machine_ok unit_ok CPU.rts.
Proof. keeps_method. Qed.

Lemma sec_keeps : keeps is_sim_error machine_ok unit_ok CPU.sec.
Proof. keeps_method. Qed.

Lemma sed_keeps : keeps is_sim_error machine_ok unit_ok CPU.sed.
Proof. keeps_method. Qed.

Lemma sei_keeps : keeps is_sim_error machine_ok unit_ok CPU.sei.
Proof. keeps_method. Qed.

Lemma sta_keeps (address : option Z) :
  addressed address -> keeps is_sim_error machine_ok unit_ok (CPU.sta address).
Proof. keeps_method. Qed.

Lemma stx_keeps (address : option Z) :
  addressed address -> keeps is_sim_error machine_ok unit_ok (CPU.stx address).
Proof. keeps_method. Qed.

Lemma sty_keeps (address : option Z) :
  addressed address -> keeps is_sim_error machine_ok unit_ok (CPU.sty address).
Proof. keeps_method. Qed.

Lemma tax_keeps : keeps is_sim_error machine_ok unit_ok CPU.tax.
Proof. keeps_method. Qed.

Lemma tay_keeps : keeps is_sim_error machine_ok unit_ok CPU.tay.
Proof. keeps_method. Qed.

Lemma tsx_keeps : keeps is_sim_error machine_ok unit_ok CPU.tsx.
Proof. keeps_method. Qed.

Lemma txa_keeps : keeps is_sim_error machine_ok unit_ok CPU.txa.
Proof. keeps_method. Qed.

Lemma txs_keeps : keeps is_sim_error machine_ok unit_ok CPU.txs.
Proof. keeps_method. Qed.

Lemma tya_keeps : keeps is_sim_error machine_ok unit_ok CPU.tya.
Proof. keeps_method. Qed.

(** [sbc] leaves a byte in [result] in binary mode only; in decimal mode
    it is [bin2bcd] that cuts the accumulator down to eight bits. *)
Lemma sbc_keeps (address : option Z) :
  addressed address -> keeps is_sim_error machine_ok unit_ok (CPU.sbc address).
Proof.
  intros Ha. unfold CPU.sbc. cbv zeta.
  eapply keeps_bind; [solve [keeps_auto]|intros value Hvalue].
  eapply keeps_bind; [solve [keeps_auto]|intros self_a Hself_a].
  eapply keeps_bind; [solve [keeps_auto]|intros self_c Hself_c].
  eapply keeps_bind; [solve [keeps_auto]|intros self_d Hself_d].
  apply (keeps_bind _ _
           (fun result => truthy self_d = false -> is_byte result)).
  - destruct (truthy self_d) eqn:Ed.
    + eapply keeps_bind; [solve [keeps_auto]|intros _ _].
      destruct (_ <? 0);
        (eapply keeps_bind; [solve [keeps_auto]|intros _ _]);
        apply keeps_ret; discriminate.
    + eapply keeps_bind; [solve [keeps_auto]|intros _ _].
      eapply keeps_bind; [solve [keeps_auto]|intros _ _].
      apply keeps_ret. intros _. apply land_0xFF_range.
  - intros result Hresult.
    eapply keeps_bind; [solve [keeps_auto]|intros _ _].
    destruct (truthy self_d); [solve [keeps_auto]|].
    specialize (Hresult eq_refl). solve [keeps_auto].
Qed.

(** ** The table and the step *)

Create HintDb keeps_db.

#[global] Hint Resolve
  absolute_keeps absolute_x_keeps absolute_y_keeps immediate_keeps
  indirect_keeps zero_page_keeps zero_page_x_keeps zero_page_y_keeps
  indirect_x_keeps indirect_y_keeps accumulator_keeps
  adc_keeps aNd_keeps asl_keeps bcc_keeps bcs_keeps beq_keeps bit_keeps
  bmi_keeps bne_keeps bpl_keeps brk_keeps bvc_keeps bvs_keeps clc_keeps
  cld_keeps cli_keeps clv_keeps cmp_keeps cpx_keeps cpy_keeps dec_keeps
  dex_keeps dey_keeps eor_keeps inc_keeps inx_keeps iny_keeps jmp_keeps
  jsr_keeps lda_keeps ldx_keeps ldy_keeps lsr_keeps nop_keeps ora_keeps
  pha_keeps pla_keeps php_keeps plp_keeps rol_keeps ror_keeps rti_keeps
  rts_keeps sbc_keeps sec_keeps sed_keeps sei_keeps sta_keeps stx_keeps
  sty_keeps
  tax_keeps tay_keeps tsx_keeps txa_keeps txs_keeps tya_keeps
  : keeps_db.

Lemma addressed_address_ok (address : option Z) :
  addressed address -> address_ok address.
Proof. destruct address; [intros H; exact H|intros []]. Qed.

#[global] Hint Resolve addressed_address_ok : keeps_db.

Ltac keeps_entry :=
  cbn [snd instruction_keeps];
  lazymatch goal with
  | |- keeps _ _ _ _ => solve [auto with keeps_db]
  | |- exists _, _ =>
      first [ exists addressed; split; [|intros ? ?]; solve [auto with keeps_db]
            | exists address_ok; split; [|intros ? ?];
              solve [auto with keeps_db] ]
  end.

(** Every entry of the table pairs an operator with a resolver whose
    result it can take. *)
Lemma opcodes_keep :
  Forall (fun entry => instruction_keeps (snd entry)) CPU.opcodes.
Proof.
  unfold CPU.opcodes.
  repeat (apply List.Forall_cons; [keeps_entry|]).
  apply List.Forall_nil.
Qed.

Lemma fetch_execute_keeps : keeps is_sim_error machine_ok unit_ok CPU.fetch_execute.
Proof.
  unfold CPU.fetch_execute.
  eapply keeps_bind; [solve [keeps_auto]|intros saved_pc _].
  eapply keeps_bind; [solve [keeps_auto]|intros opcode _].
  eapply keeps_bind; [solve [keeps_auto]|intros _ _]. cbv zeta.
  destruct (CPU.lookup_opcode (format_X 2 opcode) CPU.opcodes)
    as [instr|] eqn:Hlook; [|solve [keeps_auto]].
  pose proof (lookup_opcode_Forall _ _ _ _ opcodes_keep Hlook) as Hinstr.
  destruct instr as [operation|operation resolver]; cbn in Hinstr.
  - exact Hinstr.
  - destruct Hinstr as (Q & Hres & Hop).
    eapply keeps_bind; [exact Hres|exact Hop].
Qed.

Lemma machine_ok_set_interrupt (tag : option string) (self : CPU.t Bus.t) :
  machine_ok self ->
  machine_ok (CPU.set_bus (bus_set_interrupt tag (CPU.bus self)) self).
Proof.
  intros (Hreg & Hwf & Hmem). destruct self.
  split; [exact Hreg|]. split; [exact Hwf|exact Hmem].
Qed.

(** A part of [step] that does not sleep. *)
Ltac keeps_block :=
  apply (keeps_weaken is_sim_error is_sim_or_value_error _ _ _ _
           sim_error_is_sim_or_value_error (fun _ H => H));
  solve [keeps_auto].

Lemma delayed_fetch_execute_keeps :
  keeps is_sim_or_value_error machine_ok unit_ok CPU.delayed_fetch_execute.
Proof.
  unfold CPU.delayed_fetch_execute.
  eapply keeps_bind; [keeps_block|intros self_delay _].
  eapply keeps_bind; [apply keeps_sleep|intros _ _].
  exact (keeps_weaken _ _ _ _ _ _ sim_error_is_sim_or_value_error
           (fun _ H => H) fetch_execute_keeps).
Qed.

Lemma step_keeps :
  keeps is_sim_or_value_error machine_ok unit_ok CPU.step.
Proof.
  unfold CPU.step.
  eapply keeps_bind; [keeps_block|intros self_halted _].
  destruct self_halted; [keeps_block|].
  eapply keeps_bind; [keeps_block|intros pending _].
  destruct pending as [tag|].
  - eapply keeps_bind.
    + destruct (String.eqb tag "RES"); [keeps_block|].
      destruct (String.eqb tag "HLT"); keeps_block.
    + intros _ _. apply keeps_modify. intros st.
      apply machine_ok_set_interrupt.
  - eapply keeps_bind; [keeps_block|intros self_pc _].
    eapply keeps_bind; [keeps_block|intros bps _].
    eapply keeps_bind; [keeps_block|intros self_last_break _].
    eapply keeps_bind; [keeps_block|intros stop _].
    destruct stop; [keeps_block|exact delayed_fetch_execute_keeps].
Qed.

Lemma served_interrupt_keeps (tag : string) :
  keeps is_sim_error machine_ok unit_ok
    ((if String.eqb tag "RES" then CPU.reset
      else if String.eqb tag "HLT" then modify (CPU.set_halted true)
      else raise (SimError ("Unimplemented interrupt condition " ++ tag)%string)) ;;
     modify (fun st => CPU.set_bus (bus_set_interrupt None (CPU.bus st)) st)).
Proof.
  eapply keeps_bind.
  - destruct (String.eqb tag "RES"); [solve [keeps_auto]|].
    destruct (String.eqb tag "HLT"); solve [keeps_auto].
  - intros _ _. apply keeps_modify. intros st.
    apply machine_ok_set_interrupt.
Qed.

Lemma machine_ok_set_last_break (cell : option Z) (self : CPU.t Bus.t) :
  machine_ok self -> machine_ok (CPU.set_last_break cell self).
Proof. intros H. destruct self. exact H. Qed.

(** With a delay that is not negative the sleep of [step] returns. *)
Lemma step_with_a_delay (self : CPU.t Bus.t) :
  machine_ok self ->
  0 <= CPU.delay self ->
  match fst (CPU.step self) with
  | Ok _ => True
  | Raise e => is_sim_error e
  end.
Proof.
  intros Hok Hdelay.
  destruct (CPU.halted self) eqn:Hh.
  { rewrite (step_halted self Hh). exact I. }
  destruct (bus_interrupt (CPU.bus self)) as [tag|] eqn:Hi.
  { rewrite (step_interrupt self tag Hh Hi).
    exact (proj2 (served_interrupt_keeps tag self Hok)). }
  destruct (decide (CPU.pc self ∈ CPU.breakpoints self)) as [Hin|Hout].
  - destruct (decide (CPU.last_break self = Some (CPU.pc self))) as [Hlb|Hlb].
    + rewrite (step_resume self Hh Hi Hin Hlb).
      rewrite delayed_fetch_execute_nonneg by exact Hdelay.
      exact (proj2 (fetch_execute_keeps _
                      (machine_ok_set_last_break None self Hok))).
    + rewrite (step_trap self Hh Hi Hin Hlb). exact I.
  - rewrite (step_no_breakpoint self Hh Hi Hout).
    rewrite delayed_fetch_execute_nonneg by exact Hdelay.
    exact (proj2 (fetch_execute_keeps self Hok)).
Qed.

(** ** Machines in range *)

Lemma bus_init_bytes (throw : bool) : Forall is_byte (Bus.mem (Bus.init throw)).
Proof.
  unfold Bus.init, Bus.init_with. cbn [Bus.mem].
  apply Forall_replicate. unfold is_byte. lia.
Qed.

Lemma poke_well_formed (cells : list (Z * Z)) (self : Bus.t) :
  bus_well_formed self -> bus_well_formed (poke cells self).
Proof.
  intros (Hm & Hw & Hr). unfold poke.
  repeat split; cbn [Bus.mem Bus.set_mem Bus.is_writeable Bus.is_readable];
    try assumption.
  rewrite <- Hm. clear Hm. generalize (Bus.mem self).
  induction cells as [|cell cells IH]; intros m; cbn [fold_left];
    [reflexivity|].
  rewrite IH, length_insert. reflexivity.
Qed.

Lemma poke_bytes (cells : list (Z * Z)) (self : Bus.t) :
  Forall (fun cell => is_byte (snd cell)) cells ->
  Forall is_byte (Bus.mem self) ->
  Forall is_byte (Bus.mem (poke cells self)).
Proof.
  intros Hcells. unfold poke. cbn [Bus.mem Bus.set_mem].
  generalize (Bus.mem self).
  induction Hcells as [|cell cells Hcell _ IH]; intros m Hm; cbn [fold_left];
    [exact Hm|].
  apply IH. apply Forall_insert; [exact Hm|exact Hcell].
Qed.

Lemma running_machine_ok (start : Z) (the_bus : Bus.t) :
  is_word start ->
  bus_well_formed the_bus ->
  Forall is_byte (Bus.mem the_bus) ->
  machine_ok (running start the_bus).
Proof.
  intros Hstart Hwf Hmem. split; [|split; [exact Hwf|exact Hmem]].
  unfold registers_in_range, running, CPU.init, is_byte, is_bit.
  cbn [CPU.a CPU.x CPU.y CPU.pc CPU.s CPU.c CPU.z CPU.i CPU.d CPU.b CPU.v
       CPU.n CPU.set_halted CPU.set_pc].
  repeat split; try lia; try (left; reflexivity); apply Hstart.
Qed.

Lemma before_jmp_10FF_machine_ok : machine_ok before_jmp_10FF.
Proof.
  apply running_machine_ok.
  - unfold is_word. lia.
  - apply poke_well_formed, bus_init_well_formed.
  - apply poke_bytes; [|apply bus_init_bytes].
    repeat (apply List.Forall_cons; [unfold is_byte; cbn [snd]; lia|]).
    apply List.Forall_nil.
Qed.

Lemma init_machine_ok (throw : bool) : machine_ok (CPU.init (Bus.init throw)).
Proof.
  split; [|split; [apply bus_init_well_formed|apply bus_init_bytes]].
  unfold registers_in_range, CPU.init, is_byte, is_word, is_bit.
  cbn [CPU.a CPU.x CPU.y CPU.pc CPU.s CPU.c CPU.z CPU.i CPU.d CPU.b CPU.v
       CPU.n].
  repeat split; try lia; left; reflexivity.
Qed.

(** X24: on a plain bus whose three lists are 64K long and whose memory
    cells are bytes, with A, X, Y and S within eight bits, PC within
    sixteen and every flag 0 or 1, one [step] leaves all of this true
    again, whatever it executes and whether it returns or raises: the
    masks of the operators and of the bus keep every value the CPU stores
    within its width. *)
Theorem step_keeps_everything_in_range (self : CPU.t Bus.t) :
  machine_ok self -> machine_ok (snd (CPU.step self)).
Proof. intros Hself. exact (proj1 (step_keeps self Hself)). Qed.

Lemma step_keeps_everything_in_range_witness :
  machine_ok (snd (CPU.step before_jmp_10FF)).
Proof.
  apply (step_keeps_everything_in_range before_jmp_10FF).
  exact before_jmp_10FF_machine_ok.
Defined.

Lemma unreadable_8000_machine_ok : machine_ok before_lda_8000.
Proof.
  apply running_machine_ok.
  - unfold is_word. lia.
  - destruct (poke_well_formed
                [(0x0200, 0xAD); (0x0201, 0x00); (0x0202, 0x80)]
                (Bus.init true) (bus_init_well_formed true)) as (Hm & Hw & Hr).
    split; [exact Hm|]. split; [exact Hw|].
    cbn [Bus.is_readable Bus.set_is_readable].
    rewrite length_insert.
    exact (proj2 (proj2 (bus_init_well_formed true))).
  - cbn [Bus.mem Bus.set_is_readable].
    apply poke_bytes; [|apply bus_init_bytes].
    repeat (apply List.Forall_cons; [unfold is_byte; cbn [snd]; lia|]).
    apply List.Forall_nil.
Qed.



(** ** Addressing modes *)

Lemma cpu_read_peek (self : CPU.t Bus.t) (address : Z) :
  bus_well_formed (CPU.bus self) ->
  readable_everywhere (CPU.bus self) ->
  CPU.read address self = (Ok (peek self (Z.land address 0xFFFF)), self).
Proof.
  intros Hwf Hread.
  pose proof (land_0xFFFF_range address) as Hr.
  destruct (bus_well_formed_index (Bus.mem (CPU.bus self)) address
              (proj1 Hwf)) as [value Hv].
  unfold peek. rewrite Hv. cbn [default].
  unfold CPU.read.
  change (bus_read address (CPU.bus self))
    with (Bus.read address (CPU.bus self)).
  rewrite bus_read_masked.
  rewrite (bus_read_readable _ _ value Hr (Hread _ Hr) Hv).
  rewrite cpu_set_bus_same. reflexivity.
Qed.

Lemma peek_is_byte (self : CPU.t Bus.t) (address : Z) :
  machine_ok self -> is_byte (peek self address).
Proof.
  intros (_ & _ & Hmem). unfold peek.
  destruct (Bus.index (Bus.mem (CPU.bus self)) address) as [value|] eqn:E;
    cbn [default].
  - exact (Forall_lookup_1 _ _ _ _ Hmem E).
  - unfold is_byte. lia.
Qed.

Lemma inc_pc_twice (pc : Z) :
  Z.land (Z.land (pc + 1) 0xFFFF + 1) 0xFFFF = (pc + 2) mod 0x10000.
Proof.
  rewrite !land_0xFFFF. rewrite Zplus_mod_idemp_l. f_equal. lia.
Qed.

(** The reads of a resolver, one after the other. *)
Ltac read_operands Hwf Hread :=
  unfold bind, gets, modify, ret;
  repeat (rewrite cpu_read_peek by first [exact Hwf | exact Hread];
          cbv beta iota);
  unfold zero_page_word, peek;
  cbn [CPU.pc CPU.set_pc CPU.x CPU.y CPU.bus].

(** X26: the indexed and the pointer addressing modes, on a machine in
    range whose memory can be read everywhere.  With [operand] the byte at
    the program counter: [zero_page_x] and [zero_page_y] add the index
    without carry out of page zero; [absolute_x] and [absolute_y] add it to
    the operand word modulo 64K; [indirect_x] takes the word in page zero
    at [operand + X], both of its bytes wrapping within page zero;
    [indirect_y] takes the word in page zero at [operand] and adds Y modulo
    64K.  Each leaves everything but the program counter alone and moves
    that past its operand. *)
Theorem indexed_addressing (self : CPU.t Bus.t) :
  machine_ok self ->
  readable_everywhere (CPU.bus self) ->
  let operand := peek self (CPU.pc self) in
  let high := peek self ((CPU.pc self + 1) mod 0x10000) in
  let next := CPU.set_pc ((CPU.pc self + 1) mod 0x10000) self in
  let next2 := CPU.set_pc ((CPU.pc self + 2) mod 0x10000) self in
  CPU.zero_page_x self
  = (Ok (Some ((operand + CPU.x self) mod 0x100)), next)
  /\ CPU.zero_page_y self
     = (Ok (Some ((operand + CPU.y self) mod 0x100)), next)
  /\ CPU.absolute_x self
     = (Ok (Some ((operand + high * 0x100 + CPU.x self) mod 0x10000)), next2)
  /\ CPU.absolute_y self
     = (Ok (Some ((operand + high * 0x100 + CPU.y self) mod 0x10000)), next2)
  /\ CPU.indirect_x self
     = (Ok (Some (zero_page_word self ((operand + CPU.x self) mod 0x100))),
        next)
  /\ CPU.indirect_y self
     = (Ok (Some ((zero_page_word self operand + CPU.y self) mod 0x10000)),
        next).
Proof.
  intros Hok Hread operand high next next2.
  pose proof (peek_is_byte self (CPU.pc self) Hok) as Hop.
  destruct Hok as (Hreg & Hwf & Hmem).
  assert (Hpc : is_word (CPU.pc self)) by apply Hreg.
  assert (Epc : Z.land (CPU.pc self) 0xFFFF = CPU.pc self)
    by (apply land_0xFFFF_small; exact Hpc).
  unfold is_byte in Hop.
  unfold operand, high, next, next2. clear operand high next next2.
  unfold peek in Hop.
  set (operand := default 0 (Bus.index (Bus.mem (CPU.bus self)) (CPU.pc self)))
    in *.
  split; [|split; [|split; [|split; [|split]]]].
  - unfold CPU.zero_page_x, CPU.zero_page_x_address, CPU.inc_pc.
    read_operands Hwf Hread.
    rewrite Epc, land_0xFF, land_0xFFFF. reflexivity.
  - unfold CPU.zero_page_y, CPU.inc_pc.
    read_operands Hwf Hread.
    rewrite Epc, land_0xFF, land_0xFFFF. reflexivity.
  - unfold CPU.absolute_x, CPU.absolute_address, CPU.inc_pc.
    read_operands Hwf Hread.
    rewrite Epc, land_0xFFFF_idem, inc_pc_twice, !land_0xFFFF.
    destruct self; reflexivity.
  - unfold CPU.absolute_y, CPU.absolute_address, CPU.inc_pc.
    read_operands Hwf Hread.
    rewrite Epc, land_0xFFFF_idem, inc_pc_twice, !land_0xFFFF.
    destruct self; reflexivity.
  - unfold CPU.indirect_x, CPU.zero_page_x_address, CPU.inc_pc.
    read_operands Hwf Hread.
    rewrite Epc. fold operand.
    pose proof (land_0xFF_range (operand + CPU.x self)) as Hzp.
    pose proof (land_0xFF_range (Z.land (operand + CPU.x self) 0xFF + 1))
      as Hzp1.
    rewrite (land_0xFFFF_small (Z.land (operand + CPU.x self) 0xFF)) by lia.
    rewrite (land_0xFFFF_small
               (Z.land (Z.land (operand + CPU.x self) 0xFF + 1) 0xFF)) by lia.
    rewrite !land_0xFF, land_0xFFFF.
    rewrite (Z.mul_comm 0x100), (Z.add_comm (default 0 _)).
    reflexivity.
  - unfold CPU.indirect_y, CPU.zero_page_address, CPU.inc_pc.
    read_operands Hwf Hread.
    rewrite Epc. fold operand.
    pose proof (land_0xFF_range (operand + 1)) as Hzp1.
    rewrite (land_0xFFFF_small operand) by lia.
    rewrite (land_0xFFFF_small (Z.land (operand + 1) 0xFF)) by lia.
    rewrite !land_0xFF, !land_0xFFFF.
    rewrite (Z.mul_comm 0x100), (Z.add_comm (default 0 _)).
    reflexivity.
Qed.

Lemma indexed_addressing_witness :
  CPU.indirect_x (CPU.set_pc 0x0201 before_opcode_21)
  = (Ok (Some (zero_page_word (CPU.set_pc 0x0201 before_opcode_21)
                 ((peek (CPU.set_pc 0x0201 before_opcode_21) 0x0201 + 0x04)
                  mod 0x100))),
     CPU.set_pc 0x0202 before_opcode_21).
Proof.
  refine (proj1 (proj2 (proj2 (proj2 (proj2
            (indexed_addressing (CPU.set_pc 0x0201 before_opcode_21) _ _)))))).
  - split; [|split].
    + unfold registers_in_range, is_byte, is_word, is_bit.
      cbn [before_opcode_21 running CPU.init CPU.a CPU.x CPU.y CPU.pc CPU.s
           CPU.c CPU.z CPU.i CPU.d CPU.b CPU.v CPU.n CPU.set_pc CPU.set_x
           CPU.set_a CPU.set_halted].
      repeat split; try lia; left; reflexivity.
    + apply poke_well_formed, bus_init_well_formed.
    + apply poke_bytes; [|apply bus_init_bytes].
      repeat (apply List.Forall_cons; [unfold is_byte; cbn [snd]; lia|]).
      apply List.Forall_nil.
  - intros address Ha. exact (proj2 (bus_init_permissions true address Ha)).
Defined.
